(** * cccwiki: the content transforms and the page history of [wiki.py]

    A shallow embedding of the regular-expression transforms
    ([Transform], [AutoLink], [WikiWords], [HideReferers]) and of the
    datastore operations of [Page] ([load], [save], [save_to_history],
    [load_from_history], [diff_history]), with the properties the
    specification states about them. *)

From Stdlib Require Import String Ascii List Arith NArith Lia Bool.
Import ListNotations.

Set Implicit Arguments.

(** ** Strings

    Python 2 [str] values are byte strings and [unicode] values are
    strings of code points; both are lists of 8-bit characters here, so
    that slicing and concatenation are the list operations.  The
    content of a page is a [unicode] text (the datastore's [Text]): its
    characters are the code points below 256.  On ASCII characters the
    two kinds of strings behave alike; where the library tells them
    apart ([urllib.quote], [splitlines]) the definition says which one
    it follows. *)

Definition str := list ascii.

Definition lit (s : string) : str := list_ascii_of_string s.

(** The double quote, tab, line feed and carriage return characters. *)
Definition dq : ascii := "034"%char.
Definition tab : ascii := "009"%char.
Definition lf : ascii := "010"%char.
Definition cr : ascii := "013"%char.

Definition is_ascii (c : ascii) : bool := nat_of_ascii c <? 128.

Definition str_eqb (a b : str) : bool :=
  if list_eq_dec ascii_dec a b then true else false.

(** Python's [content[a:b]] for indices [0 <= a], [0 <= b]. *)
Definition slice (content : str) (a b : nat) : str :=
  firstn (b - a) (skipn a content).

(** [s.startswith(p)] *)
Fixpoint starts_with (p s : str) : bool :=
  match p, s with
  | [], _ => true
  | a :: p', b :: s' => Ascii.eqb a b && starts_with p' s'
  | _ :: _, [] => false
  end.

(** [needle in hay] *)
Fixpoint occurs (needle hay : str) : bool :=
  starts_with needle hay ||
  match hay with
  | [] => false
  | _ :: hay' => occurs needle hay'
  end.

(** ** Regular expressions

    The fragment of Python's [re] syntax the three patterns of the
    program are written in. *)

(** Members of a bracketed character set. *)
Inductive citem : Type :=
| COne (c : ascii)            (* a single character *)
| CRange (lo hi : ascii)      (* [lo-hi] *)
| CWord.                      (* \w *)

Inductive regex : Type :=
| Lit (s : str)                       (* a run of literal characters *)
| CSet (negated : bool) (items : list citem)   (* [...] and [^...] *)
| WordB                               (* \b *)
| Cat (r1 r2 : regex)
| Alt (r1 r2 : regex)                 (* r1|r2 *)
| Plus (r : regex)                    (* greedy r+ *)
| Group (n : nat) (r : regex).        (* the n-th capturing group *)

Definition in_range (lo hi c : ascii) : bool :=
  (nat_of_ascii lo <=? nat_of_ascii c) && (nat_of_ascii c <=? nat_of_ascii hi).

(** [\w] without the LOCALE and UNICODE flags: [[a-zA-Z0-9_]]. *)
Definition is_word (c : ascii) : bool :=
  in_range "a" "z" c || in_range "A" "Z" c || in_range "0" "9" c
  || Ascii.eqb c "_".

Definition citem_has (c : ascii) (i : citem) : bool :=
  match i with
  | COne x => Ascii.eqb x c
  | CRange lo hi => in_range lo hi c
  | CWord => is_word c
  end.

Definition cset_has (negated : bool) (items : list citem) (c : ascii) : bool :=
  xorb negated (existsb (citem_has c) items).

(** The state of the matcher: the text before the cursor (nearest
    character first), the text from the cursor on, and the text captured
    by each group so far (latest capture first). *)
Record mstate : Type := MState {
  before : str;
  after : str;
  caps : list (nat * str)
}.

Definition advance (w : str) (rest : str) (st : mstate) : mstate :=
  MState (rev w ++ before st) rest (caps st).

(** [\b]: exactly one of the characters around the cursor is a word
    character (a missing character counts as a non-word one). *)
Definition at_boundary (st : mstate) : bool :=
  xorb (match before st with c :: _ => is_word c | [] => false end)
       (match after st with c :: _ => is_word c | [] => false end).

Fixpoint strip_prefix (p s : str) : option str :=
  match p, s with
  | [], _ => Some s
  | a :: p', b :: s' => if Ascii.eqb a b then strip_prefix p' s' else None
  | _ :: _, [] => None
  end.

(** The text consumed between an earlier state [st] and a later one
    [st']. *)
Definition consumed (st st' : mstate) : str :=
  firstn (length (after st) - length (after st')) (after st).

Definition set_cap (n : nat) (st st' : mstate) : mstate :=
  MState (before st') (after st') ((n, consumed st st') :: caps st').

(** One round of a greedy repetition: every way of matching the body,
    each followed first by the longer matches (more rounds) and then by
    stopping here.  A round that consumed nothing is not repeated.
    [rounds] bounds the number of rounds left; a round consumes a
    character, so the length of the remaining text plus one is enough
    ([plus_loop_enough_rounds]). *)
Fixpoint plus_loop (body : mstate -> list mstate) (rounds : nat)
    (st : mstate) : list mstate :=
  match rounds with
  | 0 => []
  | S n =>
      flat_map
        (fun st' =>
           (if length (after st') <? length (after st)
            then plus_loop body n st' else [])
           ++ [st'])
        (body st)
  end.

(** The backtracking matcher, as the list of all the ways [r] matches
    at [st], in the order the backtracking search of [re] visits them:
    the head of the list is the match [re] reports. *)
Fixpoint bt (r : regex) (st : mstate) : list mstate :=
  match r with
  | Lit s =>
      match strip_prefix s (after st) with
      | Some rest => [advance s rest st]
      | None => []
      end
  | CSet negated items =>
      match after st with
      | c :: rest =>
          if cset_has negated items c then [advance [c] rest st] else []
      | [] => []
      end
  | WordB => if at_boundary st then [st] else []
  | Cat r1 r2 => flat_map (bt r2) (bt r1 st)
  | Alt r1 r2 => bt r1 st ++ bt r2 st
  | Plus r' => plus_loop (bt r') (S (length (after st))) st
  | Group n r' => map (set_cap n st) (bt r' st)
  end.

(** ** Match objects *)

Record Match : Type := MkMatch {
  m_start : nat;                 (* match.start(0) *)
  m_end : nat;                   (* match.end(0) *)
  m_text : str;                  (* match.group(0) *)
  m_caps : list (nat * str)      (* the groups that took part *)
}.

Fixpoint assoc (n : nat) (l : list (nat * str)) : option str :=
  match l with
  | [] => None
  | (k, v) :: l' => if Nat.eqb k n then Some v else assoc n l'
  end.

(** [match.group(n)]; [None] for a group that took no part. *)
Definition group (m : Match) (n : nat) : option str :=
  match n with
  | 0 => Some (m_text m)
  | _ => assoc n (m_caps m)
  end.

(** [pattern.match] at the cursor of [(bef, aft)]. *)
Definition match_at (r : regex) (bef aft : str) : option Match :=
  match bt r (MState bef aft []) with
  | [] => None
  | st' :: _ =>
      Some (MkMatch (length bef) (length (before st'))
                    (consumed (MState bef aft []) st') (caps st'))
  end.

(** [pattern.search] from the cursor on: the match at the first
    position that has one. *)
Fixpoint search (r : regex) (bef aft : str) : option Match :=
  match match_at r bef aft with
  | Some m => Some m
  | None =>
      match aft with
      | [] => None
      | c :: aft' => search r (c :: bef) aft'
      end
  end.

(** [pattern.finditer(content)]: after a match the search resumes at
    its end, one character further when the match was empty (the
    scanner of [_sre]).  [fuel] bounds the number of matches; every
    match moves the position forward, so the length of the content plus
    one is enough ([finditer_from_enough_fuel]). *)
Fixpoint finditer_from (r : regex) (fuel : nat) (content : str) (pos : nat)
    : list Match :=
  match fuel with
  | 0 => []
  | S fuel' =>
      match search r (rev (firstn pos content)) (skipn pos content) with
      | None => []
      | Some m =>
          m :: (if m_end m =? m_start m
                then if m_end m <? length content
                     then finditer_from r fuel' content (S (m_end m))
                     else []
                else finditer_from r fuel' content (m_end m))
      end
  end.

Definition finditer (r : regex) (content : str) : list Match :=
  finditer_from r (S (length content)) content 0.

(** ** The three patterns *)

Definition upper_or_digit : regex := CSet false [CRange "A" "Z"; CRange "0" "9"].
Definition word_char : regex := CSet false [CWord].

(** [_VALID_WIKINAME = re.compile(r'([A-Z0-9])\w+(([A-Z0-9])\w+)+')] *)
Definition _VALID_WIKINAME : regex :=
  Cat (Group 1 upper_or_digit)
      (Cat (Plus word_char)
           (Plus (Group 2 (Cat (Group 3 upper_or_digit) (Plus word_char))))).

Definition url_stop : list citem :=
  [COne " "; COne tab; COne lf; COne cr; COne "<"; COne ">"; COne "(";
   COne ")"; COne "&"; COne dq].

(** The pattern of [AutoLink.__init__], writing DQ for the double quote:
    [([^DQ])\b((http|https)://[^ \t\n\r<>\(\)&DQ]+[^ \t\n\r<>\(\)&DQ\.])] *)
Definition AutoLink_regexp : regex :=
  Cat (Group 1 (CSet true [COne dq]))
      (Cat WordB
           (Group 2
              (Cat (Group 3 (Alt (Lit (lit "http")) (Lit (lit "https"))))
                   (Cat (Lit (lit "://"))
                        (Cat (Plus (CSet true url_stop))
                             (CSet true (url_stop ++ [COne "."]))))))).

(** The pattern of [HideReferers.__init__], writing DQ for the double
    quote: [href=DQ(http[^DQ]+)DQ] *)
Definition HideReferers_regexp : regex :=
  Cat (Lit (lit "href=" ++ [dq]))
      (Cat (Group 1 (Cat (Lit (lit "http")) (Plus (CSet true [COne dq]))))
           (Lit [dq])).

(** ** Transform

    A transform is a pattern with a replacement function.  [replace]
    runs arbitrary code (the WikiWords transform reads the datastore and
    writes the cache), so it takes and returns the state [W] of the
    world. *)

Section Transforms.

Variable W : Type.

Record Transform : Type := MkTransform {
  regexp : regex;
  replace : Match -> W -> str * W
}.

(** The body of the loop of [Transform.run]: [parts] grows by the text
    between [offset] and the match and by the replacement, [offset]
    moves to the end of the match. *)
Definition run_step (t : Transform) (content : str)
    (acc : list str * nat * W) (m : Match) : list str * nat * W :=
  let '(parts, offset, w) := acc in
  let (rep, w') := replace t m w in
  ((parts ++ [slice content offset (m_start m)]) ++ [rep], m_end m, w').

(** [Transform.run] *)
Definition run (t : Transform) (content : str) (w : W) : str * W :=
  let '(parts, offset, w') :=
    fold_left (run_step t content) (finditer (regexp t) content) ([], 0, w) in
  (concat (parts ++ [skipn offset content]), w').

(** The rewriting the specification describes, as a relation between
    the text before the cursor, the text from the cursor on, the state
    of the world, and the output and final state: the text is split at
    the leftmost position that has a match into the gap before the
    match, the matched text and the rest; the gap is emitted unchanged,
    then the replacement, and the scan goes on behind the match.  An
    empty match lets the scan go on one character further. *)
Inductive rewrites (t : Transform) : str -> str -> W -> str -> W -> Prop :=
| rw_tail bef aft w :
    (forall p s, aft = p ++ s -> match_at (regexp t) (rev p ++ bef) s = None) ->
    rewrites t bef aft w aft w
| rw_match bef gap m rest w rep w1 out w2 :
    (forall p s, gap = p ++ s -> s <> [] ->
       match_at (regexp t) (rev p ++ bef) (s ++ m_text m ++ rest) = None) ->
    match_at (regexp t) (rev gap ++ bef) (m_text m ++ rest) = Some m ->
    m_text m <> [] ->
    replace t m w = (rep, w1) ->
    rewrites t (rev (m_text m) ++ rev gap ++ bef) rest w1 out w2 ->
    rewrites t bef (gap ++ m_text m ++ rest) w (gap ++ rep ++ out) w2
| rw_empty_end bef gap m w rep w1 :
    (forall p s, gap = p ++ s -> s <> [] ->
       match_at (regexp t) (rev p ++ bef) s = None) ->
    match_at (regexp t) (rev gap ++ bef) [] = Some m ->
    replace t m w = (rep, w1) ->
    rewrites t bef gap w (gap ++ rep) w1
| rw_empty bef gap m c rest w rep w1 out w2 :
    (forall p s, gap = p ++ s -> s <> [] ->
       match_at (regexp t) (rev p ++ bef) (s ++ c :: rest) = None) ->
    match_at (regexp t) (rev gap ++ bef) (c :: rest) = Some m ->
    m_text m = [] ->
    replace t m w = (rep, w1) ->
    rewrites t (c :: rev gap ++ bef) rest w1 out w2 ->
    rewrites t bef (gap ++ c :: rest) w (gap ++ rep ++ c :: out) w2.

End Transforms.

(** ** The world: datastore, cache, current user and clock *)

(** [users.User], of which the program reads the nickname. *)
Record User : Type := MkUser { nickname : str }.

Inductive Kind : Type := KPage | KPageHistory.

Definition Kind_eqb (a b : Kind) : bool :=
  match a, b with
  | KPage, KPage | KPageHistory, KPageHistory => true
  | _, _ => false
  end.

(** [datastore.Entity]: a kind, a key once it has been put, and the
    properties the program stores.  [name], [created] and [content] are
    set on every entity the program creates; the other properties may be
    missing, which is [None]. *)
Record Entity : Type := MkEntity {
  e_kind : Kind;
  e_key : option nat;
  e_name : str;
  e_created : nat;
  e_content : str;
  e_modified : option nat;
  e_user : option User;
  e_remote_addr : option str;
  e_comment : option str
}.

(** What the services refuse.  The datastore takes a plain string
    property up to a length of its own ([_MAX_STRING_LENGTH] of
    [datastore_types]: 500 characters in the SDK of the program's time,
    1500 bytes of the encoded string in later ones) and raises
    [BadValueError] beyond it.  The cache pickles a value and raises
    [ValueError] for more than [MAX_VALUE_SIZE] bytes; the size of the
    pickled entity is the pickler's matter. *)
Record Limits : Type := MkLimits {
  max_string_length : nat;
  string_size : str -> nat;
  pickled_size : Entity -> N
}.

(** [memcache.MAX_VALUE_SIZE] *)
Definition MAX_VALUE_SIZE : N := 1000000.

(** The cache holds entities under the [page_] keys and rendered text
    under the [content_] keys; the two key spaces are two maps here. *)
Record World : Type := MkWorld {
  datastore : list Entity;          (* in the order of the keys *)
  next_id : nat;                    (* the next key the datastore allocates *)
  page_cache : list (str * Entity);
  content_cache : list (str * str);
  current_user : option User;       (* users.GetCurrentUser() *)
  clock : nat;                      (* datetime.datetime.now() *)
  limits : Limits
}.

Inductive Exn : Type :=
| AttributeError (what : string)
| BadKeyError
| BadValueError
| ValueError.

(** The outcome of code that reads and writes the world and may raise;
    what was written before an exception stays written.  A service can
    also refuse a call for reasons of its own (a quota, the size of a
    request, a deadline); these are not in the world, and what is
    proved of an edit or of a load after it is proved of the calls that
    return. *)
Inductive Result (A : Type) : Type :=
| Ok (a : A) (w : World)
| Raise (e : Exn) (w : World).
Arguments Ok {A} a w.
Arguments Raise {A} e w.

Definition M (A : Type) : Type := World -> Result A.

Definition ret {A} (a : A) : M A := fun w => Ok a w.
Definition raise {A} (e : Exn) : M A := fun w => Raise e w.
Definition bind {A B} (c : M A) (f : A -> M B) : M B :=
  fun w => match c w with
           | Ok a w' => f a w'
           | Raise e w' => Raise e w'
           end.
(** Code that cannot raise, run inside code that can. *)
Definition lift {A} (c : World -> A * World) : M A :=
  fun w => let (a, w') := c w in Ok a w'.

Declare Scope wiki_scope.
Notation "x <- c ;; k" := (bind c (fun x => k))
  (at level 61, c at next level, right associativity) : wiki_scope.
Notation "c ;;; k" := (bind c (fun _ => k))
  (at level 61, right associativity) : wiki_scope.
Local Open Scope wiki_scope.

(** [datetime.datetime.now()]: time only moves forward. *)
Definition now (w : World) : nat * World :=
  (clock w,
   MkWorld (datastore w) (next_id w) (page_cache w) (content_cache w)
           (current_user w) (S (clock w)) (limits w)).

Fixpoint cache_get {V : Type} (k : str) (c : list (str * V)) : option V :=
  match c with
  | [] => None
  | (k', v) :: c' => if str_eqb k' k then Some v else cache_get k c'
  end.

Definition cache_delete {V : Type} (k : str) (c : list (str * V))
    : list (str * V) :=
  filter (fun kv => negb (str_eqb (fst kv) k)) c.

Definition cache_set {V : Type} (k : str) (v : V) (c : list (str * V))
    : list (str * V) :=
  (k, v) :: cache_delete k c.

Definition memcache_set_page (k : str) (e : Entity) (w : World) : World :=
  MkWorld (datastore w) (next_id w) (cache_set k e (page_cache w))
          (content_cache w) (current_user w) (clock w) (limits w).

Definition memcache_delete (k_page k_content : str) (w : World) : World :=
  MkWorld (datastore w) (next_id w) (cache_delete k_page (page_cache w))
          (cache_delete k_content (content_cache w)) (current_user w)
          (clock w) (limits w).

Definition with_key (k : nat) (e : Entity) : Entity :=
  MkEntity (e_kind e) (Some k) (e_name e) (e_created e) (e_content e)
           (e_modified e) (e_user e) (e_remote_addr e) (e_comment e).

Definition has_key (k : nat) (e : Entity) : bool :=
  match e_key e with
  | Some k' => Nat.eqb k' k
  | None => false
  end.

Fixpoint overwrite (k : nat) (e : Entity) (l : list Entity) : list Entity :=
  match l with
  | [] => [e]
  | x :: l' => if has_key k x then e :: l' else x :: overwrite k e l'
  end.

(** [datastore.Put(entity)]: an entity without a key gets the next one
    and is added; an entity with a key takes the place of the stored
    entity that has this key.  The entity is returned as stored. *)
Definition Put (e : Entity) (w : World) : Entity * World :=
  match e_key e with
  | None =>
      let e' := with_key (next_id w) e in
      (e', MkWorld (datastore w ++ [e']) (S (next_id w)) (page_cache w)
                   (content_cache w) (current_user w) (clock w) (limits w))
  | Some k =>
      (e, MkWorld (overwrite k e (datastore w)) (next_id w) (page_cache w)
                  (content_cache w) (current_user w) (clock w) (limits w))
  end.

(** [datastore.Query(kind)] with equality filters, before [Get]. *)
Definition Query (kind : Kind) (flt : Entity -> bool) (w : World)
    : list Entity :=
  filter (fun e => Kind_eqb (e_kind e) kind && flt e) (datastore w).

(** ** Page *)

Record Page : Type := MkPage {
  name : str;
  entity : option Entity;
  content : str;
  user : option User;
  created : nat;
  modified : nat;
  remote_addr : option str;     (* set by the request handler only *)
  comment : option str          (* set by the request handler only *)
}.

(** [cgi.escape(s)] (without [quote]) *)
Definition cgi_escape (s : str) : str :=
  flat_map (fun c =>
    if Ascii.eqb c "&" then lit "&amp;"
    else if Ascii.eqb c "<" then lit "&lt;"
    else if Ascii.eqb c ">" then lit "&gt;"
    else [c]) s.

(** [Page.__init__].  An entity is a dictionary of its properties and
    every stored entity has some, so [if entity] holds exactly when an
    entity is given. *)
Definition Page_init (nm : str) (ent : option Entity) (w : World)
    : Page * World :=
  match ent with
  | Some e =>
      (MkPage nm (Some e) (e_content e) (e_user e) (e_created e)
              (match e_modified e with
               | Some t => t
               | None => e_created e
               end)
              None None, w)
  | None =>
      let (t, w') := now w in
      (MkPage nm None (lit "<h1>" ++ cgi_escape nm ++ lit "</h1>") None t t
              None None, w')
  end.

Definition history_url (p : Page) : str := lit "/" ++ name p ++ lit "?mode=history".
Definition edit_url (p : Page) : str := lit "/" ++ name p ++ lit "?mode=edit".
Definition view_url (p : Page) : str := lit "/" ++ name p.

(** [name.replace('_', '')] *)
Definition strip_underscores (s : str) : str :=
  filter (fun c => negb (Ascii.eqb c "_")) s.

(** [Page.load], for the entities the cache takes; the refusal of
    [memcache.set] is in [Page_load_or_raise] below. *)
Definition Page_load (nm : str) (w : World) : Page * World :=
  match cache_get (lit "page_" ++ nm) (page_cache w) with
  | Some data => Page_init nm (Some data) w
  | None =>
      match Query KPage (fun e => str_eqb (e_name e) (strip_underscores nm)) w with
      | [] => Page_init nm None w
      | e :: _ =>
          Page_init nm (Some e) (memcache_set_page (lit "page_" ++ nm) e w)
      end
  end.

(** [Page.load] with the failure of [memcache.set]: an entity whose
    pickled form is over the limit of the cache is not stored and the
    call raises.  Where it returns it is [Page_load]
    ([Page_load_or_raise_Ok] below); the handlers call this one. *)
Definition Page_load_or_raise (nm : str) : M Page :=
  fun w =>
    match cache_get (lit "page_" ++ nm) (page_cache w) with
    | Some data => let (p, w') := Page_init nm (Some data) w in Ok p w'
    | None =>
        match Query KPage
                (fun e => str_eqb (e_name e) (strip_underscores nm)) w with
        | [] => let (p, w') := Page_init nm None w in Ok p w'
        | e :: _ =>
            if (MAX_VALUE_SIZE <? pickled_size (limits w) e)%N
            then Raise ValueError w
            else
              let (p, w') :=
                Page_init nm (Some e)
                          (memcache_set_page (lit "page_" ++ nm) e w) in
              Ok p w'
        end
    end.

(** [entity[property] = s] for a plain string [s]: the datastore checks
    the length when the property is set. *)
Definition too_long (s : str) (w : World) : bool :=
  max_string_length (limits w) <? string_size (limits w) s.

(** [Page.exists], as the truth value the caller tests. *)
Definition Page_exists (nm : str) (w : World) : bool * World :=
  let (p, w') := Page_load nm w in
  (match entity p with Some _ => true | None => false end, w').

(** [Page.save_to_history].  The name, the address and the comment are
    plain strings; the content is a [Text], which has no such limit. *)
Definition save_to_history (self : Page) : M unit :=
  fun w =>
    if too_long (name self) w then Raise BadValueError w
    else
      match remote_addr self with
      | None => Raise (AttributeError "remote_addr") w
      | Some addr =>
          if too_long addr w then Raise BadValueError w
          else
            match comment self with
            | None => Raise (AttributeError "comment") w
            | Some cmt =>
                if too_long cmt w then Raise BadValueError w
                else
                  let e := MkEntity KPageHistory None (name self)
                                    (modified self) (content self) None
                                    (current_user w) (Some addr) (Some cmt) in
                  Ok tt (snd (Put e w))
            end
      end.

(** [Page.save].  The entity of an existing page is the object
    [self.entity], which the assignments change in place; the page is
    returned as it is after the call.  A new entity gets the name of the
    page as a plain string.  When [save_to_history] raises, the page
    entity has been put already. *)
Definition save (self : Page) : M Page :=
  fun w =>
    let (t, w1) := now w in
    match
      match entity self with
      | Some e => Some e
      | None =>
          if too_long (name self) w1 then None
          else Some (MkEntity KPage None (name self) t [] None None None None)
      end
    with
    | None => Raise BadValueError w1
    | Some base =>
        let e := MkEntity (e_kind base) (e_key base) (e_name base)
                          (e_created base) (content self) (Some t)
                          (current_user w1) (e_remote_addr base)
                          (e_comment base) in
        let (e', w2) := Put e w1 in
        let w3 := memcache_delete (lit "page_" ++ name self)
                                  (lit "content_" ++ name self) w2 in
        let self' :=
          match entity self with
          | Some _ => MkPage (name self) (Some e') (content self) (user self)
                             (created self) (modified self) (remote_addr self)
                             (comment self)
          | None => self
          end in
        match save_to_history self w3 with
        | Ok _ w4 => Ok self' w4
        | Raise x w4 => Raise x w4
        end
    end.

(** Descending order of [created] for [query.Order]; entities with the
    same time stay in the order of their keys. *)
Fixpoint insert_desc (e : Entity) (l : list Entity) : list Entity :=
  match l with
  | [] => [e]
  | x :: l' =>
      if e_created x <=? e_created e then e :: l else x :: insert_desc e l'
  end.

Definition order_desc (l : list Entity) : list Entity :=
  fold_right insert_desc [] l.

(** [Page.fetch_history] *)
Definition fetch_history (self : Page) (w : World) : list Entity :=
  firstn 1000
    (order_desc (Query KPageHistory (fun e => str_eqb (e_name e) (name self)) w)).

(** ** History and diff

    The key decoder of the datastore, the date formatting and the HTML
    table of [difflib] are library code; they are parameters here. *)

Section History.

(** [datastore_types.Key(encoded)]: [None] when the string is no
    encoded key, for which the constructor raises [BadKeyError]. *)
Variable Key_decode : str -> option nat.
(** [t.strftime(...)] at the format of the captions. *)
Variable strftime : nat -> str.
(** [difflib.HtmlDiff().make_table(a, b, fromdesc, todesc, context=True)] *)
Variable make_table : list str -> list str -> str -> str -> str.

(** The characters that end a line of a [unicode] text on their own,
    among the code points below 256: line feed, the file, group and
    record separators and the next-line character (Python 2.5, the
    runtime of the program's time; Python 2.7 adds the vertical tab and
    the form feed). *)
Definition line_end (c : ascii) : bool :=
  Ascii.eqb c lf || Ascii.eqb c "028" || Ascii.eqb c "029"
  || Ascii.eqb c "030" || Ascii.eqb c "133".

(** [s.splitlines(1)] of a [unicode] text, as the content of a page is:
    the lines of [s] with their line ends, which are the characters of
    [line_end], carriage return, or carriage return and line feed in a
    row.  [cur] is the line read so far, last character first. *)
Fixpoint splitlines_from (cur : str) (s : str) : list str :=
  match s with
  | [] => match cur with [] => [] | _ => [rev cur] end
  | c :: s' =>
      if line_end c then rev (c :: cur) :: splitlines_from [] s'
      else if Ascii.eqb c cr then
        match s' with
        | c' :: s'' =>
            if Ascii.eqb c' lf
            then rev (c' :: c :: cur) :: splitlines_from [] s''
            else rev (c :: cur) :: splitlines_from [] s'
        | [] => [rev (c :: cur)]
        end
      else splitlines_from (c :: cur) s'
  end.

Definition splitlines (s : str) : list str := splitlines_from [] s.

(** [Page.load_from_history] *)
Definition load_from_history (nm key : str) : M (option Page) :=
  match Key_decode key with
  | None => raise BadKeyError
  | Some k =>
      fun w =>
        match Query KPageHistory
                (fun e => str_eqb (e_name e) nm && has_key k e) w with
        | [] => Ok None w
        | e :: _ => let (p, w') := Page_init nm (Some e) w in Ok (Some p) w'
        end
  end.

(** [page.user.nickname()], an attribute error on [None]. *)
Definition user_nickname (p : Page) : M str :=
  match user p with
  | Some u => ret (nickname u)
  | None => raise (AttributeError "nickname")
  end.

(** ["Edited on %s by %s" % (...)] *)
Definition describe (p : Page) : M str :=
  nick <- user_nickname p ;;
  ret (lit "Edited on " ++ strftime (created p) ++ lit " by " ++ nick).

(** [Page.diff_history] *)
Definition diff_history (self : Page) (v1 v2 : str) : M (option str) :=
  page_v1 <- load_from_history (name self) v1 ;;
  page_v2 <- load_from_history (name self) v2 ;;
  match page_v1, page_v2 with
  | Some p1, Some p2 =>
      v1_desc <- describe p1 ;;
      v2_desc <- describe p2 ;;
      ret (Some (make_table (splitlines (content p1)) (splitlines (content p2))
                            v1_desc v2_desc))
  | _, _ => ret None
  end.

End History.

(** ** The request handler for edits *)

Record Request : Type := MkRequest {
  req_content : str;
  req_remote_addr : str;
  req_comment : str
}.

Inductive Redirect : Type :=
| ToUrl (url : str)
| ToLogin.

Definition with_request (p : Page) (rq : Request) : Page :=
  MkPage (name p) (entity p) (req_content rq) (user p) (created p)
         (modified p) (Some (req_remote_addr rq)) (Some (req_comment rq)).

(** [WikiPage.post]; the result is the redirects the handler issued.
    The handler goes on after the redirect for an invalid name. *)
Definition post (page_name : str) (rq : Request) : M (list Redirect) :=
  fun w =>
    let r1 := match match_at _VALID_WIKINAME [] page_name with
              | Some _ => []
              | None => [ToUrl (lit "/")]
              end in
    match current_user w with
    | None => Ok (r1 ++ [ToLogin]) w
    | Some _ =>
        match Page_load_or_raise page_name w with
        | Raise x w1 => Raise x w1
        | Ok page w1 =>
            match save (with_request page rq) w1 with
            | Ok page' w2 => Ok (r1 ++ [ToUrl (view_url page')]) w2
            | Raise x w2 => Raise x w2
            end
        end
    end.

(** ** The three transforms *)

(** A text between double quotes. *)
Definition quoted (s : str) : str := [dq] ++ s ++ [dq].

(** [WikiWords.replace] *)
Definition WikiWords_replace (m : Match) (w : World) : str * World :=
  let wikiword := m_text m in
  let (found, w') := Page_exists wikiword w in
  if found
  then (lit "<a class=" ++ quoted (lit "wikiword") ++ lit " href="
          ++ quoted (lit "/" ++ wikiword) ++ lit ">" ++ wikiword ++ lit "</a>",
        w')
  else (lit "<a title="
          ++ quoted (wikiword ++ lit " does not exist yet. Click to create it.")
          ++ lit " class=" ++ quoted (lit "wikiword_new") ++ lit " href="
          ++ quoted (lit "/" ++ wikiword ++ lit "?mode=edit") ++ lit ">"
          ++ wikiword ++ lit "?</a>",
        w').

Definition WikiWords : Transform World :=
  MkTransform _VALID_WIKINAME WikiWords_replace.

(** [AutoLink.replace].  Groups 1 and 2 take part in every match of the
    pattern ([AutoLink_groups] below), so the last branch is never
    taken. *)
Definition AutoLink_replace (m : Match) : str :=
  match group m 2, group m 1 with
  | Some url, Some pre =>
      pre ++ lit "<a class=" ++ quoted (lit "autourl") ++ lit " href="
          ++ quoted url ++ lit ">" ++ url ++ lit "</a>"
  | _, _ => []
  end.

Definition AutoLink : Transform World :=
  MkTransform AutoLink_regexp (fun m w => (AutoLink_replace m, w)).

Definition hex_digit (n : nat) : ascii :=
  nth n (lit "0123456789ABCDEF") "0"%char.

(** The characters [urllib.quote] keeps: letters, digits, [_.-], and
    the default [safe] character [/]. *)
Definition quote_safe (c : ascii) : bool :=
  in_range "A" "Z" c || in_range "a" "z" c || in_range "0" "9" c
  || Ascii.eqb c "_" || Ascii.eqb c "." || Ascii.eqb c "-" || Ascii.eqb c "/".

(** [urllib.quote(s)] of a byte string [s]: every character has an
    entry in the table of the library. *)
Definition quote (s : str) : str :=
  flat_map (fun c =>
    if quote_safe c then [c]
    else ["%"%char; hex_digit (nat_of_ascii c / 16);
          hex_digit (nat_of_ascii c mod 16)]) s.


(** The address the external links are sent through. *)
Definition indirection : str := lit "http://www.google.com/url?sa=D&amp;q=".

(** [HideReferers.replace]; the result of [urlparse.urlparse] is not
    used.  Group 1 takes part in every match of the pattern
    ([HideReferers_match] below), so the last branch is never taken.
    The URL is encoded with [quote]: this is the replacement whenever
    [urllib.quote] returns, that is for every URL of ASCII characters
    ([quote_unicode]); on another URL of a [unicode] content the source
    raises [KeyError], which the transforms here, whose replacements
    are total, leave out.  What is proved of a run of [HideReferers]
    is about the runs of the source in which [urllib.quote] returns. *)
Definition HideReferers_replace (m : Match) : str :=
  match group m 1 with
  | Some url => lit "href=" ++ quoted (indirection ++ quote url)
  | None => []
  end.

Definition HideReferers : Transform World :=
  MkTransform HideReferers_regexp (fun m w => (HideReferers_replace m, w)).

(** [Page.wikified_content] *)
Definition wikified_content (self : Page) (w : World) : str * World :=
  match cache_get (lit "content_" ++ name self) (content_cache w) with
  | Some data => (data, w)
  | None =>
      fold_left (fun (acc : str * World) (t : Transform World) =>
                   let (c, w') := acc in run t c w')
                [AutoLink; WikiWords; HideReferers] (content self, w)
  end.

(** ** Vocabulary of the properties *)

(** [st'] is [st] with the cursor moved over [w]. *)
Definition moved (w : str) (st st' : mstate) : Prop :=
  after st = w ++ after st' /\ before st' = rev w ++ before st.

(** The ways a greedy repetition matches are chains of matches of its
    body. *)
Inductive chain (body : mstate -> list mstate) : mstate -> mstate -> Prop :=
| chain_one st st' : In st' (body st) -> chain body st st'
| chain_more st st1 st' :
    In st1 (body st) -> chain body st1 st' -> chain body st st'.

(** ** What a pattern can match

    [derives r w]: the text [w] belongs to the language of [r], word
    boundaries left aside.  Every match the backtracking matcher finds
    moves the cursor over such a text. *)

Inductive derives : regex -> str -> Prop :=
| d_lit s : derives (Lit s) s
| d_set neg items c :
    cset_has neg items c = true -> derives (CSet neg items) [c]
| d_wordb : derives WordB []
| d_cat r1 r2 w1 w2 :
    derives r1 w1 -> derives r2 w2 -> derives (Cat r1 r2) (w1 ++ w2)
| d_alt_l r1 r2 w : derives r1 w -> derives (Alt r1 r2) w
| d_alt_r r1 r2 w : derives r2 w -> derives (Alt r1 r2) w
| d_plus_one r w : derives r w -> derives (Plus r) w
| d_plus_more r w1 w2 :
    derives r w1 -> derives (Plus r) w2 -> derives (Plus r) (w1 ++ w2)
| d_group n r w : derives r w -> derives (Group n r) w.

(** The history entries a version identifier with the key [k] resolves
    to for the page name [nm]: the result of the query of
    [load_from_history]. *)
Definition stored (nm : str) (k : nat) (w : World) : list Entity :=
  Query KPageHistory (fun e => str_eqb (e_name e) nm && has_key k e) w.

(** The least number of characters a pattern matches. *)
Fixpoint min_len (r : regex) : nat :=
  match r with
  | Lit s => length s
  | CSet _ _ => 1
  | WordB => 0
  | Cat r1 r2 => min_len r1 + min_len r2
  | Alt r1 r2 => Nat.min (min_len r1) (min_len r2)
  | Plus r' => min_len r'
  | Group _ r' => min_len r'
  end.

(** [within P r]: every character [r] can match satisfies [P]. *)
Fixpoint within (P : ascii -> bool) (r : regex) : Prop :=
  match r with
  | Lit s => forallb P s = true
  | CSet neg items => forall c, cset_has neg items c = true -> P c = true
  | WordB => True
  | Cat r1 r2 | Alt r1 r2 => within P r1 /\ within P r2
  | Plus r' | Group _ r' => within P r'
  end.


(** ** Worlds and library stand-ins for the examples *)

Definition alice : User := MkUser (lit "alice").

(** Limits for the examples: plain strings up to 500 characters, and
    the content of an entity for the size of its pickled form. *)
Definition example_limits : Limits :=
  MkLimits 500 (@length ascii) (fun e => N.of_nat (length (e_content e))).

(** A datastore with the page FooBar, saved once by alice. *)
Definition world_FooBar : World :=
  MkWorld
    [MkEntity KPage (Some 1) (lit "FooBar") 10 (lit "first text") (Some 10)
              (Some alice) None None;
     MkEntity KPageHistory (Some 2) (lit "FooBar") 9 (lit "first text") None
              (Some alice) (Some (lit "10.0.0.1")) (Some (lit "created"))]
    3 [] [] (Some alice) 20 example_limits.


(** Stand-ins for the library functions of the history: keys written as
    decimal numbers, times as tally marks, and a table that shows just
    its two captions. *)
Fixpoint digits_value (acc : nat) (s : str) : option nat :=
  match s with
  | [] => Some acc
  | c :: s' =>
      if in_range "0" "9" c
      then digits_value (10 * acc + (nat_of_ascii c - 48)) s'
      else None
  end.

Definition decimal_key (s : str) : option nat :=
  match s with
  | [] => None
  | _ => digits_value 0 s
  end.

Definition tally (t : nat) : str := repeat "|"%char t.

Definition captions (a b : list str) (fromdesc todesc : str) : str :=
  fromdesc ++ lit " / " ++ todesc.

(** A datastore with the page FooBar and two entries of its history,
    the first saved by alice and the second saved by nobody. *)
Definition world_anonymous : World :=
  MkWorld
    [MkEntity KPage (Some 1) (lit "FooBar") 3 (lit "second text") (Some 5)
              None None None;
     MkEntity KPageHistory (Some 2) (lit "FooBar") 3 (lit "first text") None
              (Some alice) (Some (lit "10.0.0.1")) (Some (lit "created"));
     MkEntity KPageHistory (Some 3) (lit "FooBar") 4 (lit "second text") None
              None (Some (lit "10.0.0.2")) (Some (lit "edited"))]
    4 [] [] None 20 example_limits.

(** The page object [Page.load] gives for FooBar in that world. *)
Definition page_FooBar : Page := fst (Page_load (lit "FooBar") world_anonymous).

(** An edit of the page addressed as Foo_Bar. *)
Definition edit_request : Request :=
  MkRequest (lit "second text") (lit "10.0.0.2") (lit "edited").

(** ** Further vocabulary *)

From Stdlib Require Import Sorted Permutation.

(** The WikiWords transform with every lookup answered from the one
    world [w0], whatever the lookups before it did to the cache. *)
Definition WikiWords_at (w0 : World) : Transform World :=
  MkTransform _VALID_WIKINAME (fun m w => (fst (WikiWords_replace m w0), w)).

(** A transform that puts every match back as it was. *)
Definition echo (W : Type) (r : regex) : Transform W :=
  MkTransform r (fun m w => (m_text m, w)).

(** What rendering and reading leave alone: the stored entities, the
    next key, the cache of rendered text and the current user. *)
Definition same_store (w w' : World) : Prop :=
  datastore w' = datastore w /\ next_id w' = next_id w /\
  content_cache w' = content_cache w /\ current_user w' = current_user w.

(** [c in 'A'..'Z'] or [c in '0'..'9'] *)
Definition upper_or_digit_char (c : ascii) : bool :=
  in_range "A" "Z" c || in_range "0" "9" c.

(** No end of [gap] that has a character, followed by [rest], begins
    with [needle]; [starts_nowhere_b] decides it. *)
Definition starts_nowhere (needle gap rest : str) : Prop :=
  forall p s, gap = p ++ s -> s <> [] -> starts_with needle (s ++ rest) = false.

Fixpoint starts_nowhere_b (needle gap rest : str) : bool :=
  match gap with
  | [] => true
  | _ :: gap' =>
      negb (starts_with needle (gap ++ rest))
      && starts_nowhere_b needle gap' rest
  end.

(** The begin of every match of the HideReferers pattern. *)
Definition href_http : str := lit "href=" ++ [dq] ++ lit "http".

(** The entities of one kind, in the order of their keys. *)
Definition of_kind (k : Kind) (w : World) : list Entity :=
  Query k (fun _ => true) w.

(** A world as the datastore and the program keep it: every stored
    entity has a key below the next one, no key is used twice, and the
    cache of pages holds Page entities whose key is that of a stored
    Page entity. *)
Definition wf_world (w : World) : Prop :=
  (forall e, In e (datastore w) ->
             exists k, e_key e = Some k /\ k < next_id w) /\
  NoDup (map e_key (datastore w)) /\
  (forall ck e, In (ck, e) (page_cache w) ->
                e_kind e = KPage /\
                exists k e0, e_key e = Some k /\ In e0 (datastore w) /\
                             e_key e0 = Some k /\ e_kind e0 = KPage).

(** The cache has nothing for the page name, or the entity the
    datastore would give. *)
Definition cache_current (nm : str) (w : World) : Prop :=
  match cache_get (lit "page_" ++ nm) (page_cache w) with
  | None => True
  | Some e =>
      exists l,
        Query KPage (fun e0 => str_eqb (e_name e0) (strip_underscores nm)) w
        = e :: l
  end.

(** The world a call leaves behind, whether it returned or raised. *)
Definition world_of {A : Type} (r : Result A) : World :=
  match r with
  | Ok _ w => w
  | Raise _ w => w
  end.

(** The world after the edit [edit_request], posted to FooBar by
    alice. *)
Definition world_edited : World :=
  world_of (post (lit "FooBar") edit_request world_FooBar).

(** Every entity of [ds] has a key below [n], and no key twice. *)
Definition keys_ok (ds : list Entity) (n : nat) : Prop :=
  (forall e, In e ds -> exists k, e_key e = Some k /\ k < n) /\
  NoDup (map e_key ds).

(** The entity [save] puts for a page that has none yet, and for a page
    with the entity [e]. *)
Definition new_page_entity (self : Page) (w : World) : Entity :=
  MkEntity KPage (Some (next_id w)) (name self) (clock w) (content self)
           (Some (clock w)) (current_user w) None None.

Definition edited_entity (self : Page) (e : Entity) (w : World) : Entity :=
  MkEntity (e_kind e) (e_key e) (e_name e) (e_created e) (content self)
           (Some (clock w)) (current_user w) (e_remote_addr e) (e_comment e).

(** The entity [save] hands to [datastore.Put], and the world once it
    is put and the cache keys of the page are deleted: the world
    [save_to_history] starts in. *)
Definition put_entity (self : Page) (w : World) : Entity :=
  match entity self with
  | Some e =>
      MkEntity (e_kind e) (e_key e) (e_name e) (e_created e) (content self)
               (Some (clock w)) (current_user w) (e_remote_addr e)
               (e_comment e)
  | None =>
      MkEntity KPage None (name self) (clock w) (content self)
               (Some (clock w)) (current_user w) None None
  end.

Definition page_put (self : Page) (w : World) : World :=
  memcache_delete (lit "page_" ++ name self) (lit "content_" ++ name self)
                  (snd (Put (put_entity self w) (snd (now w)))).

(** The history entry [save_to_history] puts under the key [k]. *)
Definition history_entry (self : Page) (k : nat) (w : World) : Entity :=
  MkEntity KPageHistory (Some k) (name self) (modified self) (content self)
           None (current_user w) (remote_addr self) (comment self).

(** The history entry an edit of the user [u] puts under the key [k]. *)
Definition posted_entry (nm : str) (rq : Request) (w : World) (u : User)
    (k : nat) : Entity :=
  MkEntity KPageHistory (Some k) nm (modified (fst (Page_load nm w)))
           (req_content rq) None (Some u) (Some (req_remote_addr rq))
           (Some (req_comment rq)).

(** A text without vertical tab and form feed: the two characters that
    Python 2.7 takes for line ends of a [unicode] text and the versions
    before it do not. *)
Definition no_vt_ff (s : str) : bool :=
  forallb (fun c => negb (Ascii.eqb c "011" || Ascii.eqb c "012")) s.

(** The order [query.Order(('created', DESCENDING))] asks for. *)
Definition newer_first (a b : Entity) : Prop := e_created b <= e_created a.

(** ** The request handler for reads *)

(** [old] is not empty in [s.replace(old, new)] here; [skip] counts the
    characters of a replaced occurrence still to pass over. *)
Fixpoint replace_from (old new : str) (skip : nat) (s : str) : str :=
  match s with
  | [] => []
  | c :: s' =>
      match skip with
      | S k => replace_from old new k s'
      | O =>
          if starts_with old s
          then new ++ replace_from old new (length old - 1) s'
          else c :: replace_from old new 0 s'
      end
  end.

(** [s.replace(old, new)]: every occurrence of [old], from the left and
    without overlap; an empty [old] is found before every character and
    at the end. *)
Definition str_replace (old new s : str) : str :=
  match old with
  | [] => new ++ flat_map (fun c => c :: new) s
  | _ => replace_from old new 0 s
  end.

(** What the handler reads of a GET request: [request.url] and the
    parameters mode, v1 and v2, empty when absent. *)
Record GetRequest : Type := MkGetRequest {
  get_url : str;
  get_mode : str;
  get_v1 : str;
  get_v2 : str
}.

(** The template values the handler adds to those of [generate]. *)
Inductive Values : Type :=
| NoValues
| PageValues (page : Page)
| HistoryValues (page : Page) (history : list Entity)
| DiffValues (page : Page) (diff : option str).

(** What the handler does to the response: [self.error], [self.redirect]
    and [self.generate]. *)
Inductive Event : Type :=
| SetError (code : nat)
| SendRedirect (to : Redirect) (permanent : bool)
| Generate (template_name : str) (values : Values).

Definition modes : list str :=
  [lit "view"; lit "edit"; lit "history"; lit "diff"].

Definition anonymous (w : World) : bool :=
  match current_user w with
  | Some _ => false
  | None => true
  end.

Section Handler.

Variable Key_decode : str -> option nat.
Variable strftime : nat -> str.
Variable make_table : list str -> list str -> str -> str -> str.

(** [WikiPage.get]; the result is what the handler did to the response,
    in order.  The handler goes on after the redirect for a name with
    underscores. *)
Definition get (page_name : str) (rq : GetRequest) : M (list Event) :=
  let page_name := match page_name with
                   | [] => lit "MainPage"
                   | _ => page_name
                   end in
  match match_at _VALID_WIKINAME [] page_name with
  | None => ret [SetError 404; Generate (lit "404.html") NoValues]
  | Some _ =>
      let r1 :=
        if existsb (Ascii.eqb "_") page_name
        then [SendRedirect
                (ToUrl (str_replace page_name (strip_underscores page_name)
                                    (get_url rq)))
                true]
        else [] in
      page <- Page_load_or_raise page_name ;;
      let mode :=
        match entity page with
        | None => lit "edit"
        | Some _ =>
            if existsb (str_eqb (get_mode rq)) modes then get_mode rq
            else lit "view"
        end in
      fun w =>
        if str_eqb mode (lit "edit") && anonymous w
        then Ok (r1 ++ [SendRedirect ToLogin false]) w
        else if str_eqb mode (lit "history")
        then Ok (r1 ++ [Generate (mode ++ lit ".html")
                          (HistoryValues page (fetch_history page w))]) w
        else if str_eqb mode (lit "diff")
        then
          match diff_history Key_decode strftime make_table page
                             (get_v1 rq) (get_v2 rq) w with
          | Ok d w' =>
              Ok (r1 ++ [Generate (mode ++ lit ".html") (DiffValues page d)])
                 w'
          | Raise x w' => Raise x w'
          end
        else Ok (r1 ++ [Generate (mode ++ lit ".html") (PageValues page)]) w
  end.

End Handler.

(** The templates a list of events renders. *)
Definition templates (evs : list Event) : list str :=
  flat_map (fun ev => match ev with
                      | Generate t _ => [t]
                      | _ => []
                      end) evs.

(** Patterns that do not look at the characters around the cursor. *)
Fixpoint no_WordB (r : regex) : bool :=
  match r with
  | WordB => false
  | Lit _ | CSet _ _ => true
  | Cat r1 r2 | Alt r1 r2 => no_WordB r1 && no_WordB r2
  | Plus r' | Group _ r' => no_WordB r'
  end.

(** The state [st] with the text [x] added at the end of the subject. *)
Definition extended (x : str) (st : mstate) : mstate :=
  MState (before st) (after st ++ x) (caps st).

(** ** Requests in a row

    [main] routes every path to the one handler; a request comes with
    the user that is logged in, if any.  What an exception leaves
    written stays written. *)

Definition as_user (u : option User) (w : World) : World :=
  MkWorld (datastore w) (next_id w) (page_cache w) (content_cache w) u
          (clock w) (limits w).

Inductive HttpRequest : Type :=
| GET (user : option User) (page_name : str) (rq : GetRequest)
| POST (user : option User) (page_name : str) (rq : Request).

Section Application.

Variable Key_decode : str -> option nat.
Variable strftime : nat -> str.
Variable make_table : list str -> list str -> str -> str -> str.

Definition serve (r : HttpRequest) (w : World) : World :=
  match r with
  | GET u nm rq =>
      world_of (get Key_decode strftime make_table nm rq (as_user u w))
  | POST u nm rq => world_of (post nm rq (as_user u w))
  end.

Definition serve_all (rs : list HttpRequest) (w : World) : World :=
  fold_left (fun w0 r => serve r w0) rs w.

End Application.

(** The edits among the requests: the POST requests of a logged-in
    user. *)
Definition is_edit (r : HttpRequest) : bool :=
  match r with
  | POST (Some _) _ _ => true
  | _ => false
  end.
(** * Properties *)

(** ** Strings *)

Lemma str_eqb_eq (a b : str) : str_eqb a b = true <-> a = b.
Proof.
  unfold str_eqb. destruct (list_eq_dec ascii_dec a b); split; congruence.
Qed.

Lemma str_eqb_refl (a : str) : str_eqb a a = true.
Proof. now apply str_eqb_eq. Qed.

Lemma starts_with_app (p s : str) : starts_with p (p ++ s) = true.
Proof.
  induction p as [|a p IH]; simpl; [reflexivity|].
  now rewrite Ascii.eqb_refl, IH.
Qed.

Lemma starts_with_inv (p s : str) :
  starts_with p s = true -> exists t, s = p ++ t.
Proof.
  revert s. induction p as [|a p IH]; intros s H; simpl in H.
  - now exists s.
  - destruct s as [|b s]; [discriminate|].
    apply andb_true_iff in H. destruct H as [Hab Hps].
    apply Ascii.eqb_eq in Hab. subst b.
    destruct (IH _ Hps) as [t ->]. now exists t.
Qed.

Lemma slice_app (pre x : str) (offset k : nat) :
  offset <= length pre ->
  slice (pre ++ x) offset (length pre + k) = skipn offset pre ++ firstn k x.
Proof.
  intros Hle. unfold slice.
  rewrite skipn_app, firstn_app, length_skipn.
  replace (offset - length pre) with 0 by lia. simpl skipn.
  replace (length pre + k - offset - (length pre - offset)) with k by lia.
  rewrite firstn_all2; [reflexivity | rewrite length_skipn; lia].
Qed.

Lemma skipn_length_app (a b : str) : skipn (length a) (a ++ b) = b.
Proof. now rewrite skipn_app, Nat.sub_diag, skipn_all. Qed.

Lemma skipn_app_le (pre x : str) (offset : nat) :
  offset <= length pre -> skipn offset (pre ++ x) = skipn offset pre ++ x.
Proof.
  intros Hle. rewrite skipn_app.
  now replace (offset - length pre) with 0 by lia.
Qed.

(** ** The matcher moves the cursor forward over the text *)

Lemma moved_trans (w1 w2 : str) (st st1 st2 : mstate) :
  moved w1 st st1 -> moved w2 st1 st2 -> moved (w1 ++ w2) st st2.
Proof.
  intros [Ha Hb] [Ha' Hb']. split.
  - now rewrite Ha, Ha', app_assoc.
  - now rewrite Hb', Hb, rev_app_distr, app_assoc.
Qed.

Lemma moved_consumed (w : str) (st st' : mstate) :
  moved w st st' -> consumed st st' = w.
Proof.
  intros [Ha _]. unfold consumed. rewrite Ha, length_app.
  replace (length w + length (after st') - length (after st'))
    with (length w + 0) by lia.
  rewrite firstn_app_2. simpl. apply app_nil_r.
Qed.

Lemma strip_prefix_Some (p s rest : str) :
  strip_prefix p s = Some rest <-> s = p ++ rest.
Proof.
  revert s. induction p as [|a p IH]; intros s; simpl.
  - split; congruence.
  - destruct s as [|b s]; [split; discriminate|].
    destruct (Ascii.eqb_spec a b) as [->|Hne].
    + rewrite IH. split; congruence.
    + split; [discriminate | congruence].
Qed.

Lemma plus_loop_chain (body : mstate -> list mstate) (rounds : nat) :
  forall st st', In st' (plus_loop body rounds st) -> chain body st st'.
Proof.
  induction rounds as [|n IH]; intros st st' H; simpl in H; [contradiction|].
  apply in_flat_map in H. destruct H as [st1 [H1 H]].
  apply in_app_or in H. destruct H as [H | [<- | []]].
  - destruct (length (after st1) <? length (after st)); [|contradiction].
    eapply chain_more; eauto.
  - now apply chain_one.
Qed.

(** The bound on the rounds of a repetition is never what stops it:
    any bound above the length of the remaining text gives the same
    matches. *)
Lemma plus_loop_enough_rounds (body : mstate -> list mstate) (n : nat) :
  forall n' st,
    length (after st) < n -> length (after st) < n' ->
    plus_loop body n st = plus_loop body n' st.
Proof.
  induction n as [|n IH]; intros n' st Hn Hn'; [lia|].
  destruct n' as [|n']; [lia|]. simpl.
  apply flat_map_ext. intros st'. f_equal.
  destruct (length (after st') <? length (after st)) eqn:E; [|reflexivity].
  apply Nat.ltb_lt in E. apply IH; lia.
Qed.

Lemma chain_moved (body : mstate -> list mstate) :
  (forall st st', In st' (body st) -> exists w, moved w st st') ->
  forall st st', chain body st st' -> exists w, moved w st st'.
Proof.
  intros Hbody st st' Hc. induction Hc as [st st' H | st st1 st' H _ IH].
  - now apply Hbody.
  - destruct (Hbody _ _ H) as [w1 H1]. destruct IH as [w2 H2].
    exists (w1 ++ w2). eapply moved_trans; eauto.
Qed.

Lemma bt_moved (r : regex) :
  forall st st', In st' (bt r st) -> exists w, moved w st st'.
Proof.
  induction r as [s | neg items | | r1 IH1 r2 IH2 | r1 IH1 r2 IH2 | r IH | n r IH];
    intros st st' H; cbn [bt] in H.
  - destruct (strip_prefix s (after st)) as [rest|] eqn:E; [|contradiction].
    destruct H as [<- | []]. apply strip_prefix_Some in E.
    exists s. now split.
  - destruct (after st) as [|c rest] eqn:E; [contradiction|].
    destruct (cset_has neg items c); [|contradiction].
    destruct H as [<- | []]. exists [c]. now split.
  - destruct (at_boundary st); [|contradiction].
    destruct H as [<- | []]. exists []. now split.
  - apply in_flat_map in H. destruct H as [st1 [H1 H2]].
    destruct (IH1 _ _ H1) as [w1 M1]. destruct (IH2 _ _ H2) as [w2 M2].
    exists (w1 ++ w2). eapply moved_trans; eauto.
  - apply in_app_or in H. destruct H as [H | H]; eauto.
  - apply plus_loop_chain in H. eapply chain_moved; eauto.
  - apply in_map_iff in H. destruct H as [st1 [<- H1]].
    destruct (IH _ _ H1) as [w Mw]. exists w. exact Mw.
Qed.

Lemma match_at_Some (r : regex) (bef aft : str) (m : Match) :
  match_at r bef aft = Some m ->
  m_start m = length bef /\
  m_end m = length bef + length (m_text m) /\
  exists rest, aft = m_text m ++ rest.
Proof.
  unfold match_at. destruct (bt r (MState bef aft [])) as [|st' l] eqn:E;
    [discriminate|].
  intros H. injection H as <-. simpl.
  destruct (bt_moved r (MState bef aft []) st') as [w Mw];
    [rewrite E; now left|].
  rewrite (moved_consumed Mw). destruct Mw as [Ha Hb]. simpl in Ha, Hb.
  rewrite Hb, length_app, length_rev. repeat split; [lia|].
  now exists (after st').
Qed.

(** ** Searching *)

Lemma search_None (r : regex) (aft : str) :
  forall bef, search r bef aft = None ->
  forall p s, aft = p ++ s -> match_at r (rev p ++ bef) s = None.
Proof.
  induction aft as [|c aft IH]; intros bef H p s E; simpl in H.
  - destruct p; [|discriminate]. simpl in E. subst s. simpl.
    now destruct (match_at r bef []).
  - destruct (match_at r bef (c :: aft)) eqn:E0; [discriminate|].
    destruct p as [|c' p]; simpl in E.
    + now subst s.
    + injection E as <- ->. simpl. rewrite <- app_assoc. now apply IH.
Qed.

Lemma search_Some (r : regex) (aft : str) :
  forall bef m, search r bef aft = Some m ->
  exists gap rest,
    aft = gap ++ rest /\
    match_at r (rev gap ++ bef) rest = Some m /\
    forall p s, gap = p ++ s -> s <> [] ->
                match_at r (rev p ++ bef) (s ++ rest) = None.
Proof.
  induction aft as [|c aft IH]; intros bef m H; simpl in H.
  - exists [], []. destruct (match_at r bef []) eqn:E0; [|discriminate].
    repeat split; [simpl; congruence|].
    intros p s E Hs. destruct p; simpl in E; congruence.
  - destruct (match_at r bef (c :: aft)) eqn:E0.
    + exists [], (c :: aft). repeat split; [simpl; congruence|].
      intros p s E Hs. destruct p; simpl in E; congruence.
    + destruct (IH _ _ H) as [gap [rest [E [Hm Hno]]]].
      exists (c :: gap), rest. split; [now rewrite E|]. split.
      * simpl. now rewrite <- app_assoc.
      * intros p s Eg Hs. destruct p as [|c' p]; simpl in Eg.
        -- subst s. simpl. now rewrite <- E.
        -- injection Eg as <- ->. simpl. rewrite <- app_assoc.
           now apply Hno.
Qed.

(** Every match of [finditer] is the match of the pattern at some
    cursor of the content. *)
Lemma finditer_from_Forall (r : regex) (content : str) (P : Match -> Prop) :
  (forall pre aft m, content = pre ++ aft ->
                     match_at r (rev pre) aft = Some m -> P m) ->
  forall fuel pos, Forall P (finditer_from r fuel content pos).
Proof.
  intros HP fuel. induction fuel as [|fuel IH]; intros pos; simpl;
    [constructor|].
  destruct (search r (rev (firstn pos content)) (skipn pos content))
    as [m|] eqn:E; [|constructor].
  constructor.
  - destruct (search_Some _ _ _ E) as [gap [rest [Es [Hm _]]]].
    apply (HP (firstn pos content ++ gap) rest).
    + now rewrite <- app_assoc, <- Es, firstn_skipn.
    + now rewrite rev_app_distr.
  - destruct (m_end m =? m_start m); [|apply IH].
    destruct (m_end m <? length content); [apply IH | constructor].
Qed.

Lemma finditer_Forall (r : regex) (content : str) (P : Match -> Prop) :
  (forall pre aft m, content = pre ++ aft ->
                     match_at r (rev pre) aft = Some m -> P m) ->
  Forall P (finditer r content).
Proof. intros HP. now apply finditer_from_Forall. Qed.

Lemma search_bounds (r : regex) (content : str) (pos : nat) (m : Match) :
  pos <= length content ->
  search r (rev (firstn pos content)) (skipn pos content) = Some m ->
  pos <= m_start m /\ m_start m <= m_end m /\ m_end m <= length content.
Proof.
  intros Hpos Hs.
  destruct (search_Some _ _ _ Hs) as [gap [rest0 [Es [Hm _]]]].
  destruct (match_at_Some _ _ _ Hm) as [Hst [Hen [rest Er]]].
  rewrite length_app, !length_rev, length_firstn in Hst, Hen.
  assert (El : length (skipn pos content) = length content - pos)
    by apply length_skipn.
  rewrite Es, Er, !length_app in El. lia.
Qed.

(** The bound on the number of matches is never what ends
    [finditer]. *)
Lemma finditer_from_enough_fuel (r : regex) (content : str) (fuel : nat) :
  forall fuel' pos,
    pos <= length content ->
    length content - pos < fuel -> length content - pos < fuel' ->
    finditer_from r fuel content pos = finditer_from r fuel' content pos.
Proof.
  induction fuel as [|fuel IH]; intros fuel' pos Hpos Hf Hf'; [lia|].
  destruct fuel' as [|fuel']; [lia|]. simpl.
  destruct (search r (rev (firstn pos content)) (skipn pos content))
    as [m|] eqn:Hs; [|reflexivity].
  destruct (search_bounds _ _ Hpos Hs) as [H1 [H2 H3]].
  f_equal. destruct (m_end m =? m_start m) eqn:He.
  - destruct (m_end m <? length content) eqn:Hl; [|reflexivity].
    apply Nat.ltb_lt in Hl. apply IH; lia.
  - apply Nat.eqb_neq in He. apply IH; lia.
Qed.



(** ** Transform.run *)

Section RunProperties.

Variable W : Type.
Variable t : Transform W.

Lemma run_loop (content : str) :
  forall fuel pre aft parts offset w parts' offset' w',
    content = pre ++ aft ->
    length aft < fuel ->
    offset <= length pre ->
    fold_left (run_step t content)
              (finditer_from (regexp t) fuel content (length pre))
              (parts, offset, w) = (parts', offset', w') ->
    exists out,
      concat (parts' ++ [skipn offset' content])
      = concat parts ++ skipn offset pre ++ out /\
      rewrites t (rev pre) aft w out w'.
Proof.
  induction fuel as [|fuel IH];
    intros pre aft parts offset w parts' offset' w' Ec Hfuel Hoff Hrun;
    [lia|].
  simpl in Hrun.
  assert (Ef : firstn (length pre) content = pre)
    by (subst content; rewrite firstn_app, Nat.sub_diag, firstn_all;
        simpl; apply app_nil_r).
  assert (Es : skipn (length pre) content = aft)
    by (subst content; rewrite skipn_app, Nat.sub_diag, skipn_all; reflexivity).
  rewrite Ef, Es in Hrun. clear Ef Es.
  destruct (search (regexp t) (rev pre) aft) as [m|] eqn:Hs.
  - destruct (search_Some _ _ _ Hs) as [gap [rest0 [Eaft [Hm Hno]]]].
    destruct (match_at_Some _ _ _ Hm) as [Hst [Hen [rest Er]]].
    rewrite length_app, !length_rev in Hst, Hen.
    subst rest0.
    simpl in Hrun. destruct (replace t m w) as [rep w1] eqn:Hrep.
    assert (Egap : slice content offset (m_start m) = skipn offset pre ++ gap).
    { rewrite Hst, Ec, Eaft, Nat.add_comm, slice_app by exact Hoff.
      now rewrite firstn_app, Nat.sub_diag, firstn_all, app_nil_r. }
    rewrite Egap in Hrun.
    destruct (m_end m =? m_start m) eqn:Hempty.
    + apply Nat.eqb_eq in Hempty.
      assert (Et : m_text m = [])
        by (apply length_zero_iff_nil; lia).
      rewrite Et in *. simpl in Hm, Eaft, Hno.
      destruct (m_end m <? length content) eqn:Hlt.
      * apply Nat.ltb_lt in Hlt.
        destruct rest as [|c rest].
        { subst content aft. rewrite !length_app in Hlt. simpl in Hlt. lia. }
        assert (Ec' : content = (pre ++ gap ++ [c]) ++ rest)
          by (subst content aft; now rewrite <- !app_assoc).
        assert (El : length (pre ++ gap ++ [c]) = S (m_end m))
          by (rewrite !length_app; simpl; lia).
        rewrite <- El in Hrun.
        assert (Hf' : length rest < fuel)
          by (subst aft; rewrite length_app in Hfuel; simpl in Hfuel; lia).
        assert (Ho' : m_end m <= length (pre ++ gap ++ [c])) by lia.
        destruct (IH _ _ _ _ _ _ _ _ Ec' Hf' Ho' Hrun) as [out [Hout Hrw]].
        exists (gap ++ rep ++ c :: out). split.
        -- assert (Hsk : skipn (m_end m) (pre ++ gap ++ [c]) = [c]).
           { replace (m_end m) with (length (pre ++ gap))
               by (rewrite length_app; lia).
             rewrite app_assoc. apply skipn_length_app. }
           rewrite Hout, Hsk, !concat_app. simpl.
           now rewrite !app_nil_r, <- !app_assoc.
        -- subst aft. eapply rw_empty; eauto.
           rewrite !rev_app_distr in Hrw. exact Hrw.
      * apply Nat.ltb_ge in Hlt.
        assert (rest = []).
        { destruct rest; [reflexivity|]. subst content aft.
          rewrite !length_app in Hlt. simpl in Hlt. lia. }
        subst rest. simpl in Hrun. injection Hrun as <- <- <-.
        exists (gap ++ rep). split.
        -- rewrite (@skipn_all2 _ (m_end m) content) by lia.
           rewrite !concat_app. simpl. now rewrite !app_nil_r, <- !app_assoc.
        -- subst aft. rewrite app_nil_r. eapply rw_empty_end; eauto.
           intros p s Eg Hne. specialize (Hno p s Eg Hne).
           now rewrite app_nil_r in Hno.
    + apply Nat.eqb_neq in Hempty.
      assert (Ht : m_text m <> [])
        by (intros Et; rewrite Et in Hen; simpl in Hen; lia).
      assert (Ec' : content = (pre ++ gap ++ m_text m) ++ rest)
        by (subst content aft; now rewrite <- !app_assoc).
      assert (El : length (pre ++ gap ++ m_text m) = m_end m)
        by (rewrite !length_app; lia).
      rewrite <- El in Hrun at 1.
      assert (Hf' : length rest < fuel).
      { subst aft. rewrite !length_app in Hfuel.
        destruct (m_text m); [congruence|]. simpl in Hfuel. lia. }
      assert (Ho' : m_end m <= length (pre ++ gap ++ m_text m)) by lia.
      destruct (IH _ _ _ _ _ _ _ _ Ec' Hf' Ho' Hrun) as [out [Hout Hrw]].
      exists (gap ++ rep ++ out). split.
      * rewrite Hout, !concat_app. simpl. rewrite !app_nil_r.
        rewrite <- El, skipn_all. simpl. now rewrite <- !app_assoc.
      * subst aft. eapply rw_match; eauto.
        rewrite !rev_app_distr in Hrw. now rewrite <- app_assoc in Hrw.
  - simpl in Hrun. injection Hrun as <- <- <-.
    exists aft. split.
    + rewrite concat_app. simpl. rewrite app_nil_r, Ec.
      now rewrite skipn_app_le by exact Hoff.
    + apply rw_tail. now apply search_None.
Qed.

End RunProperties.

(** ** What a pattern can match *)

Create HintDb wiki.
#[local] Hint Constructors derives : wiki.

Lemma chain_derives (r : regex) :
  (forall st st', In st' (bt r st) -> exists w, moved w st st' /\ derives r w) ->
  forall st st', chain (bt r) st st' ->
                 exists w, moved w st st' /\ derives (Plus r) w.
Proof.
  intros Hbody st st' Hc. induction Hc as [st st' H | st st1 st' H _ IH].
  - destruct (Hbody _ _ H) as [w [Mw Dw]]. exists w. auto with wiki.
  - destruct (Hbody _ _ H) as [w1 [M1 D1]]. destruct IH as [w2 [M2 D2]].
    exists (w1 ++ w2). split; [eapply moved_trans; eauto | auto with wiki].
Qed.

Lemma bt_derives (r : regex) :
  forall st st', In st' (bt r st) -> exists w, moved w st st' /\ derives r w.
Proof.
  induction r as [s | neg items | | r1 IH1 r2 IH2 | r1 IH1 r2 IH2 | r IH | n r IH];
    intros st st' H; cbn [bt] in H.
  - destruct (strip_prefix s (after st)) as [rest|] eqn:E; [|contradiction].
    destruct H as [<- | []]. apply strip_prefix_Some in E.
    exists s. repeat split; auto with wiki.
  - destruct (after st) as [|c rest] eqn:E; [contradiction|].
    destruct (cset_has neg items c) eqn:Ec; [|contradiction].
    destruct H as [<- | []]. exists [c]. repeat split; auto with wiki.
  - destruct (at_boundary st); [|contradiction].
    destruct H as [<- | []]. exists []. repeat split; auto with wiki.
  - apply in_flat_map in H. destruct H as [st1 [H1 H2]].
    destruct (IH1 _ _ H1) as [w1 [M1 D1]]. destruct (IH2 _ _ H2) as [w2 [M2 D2]].
    exists (w1 ++ w2). split; [eapply moved_trans; eauto | auto with wiki].
  - apply in_app_or in H. destruct H as [H | H].
    + destruct (IH1 _ _ H) as [w [Mw Dw]]. exists w. auto with wiki.
    + destruct (IH2 _ _ H) as [w [Mw Dw]]. exists w. auto with wiki.
  - apply plus_loop_chain in H. now apply chain_derives.
  - apply in_map_iff in H. destruct H as [st1 [<- H1]].
    destruct (IH _ _ H1) as [w [Mw Dw]]. exists w. split; [exact Mw|].
    auto with wiki.
Qed.

(** The text of a match belongs to the language of the pattern. *)
Lemma match_at_derives (r : regex) (bef aft : str) (m : Match) :
  match_at r bef aft = Some m -> derives r (m_text m).
Proof.
  unfold match_at. destruct (bt r (MState bef aft [])) as [|st' l] eqn:E;
    [discriminate|].
  intros H. injection H as <-. simpl.
  destruct (bt_derives r (MState bef aft []) st') as [w [Mw Dw]];
    [rewrite E; now left|].
  now rewrite (moved_consumed Mw).
Qed.

Lemma derives_min_len (r : regex) (w : str) :
  derives r w -> min_len r <= length w.
Proof.
  induction 1; simpl in *; rewrite ?length_app; lia.
Qed.

Lemma derives_within (P : ascii -> bool) (r : regex) (w : str) :
  derives r w -> within P r -> forallb P w = true.
Proof.
  induction 1 as [s | neg items c Hc | | r1 r2 w1 w2 _ IH1 _ IH2
                 | r1 r2 w _ IH | r1 r2 w _ IH | r w _ IH
                 | r w1 w2 _ IH1 _ IH2 | n r w _ IH];
    simpl; intros Hw.
  - exact Hw.
  - now rewrite (Hw c Hc).
  - reflexivity.
  - destruct Hw as [H1 H2]. now rewrite forallb_app, IH1, IH2.
  - destruct Hw as [H1 _]. auto.
  - destruct Hw as [_ H2]. auto.
  - auto.
  - rewrite forallb_app, IH1, IH2; auto.
  - auto.
Qed.

(** ** Reading a match off the pattern *)

Lemma bt_Lit_inv (s : str) (st st' : mstate) :
  In st' (bt (Lit s) st) ->
  exists rest, after st = s ++ rest /\ st' = advance s rest st.
Proof.
  cbn [bt]. destruct (strip_prefix s (after st)) as [rest|] eqn:E;
    [|contradiction].
  intros [<- | []]. apply strip_prefix_Some in E. now exists rest.
Qed.

Lemma bt_CSet_inv (neg : bool) (items : list citem) (st st' : mstate) :
  In st' (bt (CSet neg items) st) ->
  exists c rest, after st = c :: rest /\ cset_has neg items c = true /\
                 st' = advance [c] rest st.
Proof.
  cbn [bt]. destruct (after st) as [|c rest] eqn:E; [contradiction|].
  destruct (cset_has neg items c) eqn:Ec; [|contradiction].
  intros [<- | []]. now exists c, rest.
Qed.

Lemma bt_WordB_inv (st st' : mstate) :
  In st' (bt WordB st) -> at_boundary st = true /\ st' = st.
Proof.
  cbn [bt]. destruct (at_boundary st); [|contradiction].
  now intros [<- | []].
Qed.

Lemma bt_Cat_inv (r1 r2 : regex) (st st' : mstate) :
  In st' (bt (Cat r1 r2) st) ->
  exists st1, In st1 (bt r1 st) /\ In st' (bt r2 st1).
Proof. cbn [bt]. intros H. now apply in_flat_map in H. Qed.

Lemma bt_Alt_inv (r1 r2 : regex) (st st' : mstate) :
  In st' (bt (Alt r1 r2) st) -> In st' (bt r1 st) \/ In st' (bt r2 st).
Proof. cbn [bt]. intros H. now apply in_app_or in H. Qed.

Lemma bt_Group_inv (n : nat) (r : regex) (st st' : mstate) :
  In st' (bt (Group n r) st) ->
  exists st1, In st1 (bt r st) /\ st' = set_cap n st st1.
Proof.
  cbn [bt]. intros H. apply in_map_iff in H.
  destruct H as [st1 [<- H1]]. now exists st1.
Qed.

Lemma advance_advance (w1 w2 rest1 rest2 : str) (st : mstate) :
  advance w2 rest2 (advance w1 rest1 st) = advance (w1 ++ w2) rest2 st.
Proof.
  unfold advance. simpl. now rewrite rev_app_distr, app_assoc.
Qed.

(** A repeated character set runs over one or more characters of the
    set and leaves the groups alone. *)
Lemma bt_Plus_CSet_inv (neg : bool) (items : list citem) (st st' : mstate) :
  In st' (bt (Plus (CSet neg items)) st) ->
  exists w, w <> [] /\ forallb (cset_has neg items) w = true /\
            after st = w ++ after st' /\ st' = advance w (after st') st.
Proof.
  cbn [bt]. intros H. apply plus_loop_chain in H.
  induction H as [st st' H | st st1 st' H _ IH].
  - apply bt_CSet_inv in H. destruct H as [c [rest [Ea [Hc ->]]]].
    exists [c]. simpl. rewrite Hc. repeat split; [discriminate | exact Ea].
  - apply bt_CSet_inv in H. destruct H as [c [rest [Ea [Hc ->]]]].
    destruct IH as [w [_ [Hw [Ea' ->]]]]. simpl in Ea'.
    exists (c :: w). simpl. rewrite Hc, Hw.
    repeat split; [discriminate | now rewrite Ea, Ea' |].
    now rewrite (advance_advance [c] w).
Qed.

Lemma forallb_same (f g : ascii -> bool) (l : str) :
  (forall c, f c = g c) -> forallb f l = forallb g l.
Proof.
  intros E. induction l as [|c l IH]; simpl; [reflexivity|].
  now rewrite E, IH.
Qed.

Lemma consumed_app (w : str) (st st' : mstate) :
  after st = w ++ after st' -> consumed st st' = w.
Proof.
  intros Ha. unfold consumed. rewrite Ha, length_app.
  replace (length w + length (after st') - length (after st'))
    with (length w + 0) by lia.
  rewrite firstn_app_2. simpl. apply app_nil_r.
Qed.

Lemma match_at_In (r : regex) (bef aft : str) (m : Match) :
  match_at r bef aft = Some m ->
  exists st', In st' (bt r (MState bef aft [])) /\
              m = MkMatch (length bef) (length (before st'))
                          (consumed (MState bef aft []) st') (caps st').
Proof.
  unfold match_at. destruct (bt r (MState bef aft [])) as [|st' l];
    [discriminate|].
  intros H. injection H as <-. exists st'. split; [now left | reflexivity].
Qed.

(** Every match of the pattern of [HideReferers] is an attribute
    [href=DQ url DQ] whose value [url] starts with [http], has at least
    one more character and no double quote; group 1 is [url]. *)
Lemma HideReferers_match (bef aft : str) (m : Match) :
  match_at HideReferers_regexp bef aft = Some m ->
  exists u rest,
    u <> [] /\
    forallb (fun c => negb (Ascii.eqb dq c)) u = true /\
    aft = lit "href=" ++ quoted (lit "http" ++ u) ++ rest /\
    m_text m = lit "href=" ++ quoted (lit "http" ++ u) /\
    group m 1 = Some (lit "http" ++ u).
Proof.
  intros H. apply match_at_In in H. destruct H as [st' [H ->]].
  unfold HideReferers_regexp in H.
  apply bt_Cat_inv in H. destruct H as [st1 [H1 H]].
  apply bt_Lit_inv in H1. destruct H1 as [rest1 [E1 ->]].
  apply bt_Cat_inv in H. destruct H as [st2 [H2 H]].
  apply bt_Group_inv in H2. destruct H2 as [st3 [H3 ->]].
  apply bt_Cat_inv in H3. destruct H3 as [st4 [H4 H3]].
  apply bt_Lit_inv in H4. destruct H4 as [rest4 [E4 ->]].
  apply bt_Plus_CSet_inv in H3. destruct H3 as [u [Hu [Hcls [E3 E3']]]].
  apply bt_Lit_inv in H. destruct H as [rest [E ->]].
  simpl in E1, E4, E3, E. subst rest1 rest4.
  rewrite E3' in E. simpl in E.
  exists u, rest. split; [exact Hu|]. split.
  { rewrite <- Hcls. apply forallb_same.
    intros c. unfold cset_has. simpl. now rewrite orb_false_r. }
  assert (Eaft : aft = lit "href=" ++ quoted (lit "http" ++ u) ++ rest).
  { rewrite E1, E. unfold quoted. simpl. now rewrite <- app_assoc. }
  split; [exact Eaft|]. split.
  - simpl. apply consumed_app. simpl. rewrite Eaft. unfold quoted.
    simpl. now rewrite <- !app_assoc.
  - simpl. f_equal. apply consumed_app. reflexivity.
Qed.

(** *** The matcher, one step at a time *)

Lemma plus_loop_S (body : mstate -> list mstate) (n : nat) (st : mstate) :
  plus_loop body (S n) st
  = flat_map
      (fun st' =>
         (if length (after st') <? length (after st)
          then plus_loop body n st' else [])
         ++ [st'])
      (body st).
Proof. reflexivity. Qed.

Lemma bt_Cat_eq (r1 r2 : regex) (st : mstate) :
  bt (Cat r1 r2) st = flat_map (bt r2) (bt r1 st).
Proof. reflexivity. Qed.

Lemma bt_Group_eq (n : nat) (r : regex) (st : mstate) :
  bt (Group n r) st = map (set_cap n st) (bt r st).
Proof. reflexivity. Qed.

Lemma bt_Plus_eq (r : regex) (st : mstate) :
  bt (Plus r) st = plus_loop (bt r) (S (length (after st))) st.
Proof. reflexivity. Qed.

Lemma bt_Lit_app (s rest : str) (st : mstate) :
  after st = s ++ rest -> bt (Lit s) st = [advance s rest st].
Proof.
  intros E. cbn [bt].
  now replace (strip_prefix s (after st)) with (Some rest)
    by (symmetry; now apply strip_prefix_Some).
Qed.

Lemma bt_CSet_cons (neg : bool) (items : list citem) (c : ascii)
    (rest : str) (st : mstate) :
  after st = c :: rest -> cset_has neg items c = true ->
  bt (CSet neg items) st = [advance [c] rest st].
Proof. intros E Hc. cbn [bt]. now rewrite E, Hc. Qed.

Lemma bt_CSet_stop (neg : bool) (items : list citem) (st : mstate) :
  match after st with
  | [] => True
  | c :: _ => cset_has neg items c = false
  end ->
  bt (CSet neg items) st = [].
Proof.
  intros H. cbn [bt]. destruct (after st) as [|c rest]; [reflexivity|].
  now rewrite H.
Qed.

(** A greedy repetition of a character set first runs over all the
    characters of the set there are. *)
Lemma plus_loop_CSet_greedy (neg : bool) (items : list citem) (w : str) :
  forall rounds st rest,
    w <> [] ->
    forallb (cset_has neg items) w = true ->
    after st = w ++ rest ->
    match rest with [] => True | c :: _ => cset_has neg items c = false end ->
    length w <= rounds ->
    exists tl, plus_loop (bt (CSet neg items)) rounds st
               = advance w rest st :: tl.
Proof.
  induction w as [|c w IH]; intros rounds st rest Hne Hcls Ea Hstop Hr;
    [congruence|].
  destruct rounds as [|n]; [simpl in Hr; lia|].
  simpl in Hcls. apply andb_true_iff in Hcls. destruct Hcls as [Hc Hcls].
  rewrite plus_loop_S, (@bt_CSet_cons neg items c (w ++ rest) st Ea Hc).
  cbn [flat_map]. rewrite app_nil_r.
  replace (length (after (advance [c] (w ++ rest) st)) <? length (after st))
    with true by (symmetry; apply Nat.ltb_lt; rewrite Ea; simpl; lia).
  destruct w as [|c' w].
  - exists [].
    replace (plus_loop (bt (CSet neg items)) n (advance [c] ([] ++ rest) st))
      with (@nil mstate); [reflexivity|].
    destruct n as [|n]; [reflexivity|].
    rewrite plus_loop_S, bt_CSet_stop; [reflexivity | exact Hstop].
  - destruct (IH n (advance [c] ((c' :: w) ++ rest) st) rest) as [tl Htl];
      [discriminate | exact Hcls | reflexivity | exact Hstop
      | simpl in Hr |- *; lia |].
    rewrite Htl, advance_advance.
    now exists (tl ++ [advance [c] ((c' :: w) ++ rest) st]).
Qed.

(** At an attribute [href=DQ url DQ] with such a [url], the pattern of
    [HideReferers] matches exactly the attribute. *)
Lemma HideReferers_match_attr (bef u rest : str) :
  u <> [] ->
  forallb (fun c => negb (Ascii.eqb dq c)) u = true ->
  exists m,
    match_at HideReferers_regexp bef
             (lit "href=" ++ quoted (lit "http" ++ u) ++ rest) = Some m /\
    m_text m = lit "href=" ++ quoted (lit "http" ++ u) /\
    group m 1 = Some (lit "http" ++ u).
Proof.
  intros Hu Hcls.
  assert (Hcls' : forallb (cset_has true [COne dq]) u = true).
  { erewrite forallb_same; [exact Hcls|].
    intros c. unfold cset_has. simpl. now rewrite orb_false_r. }
  set (aft := lit "href=" ++ quoted (lit "http" ++ u) ++ rest).
  set (st0 := MState bef aft []).
  set (st1 := advance (lit "href=" ++ [dq])
                      (lit "http" ++ u ++ [dq] ++ rest) st0).
  set (st2 := advance (lit "http") (u ++ [dq] ++ rest) st1).
  set (st3 := advance u ([dq] ++ rest) st2).
  assert (E0 : after st0
               = (lit "href=" ++ [dq]) ++ lit "http" ++ u ++ [dq] ++ rest).
  { unfold st0, aft, quoted. simpl. now rewrite <- !app_assoc. }
  destruct (@plus_loop_CSet_greedy true [COne dq] u
              (S (length (after st2))) st2 ([dq] ++ rest)) as [tl Htl];
    [exact Hu | exact Hcls' | reflexivity | reflexivity
    | simpl; rewrite length_app; lia |].
  fold st3 in Htl.
  assert (Hbt : exists tl',
             bt HideReferers_regexp st0
             = advance [dq] rest (set_cap 1 st1 st3) :: tl').
  { unfold HideReferers_regexp.
    rewrite bt_Cat_eq, (@bt_Lit_app _ _ st0 E0). fold st1.
    cbn [flat_map]. rewrite app_nil_r.
    rewrite bt_Cat_eq, bt_Group_eq, bt_Cat_eq.
    rewrite (@bt_Lit_app (lit "http") (u ++ [dq] ++ rest) st1)
      by reflexivity.
    fold st2. cbn [flat_map]. rewrite app_nil_r.
    rewrite bt_Plus_eq, Htl. cbn [map flat_map].
    rewrite (@bt_Lit_app [dq] rest (set_cap 1 st1 st3)) by reflexivity.
    eexists. reflexivity. }
  destruct Hbt as [tl' Hbt].
  unfold match_at. fold st0. rewrite Hbt.
  eexists. split; [reflexivity|]. split.
  - simpl. apply consumed_app. simpl. unfold aft, quoted. simpl.
    now rewrite <- !app_assoc.
  - simpl. f_equal. apply consumed_app. reflexivity.
Qed.

(** Every match of the pattern of [AutoLink] is one character, which is
    neither a double quote nor a word character, followed by a URL: a
    scheme, [://], one or more characters that are no stop characters,
    and a last character that is neither a stop character nor a full
    stop.  Group 1 is the character and group 2 the URL. *)
Lemma AutoLink_match (bef aft : str) (m : Match) :
  match_at AutoLink_regexp bef aft = Some m ->
  exists c scheme body lastc rest,
    Ascii.eqb dq c = false /\
    is_word c = false /\
    (scheme = lit "http" \/ scheme = lit "https") /\
    body <> [] /\
    forallb (cset_has true url_stop) body = true /\
    cset_has true (url_stop ++ [COne "."%char]) lastc = true /\
    aft = c :: (scheme ++ lit "://" ++ body ++ [lastc]) ++ rest /\
    m_text m = c :: scheme ++ lit "://" ++ body ++ [lastc] /\
    group m 1 = Some [c] /\
    group m 2 = Some (scheme ++ lit "://" ++ body ++ [lastc]).
Proof.
  intros H. apply match_at_In in H. destruct H as [st' [H ->]].
  unfold AutoLink_regexp in H.
  apply bt_Cat_inv in H. destruct H as [st1 [H1 H]].
  apply bt_Group_inv in H1. destruct H1 as [sa [Ha ->]].
  apply bt_CSet_inv in Ha. destruct Ha as [c [r0 [E0 [Hc ->]]]].
  apply bt_Cat_inv in H. destruct H as [sb [Hb H]].
  apply bt_WordB_inv in Hb. destruct Hb as [Hbnd ->].
  apply bt_Group_inv in H. destruct H as [sc [H ->]].
  apply bt_Cat_inv in H. destruct H as [sd [Hd H]].
  apply bt_Group_inv in Hd. destruct Hd as [se [He ->]].
  assert (Hs : exists scheme r1,
             (scheme = lit "http" \/ scheme = lit "https") /\
             r0 = scheme ++ r1 /\
             se = advance scheme r1
                    (set_cap 1 (MState bef aft []) 
                             (advance [c] r0 (MState bef aft [])))).
  { apply bt_Alt_inv in He.
    destruct He as [He | He]; apply bt_Lit_inv in He;
      destruct He as [r1 [E1 ->]]; simpl in E1.
    - exists (lit "http"), r1. auto.
    - exists (lit "https"), r1. auto. }
  clear He. destruct Hs as [scheme [r1 [Hscheme [E1 ->]]]].
  apply bt_Cat_inv in H. destruct H as [sf [Hf H]].
  apply bt_Lit_inv in Hf. destruct Hf as [r2 [E2 ->]].
  apply bt_Cat_inv in H. destruct H as [sg [Hg H]].
  apply bt_Plus_CSet_inv in Hg. destruct Hg as [body [Hbody [Hcls [E3 E3']]]].
  apply bt_CSet_inv in H. destruct H as [lastc [rest [E4 [Hlast ->]]]].
  simpl in E0, E2, E3. subst r1.
  exists c, scheme, body, lastc, rest.
  assert (Er0 : r0 = (scheme ++ lit "://" ++ body ++ [lastc]) ++ rest).
  { rewrite E1, E3, E4. now rewrite <- !app_assoc. }
  split.
  { unfold cset_has in Hc. simpl in Hc. rewrite orb_false_r in Hc.
    now apply negb_true_iff in Hc. }
  split.
  { unfold at_boundary in Hbnd. simpl in Hbnd. rewrite E1 in Hbnd.
    destruct Hscheme as [-> | ->]; simpl in Hbnd;
      now destruct (is_word c). }
  repeat (split; [assumption|]).
  split; [now rewrite E0, Er0|]. split.
  - simpl. apply consumed_app. simpl. now rewrite E0, Er0.
  - simpl. split.
    + rewrite E3'. simpl. f_equal. apply consumed_app. simpl. exact E0.
    + f_equal. apply consumed_app. simpl. exact Er0.
Qed.

(** Groups 1 and 2 take part in every match of the pattern of
    [AutoLink], so [AutoLink_replace] takes its first branch. *)
Lemma AutoLink_groups (bef aft : str) (m : Match) :
  match_at AutoLink_regexp bef aft = Some m ->
  exists pre url, group m 1 = Some pre /\ group m 2 = Some url.
Proof.
  intros H. apply AutoLink_match in H.
  destruct H as [c [scheme [body [lastc [rest H]]]]].
  exists [c], (scheme ++ lit "://" ++ body ++ [lastc]). tauto.
Qed.

(** ** Transform.run rewrites as specified *)

Lemma search_no_match (r : regex) (aft : str) :
  forall bef,
    (forall p s, aft = p ++ s -> match_at r (rev p ++ bef) s = None) ->
    search r bef aft = None.
Proof.
  induction aft as [|c aft IH]; intros bef H; simpl.
  - pose proof (H [] [] eq_refl) as H0. simpl in H0. now rewrite H0.
  - pose proof (H [] (c :: aft) eq_refl) as H0. simpl in H0. rewrite H0.
    apply IH.
    intros p s E. pose proof (H (c :: p) s) as H1. simpl in H1.
    rewrite <- app_assoc in H1. apply H1. now rewrite E.
Qed.

Lemma finditer_no_match (r : regex) (content : str) :
  (forall p s, content = p ++ s -> match_at r (rev p) s = None) ->
  finditer r content = [].
Proof.
  intros H. unfold finditer. simpl.
  rewrite search_no_match; [reflexivity|].
  intros p s E. rewrite app_nil_r. now apply H.
Qed.


(** When the leftmost match of the input is known, the rewriting emits
    the text before it and its replacement, and goes on behind it. *)
Lemma rewrites_first_match (W : Type) (t : Transform W)
    (bef pre : str) (m : Match) (rest : str) (w : W) (out : str) (w' : W) :
  (forall p s, pre = p ++ s -> s <> [] ->
     match_at (regexp t) (rev p ++ bef) (s ++ m_text m ++ rest) = None) ->
  match_at (regexp t) (rev pre ++ bef) (m_text m ++ rest) = Some m ->
  m_text m <> [] ->
  rewrites t bef (pre ++ m_text m ++ rest) w out w' ->
  exists out',
    out = pre ++ fst (replace t m w) ++ out' /\
    rewrites t (rev (m_text m) ++ rev pre ++ bef) rest
             (snd (replace t m w)) out' w'.
Proof.
  intros Hno Hm Hne Hrw.
  remember (pre ++ m_text m ++ rest) as aft eqn:Eaft.
  destruct Hrw as [bef aft w Hnone
                  | bef gap m0 rest0 w rep w1 out w2 Hno0 Hm0 Hne0 Hrep Hrw
                  | bef gap m0 w rep w1 Hno0 Hm0 Hrep
                  | bef gap m0 c rest0 w rep w1 out w2 Hno0 Hm0 Het Hrep Hrw].
  - pose proof (Hnone pre (m_text m ++ rest) Eaft). congruence.
  - apply app_eq_app in Eaft.
    destruct Eaft as [[|c l] [[Eg Et] | [Ep Et]]];
      rewrite ?app_nil_r in *; simpl in Et.
    + subst gap. assert (m0 = m) by congruence. subst m0.
      apply app_inv_head in Et. subst rest0.
      rewrite Hrep. simpl. now exists out.
    + subst gap. assert (m0 = m) by congruence. subst m0.
      apply app_inv_head in Et. subst rest0.
      rewrite Hrep. simpl. now exists out.
    + pose proof (Hno0 pre (c :: l) Eg ltac:(discriminate)) as Hc.
      simpl in Hc. congruence.
    + pose proof (Hno gap (c :: l) Ep ltac:(discriminate)) as Hc.
      simpl in Hc. congruence.
  - assert (Hs : m_text m ++ rest <> [])
      by (destruct (m_text m); [congruence | discriminate]).
    pose proof (Hno0 pre (m_text m ++ rest) Eaft Hs). congruence.
  - apply app_eq_app in Eaft.
    destruct Eaft as [[|c' l] [[Eg Et] | [Ep Et]]];
      rewrite ?app_nil_r in *; simpl in Et.
    + subst gap. assert (m0 = m) by congruence. congruence.
    + subst gap. assert (m0 = m) by congruence. congruence.
    + pose proof (Hno0 pre (c' :: l) Eg ltac:(discriminate)) as Hc.
      simpl in Hc. congruence.
    + pose proof (Hno gap (c' :: l) Ep ltac:(discriminate)) as Hc.
      simpl in Hc. congruence.
Qed.

Lemma rewrites_first_empty (W : Type) (t : Transform W)
    (bef pre : str) (m : Match) (c : ascii) (rest : str) (w : W)
    (out : str) (w' : W) :
  (forall p s, pre = p ++ s -> s <> [] ->
     match_at (regexp t) (rev p ++ bef) (s ++ c :: rest) = None) ->
  match_at (regexp t) (rev pre ++ bef) (c :: rest) = Some m ->
  m_text m = [] ->
  rewrites t bef (pre ++ c :: rest) w out w' ->
  exists out',
    out = pre ++ fst (replace t m w) ++ c :: out' /\
    rewrites t (c :: rev pre ++ bef) rest (snd (replace t m w)) out' w'.
Proof.
  intros Hno Hm Het Hrw.
  remember (pre ++ c :: rest) as aft eqn:Eaft.
  destruct Hrw as [bef aft w Hnone
                  | bef gap m0 rest0 w rep w1 out w2 Hno0 Hm0 Hne0 Hrep Hrw
                  | bef gap m0 w rep w1 Hno0 Hm0 Hrep
                  | bef gap m0 c0 rest0 w rep w1 out w2 Hno0 Hm0 Het0 Hrep Hrw].
  - pose proof (Hnone pre (c :: rest) Eaft). congruence.
  - apply app_eq_app in Eaft.
    destruct Eaft as [[|x l] [[Eg Et] | [Ep Et]]];
      rewrite ?app_nil_r in *; simpl in Et.
    + subst gap. assert (m0 = m) by congruence. congruence.
    + subst gap. assert (m0 = m) by congruence. congruence.
    + pose proof (Hno0 pre (x :: l) Eg ltac:(discriminate)) as Hc.
      simpl in Hc. congruence.
    + pose proof (Hno gap (x :: l) Ep ltac:(discriminate)) as Hc.
      simpl in Hc. congruence.
  - pose proof (Hno0 pre (c :: rest) Eaft ltac:(discriminate)). congruence.
  - apply app_eq_app in Eaft.
    destruct Eaft as [[|x l] [[Eg Et] | [Ep Et]]];
      rewrite ?app_nil_r in *; simpl in Et.
    + subst gap. assert (m0 = m) by congruence. subst m0.
      injection Et as <- <-. rewrite Hrep. simpl. now exists out.
    + subst gap. assert (m0 = m) by congruence. subst m0.
      injection Et as <- <-. rewrite Hrep. simpl. now exists out.
    + pose proof (Hno0 pre (x :: l) Eg ltac:(discriminate)) as Hc.
      simpl in Hc. congruence.
    + pose proof (Hno gap (x :: l) Ep ltac:(discriminate)) as Hc.
      simpl in Hc. congruence.
Qed.


(** The rewriting is a function of the input and the state: the output
    and the final state are determined. *)
Lemma rewrites_deterministic (W : Type) (t : Transform W)
    (bef aft : str) (w : W) (out1 : str) (w1 : W) :
  rewrites t bef aft w out1 w1 ->
  forall out2 w2, rewrites t bef aft w out2 w2 -> out1 = out2 /\ w1 = w2.
Proof.
  induction 1 as [bef aft w Hnone
                 | bef gap m rest w rep wa out wb Hno Hm Hne Hrep Hrw IH
                 | bef gap m w rep wa Hno Hm Hrep
                 | bef gap m c rest w rep wa out wb Hno Hm Het Hrep Hrw IH];
    intros out2 w2 H2.
  - remember aft as aft' eqn:Eaft in H2 at 1.
    destruct H2 as [bef aft' w _
                   | bef gap m rest w rep wa out wb _ Hm _ _ _
                   | bef gap m w rep wa _ Hm _
                   | bef gap m c rest w rep wa out wb _ Hm _ _ _].
    + now subst.
    + pose proof (Hnone gap _ (eq_sym Eaft)). congruence.
    + pose proof (Hnone gap [] ltac:(now rewrite app_nil_r)). congruence.
    + pose proof (Hnone gap _ (eq_sym Eaft)). congruence.
  - destruct (@rewrites_first_match W t _ _ _ _ _ _ _ Hno Hm Hne H2) as [out' [-> Hrw']].
    rewrite Hrep in Hrw' |- *. simpl in Hrw' |- *.
    destruct (IH _ _ Hrw') as [-> ->]. now split.
  - remember gap as aft eqn:Eaft in H2.
    destruct H2 as [bef aft w Hnone
                   | bef gap' m' rest w rep' wa' out wb _ Hm' Hne' _ _
                   | bef gap' m' w rep' wa' _ Hm' Hrep'
                   | bef gap' m' c rest w rep' wa' out wb _ Hm' _ _ _].
    + pose proof (Hnone gap [] ltac:(now rewrite app_nil_r)). congruence.
    + assert (Hs : m_text m' ++ rest <> [])
        by (destruct (m_text m'); [congruence | discriminate]).
      pose proof (Hno gap' (m_text m' ++ rest) (eq_sym Eaft) Hs). congruence.
    + subst gap'. assert (m' = m) by congruence. subst m'.
      rewrite Hrep in Hrep'. injection Hrep' as <- <-. now split.
    + pose proof (Hno gap' (c :: rest) (eq_sym Eaft) ltac:(discriminate)).
      congruence.
  - destruct (@rewrites_first_empty W t _ _ _ _ _ _ _ _ Hno Hm Het H2) as [out' [-> Hrw']].
    rewrite Hrep in Hrw' |- *. simpl in Hrw' |- *.
    destruct (IH _ _ Hrw') as [-> ->]. now split.
Qed.

(** The output of [Transform.run] is the rewriting of the input. *)
Lemma run_is_rewriting (W : Type) (t : Transform W) (content : str) (w : W) :
  rewrites t [] content w (fst (run t content w)) (snd (run t content w)).
Proof.
  unfold run, finditer.
  destruct (fold_left (run_step t content)
              (finditer_from (regexp t) (S (length content)) content 0)
              ([], 0, w)) as [[parts' offset'] w'] eqn:E.
  destruct (@run_loop W t content (S (length content)) [] content [] 0 w
              parts' offset' w') as [out [Hout Hrw]];
    [reflexivity | lia | simpl; lia | exact E |].
  simpl in Hout |- *. now rewrite Hout.
Qed.

(** An input in which the pattern matches nowhere is returned as it
    is. *)
Lemma run_no_match (W : Type) (t : Transform W) (content : str) (w : W) :
  (forall p s, content = p ++ s -> match_at (regexp t) (rev p) s = None) ->
  run t content w = (content, w).
Proof.
  intros H. unfold run. rewrite (finditer_no_match _ H). simpl.
  now rewrite app_nil_r.
Qed.

(** C1.  For every transform, input and state of the world, the output
    of [Transform.run] is the rewriting of the input the specification
    describes, and the only one: the input is scanned from the left for
    the leftmost match, the text before it is emitted unchanged, then
    the replacement of the match, and the scan goes on behind the
    match; the text after the last match is emitted unchanged.  An
    input in which the pattern matches nowhere is returned unchanged. *)
Theorem Transform_run_rewrites (W : Type) (t : Transform W) (content : str)
    (w : W) :
  rewrites t [] content w (fst (run t content w)) (snd (run t content w)) /\
  (forall out w', rewrites t [] content w out w' -> run t content w = (out, w')) /\
  ((forall p s, content = p ++ s -> match_at (regexp t) (rev p) s = None) ->
   run t content w = (content, w)).
Proof.
  split; [apply run_is_rewriting|]. split.
  - intros out w' H.
    destruct (rewrites_deterministic (run_is_rewriting t content w) H)
      as [<- <-].
    now destruct (run t content w).
  - apply run_no_match.
Qed.

(** ** Page.exists *)

Lemma cache_get_delete_other (V : Type) (k k' : str) (c : list (str * V)) :
  k <> k' -> cache_get k' (cache_delete k c) = cache_get k' c.
Proof.
  intros Hne. induction c as [|[k0 v] c IH]; simpl; [reflexivity|].
  destruct (str_eqb k0 k) eqn:E0; simpl.
  - apply str_eqb_eq in E0. subst k0.
    destruct (str_eqb k k') eqn:E1; [|exact IH].
    apply str_eqb_eq in E1. contradiction.
  - now rewrite IH.
Qed.

Lemma Page_exists_fst (nm : str) (w : World) :
  fst (Page_exists nm w)
  = match cache_get (lit "page_" ++ nm) (page_cache w) with
    | Some _ => true
    | None =>
        match filter (fun e => Kind_eqb (e_kind e) KPage
                               && str_eqb (e_name e) (strip_underscores nm))
                     (datastore w) with
        | [] => false
        | _ :: _ => true
        end
    end.
Proof.
  unfold Page_exists, Page_load, Query.
  destruct (cache_get (lit "page_" ++ nm) (page_cache w)); [reflexivity|].
  now destruct (filter _ (datastore w)).
Qed.

(** A lookup does not change what later lookups find. *)
Lemma Page_exists_stable (n1 n2 : str) (w : World) :
  fst (Page_exists n2 (snd (Page_exists n1 w))) = fst (Page_exists n2 w).
Proof.
  rewrite !Page_exists_fst.
  unfold Page_exists, Page_load, Query.
  destruct (cache_get (lit "page_" ++ n1) (page_cache w)) as [d|] eqn:C1;
    [reflexivity|].
  destruct (filter _ (datastore w)) as [|e l] eqn:Q1; [reflexivity|].
  cbn [Page_init snd memcache_set_page page_cache datastore cache_set
       cache_get fst].
  destruct (str_eqb (lit "page_" ++ n1) (lit "page_" ++ n2)) eqn:E.
  - apply str_eqb_eq, app_inv_head in E. subst n2.
    now rewrite C1, Q1.
  - rewrite cache_get_delete_other; [reflexivity|].
    intros Heq. rewrite Heq, str_eqb_refl in E. discriminate.
Qed.

(** C2.  The replacement of a WikiWord is decided by the existence
    lookup on the matched token: an anchor of class [wikiword] to
    [/token] when the page exists, and otherwise an anchor of class
    [wikiword_new] to [/token?mode=edit] whose title says that the page
    does not exist yet.  With FooBar existing and BazQux not, the text
    [FooBar and BazQux] becomes the first kind of anchor for FooBar and
    the second kind for BazQux. *)
Theorem WikiWords_links_by_existence :
  (forall m w,
     fst (WikiWords_replace m w)
     = if fst (Page_exists (m_text m) w)
       then lit "<a class=" ++ quoted (lit "wikiword") ++ lit " href="
            ++ quoted (lit "/" ++ m_text m) ++ lit ">" ++ m_text m
            ++ lit "</a>"
       else lit "<a title="
            ++ quoted (m_text m
                       ++ lit " does not exist yet. Click to create it.")
            ++ lit " class=" ++ quoted (lit "wikiword_new") ++ lit " href="
            ++ quoted (lit "/" ++ m_text m ++ lit "?mode=edit") ++ lit ">"
            ++ m_text m ++ lit "?</a>") /\
  (forall w,
     fst (Page_exists (lit "FooBar") w) = true ->
     fst (Page_exists (lit "BazQux") w) = false ->
     fst (run WikiWords (lit "FooBar and BazQux") w)
     = lit "<a class=" ++ quoted (lit "wikiword") ++ lit " href="
       ++ quoted (lit "/FooBar") ++ lit ">FooBar</a> and <a title="
       ++ quoted (lit "BazQux does not exist yet. Click to create it.")
       ++ lit " class=" ++ quoted (lit "wikiword_new") ++ lit " href="
       ++ quoted (lit "/BazQux?mode=edit") ++ lit ">BazQux?</a>").
Proof.
  split.
  - intros m w. unfold WikiWords_replace.
    destruct (Page_exists (m_text m) w) as [[|] w']; reflexivity.
  - intros w Hfoo Hbaz.
    pose proof (Page_exists_stable (lit "FooBar") (lit "BazQux") w) as Hst.
    rewrite Hbaz in Hst.
    unfold run.
    replace (finditer (regexp WikiWords) (lit "FooBar and BazQux"))
      with [MkMatch 0 6 (lit "FooBar")
                    [(2, lit "Bar"); (3, lit "B"); (1, lit "F")];
            MkMatch 11 17 (lit "BazQux")
                    [(2, lit "Qux"); (3, lit "Q"); (1, lit "B")]]
      by (vm_compute; reflexivity).
    cbn [fold_left]. unfold run_step. cbn [replace WikiWords].
    unfold WikiWords_replace. cbn [m_text m_start m_end].
    destruct (Page_exists (lit "FooBar") w) as [f1 w1].
    cbn [fst snd] in Hfoo, Hst. subst f1.
    destruct (Page_exists (lit "BazQux") w1) as [f2 w2].
    cbn [fst] in Hst. subst f2.
    vm_compute. reflexivity.
Qed.

Lemma WikiWords_links_by_existence_witness :
  fst (run WikiWords (lit "FooBar and BazQux") world_FooBar)
  = lit "<a class=" ++ quoted (lit "wikiword") ++ lit " href="
    ++ quoted (lit "/FooBar") ++ lit ">FooBar</a> and <a title="
    ++ quoted (lit "BazQux does not exist yet. Click to create it.")
    ++ lit " class=" ++ quoted (lit "wikiword_new") ++ lit " href="
    ++ quoted (lit "/BazQux?mode=edit") ++ lit ">BazQux?</a>".
Proof.
  apply (proj2 WikiWords_links_by_existence world_FooBar); reflexivity.
Defined.

(** ** WikiWords: what the pattern takes for a WikiWord *)

Lemma within_word_VALID_WIKINAME : within is_word _VALID_WIKINAME.
Proof.
  assert (Hu : forall c,
             cset_has false [CRange "A" "Z"; CRange "0" "9"] c = true ->
             is_word c = true).
  { intros c. unfold cset_has, is_word. cbn [existsb citem_has xorb].
    destruct (in_range "a" "z" c), (in_range "A" "Z" c),
      (in_range "0" "9" c); simpl; congruence. }
  assert (Hw : forall c, cset_has false [CWord] c = true -> is_word c = true).
  { intros c. unfold cset_has. cbn [existsb citem_has xorb].
    now rewrite orb_false_r. }
  simpl. auto.
Qed.

Lemma derives_VALID_WIKINAME_head (w : str) :
  derives _VALID_WIKINAME w ->
  exists c rest,
    w = c :: rest /\
    cset_has false [CRange "A" "Z"; CRange "0" "9"] c = true.
Proof.
  unfold _VALID_WIKINAME, upper_or_digit. intros H.
  inversion H as [| | | r1 r2 w1 w2 H1 H2 | | | | |]; subst.
  inversion H1 as [| | | | | | | | n r w0 H0]; subst.
  inversion H0 as [|neg items c Hc | | | | | | |]; subst.
  now exists c, w2.
Qed.

(** C3, as the code has it.  The pattern does not reject underscores:
    [\w] takes them, and [Foo_Bar] is matched whole.  For every input,
    every token the WikiWords pattern matches consists of word
    characters only (ASCII letters, digits and the underscore, so no
    separator), begins with an upper-case letter or a digit and has at
    least four characters. *)
Theorem WikiWords_tokens_are_word_runs :
  (forall content,
     Forall (fun m =>
               forallb is_word (m_text m) = true /\
               4 <= length (m_text m) /\
               exists c rest,
                 m_text m = c :: rest /\
                 (in_range "A" "Z" c || in_range "0" "9" c) = true)
            (finditer _VALID_WIKINAME content)) /\
  map m_text (finditer _VALID_WIKINAME (lit "Foo_Bar")) = [lit "Foo_Bar"].
Proof.
  split; [|vm_compute; reflexivity].
  intros content. apply finditer_Forall. intros pre aft m _ Hm.
  apply match_at_derives in Hm. split; [|split].
  - exact (@derives_within is_word _ _ Hm within_word_VALID_WIKINAME).
  - exact (derives_min_len Hm).
  - destruct (derives_VALID_WIKINAME_head Hm) as [c [rest [E Hc]]].
    exists c, rest. split; [exact E|].
    unfold cset_has in Hc. cbn [existsb citem_has xorb] in Hc.
    now rewrite orb_false_r in Hc.
Qed.

(** The claim C3 as stated fails: on [Foo_Bar] the only match is the
    whole text, underscore included. *)
Lemma WikiWords_accepts_underscore :
  map m_text (finditer _VALID_WIKINAME (lit "Foo_Bar")) = [lit "Foo_Bar"] /\
  ~ (forall content,
       Forall (fun m => ~ In "_"%char (m_text m))
              (finditer _VALID_WIKINAME content)).
Proof.
  split; [vm_compute; reflexivity|].
  intros H. specialize (H (lit "Foo_Bar")).
  replace (finditer _VALID_WIKINAME (lit "Foo_Bar"))
    with [MkMatch 0 7 (lit "Foo_Bar")
                  [(2, lit "Bar"); (3, lit "B"); (1, lit "F")]] in H
    by (vm_compute; reflexivity).
  inversion H as [|m l Hm _]; subst. apply Hm. simpl. tauto.
Qed.

(** ** HideReferers *)



Lemma occurs_unfold (needle hay : str) :
  occurs needle hay
  = starts_with needle hay
    || match hay with [] => false | _ :: hay' => occurs needle hay' end.
Proof. destruct hay; reflexivity. Qed.

Lemma occurs_app (needle pre rest : str) :
  occurs needle (pre ++ needle ++ rest) = true.
Proof.
  induction pre as [|c pre IH]; rewrite occurs_unfold.
  - simpl app. now rewrite starts_with_app.
  - cbn [app]. rewrite IH. apply orb_true_r.
Qed.

Lemma HideReferers_replace_match (bef aft : str) (m : Match) :
  match_at HideReferers_regexp bef aft = Some m ->
  exists url,
    m_text m = lit "href=" ++ quoted url /\
    group m 1 = Some url /\
    starts_with (lit "http") url = true /\
    HideReferers_replace m = lit "href=" ++ quoted (indirection ++ quote url).
Proof.
  intros H. apply HideReferers_match in H.
  destruct H as [u [rest [_ [_ [_ [Ht Hg]]]]]].
  exists (lit "http" ++ u). unfold HideReferers_replace. rewrite Hg.
  repeat split. exact Ht.
Qed.


Lemma forallb_suffix (f : ascii -> bool) (p s : str) :
  forallb f (p ++ s) = true -> forallb f s = true.
Proof. rewrite forallb_app. intros H. now apply andb_true_iff in H. Qed.

Lemma starts_nowhere_b_ok (needle gap rest : str) :
  starts_nowhere_b needle gap rest = true -> starts_nowhere needle gap rest.
Proof.
  induction gap as [|c gap IH]; intros H p s E Hs.
  - destruct p; [simpl in E; congruence | discriminate E].
  - simpl in H. apply andb_true_iff in H. destruct H as [H1 H2].
    destruct p as [|c' p]; simpl in E.
    + subst s. now apply negb_true_iff in H1.
    + injection E as <- E. now apply (IH H2 p s).
Qed.

Lemma starts_nowhere_app (needle x y rest : str) :
  starts_nowhere needle x (y ++ rest) ->
  starts_nowhere needle y rest ->
  starts_nowhere needle (x ++ y) rest.
Proof.
  intros Hx Hy p s E Hs.
  apply app_eq_app in E. destruct E as [l [[Ex Es] | [Ep Ey]]].
  - destruct l as [|c l].
    + simpl in Es. subst s. rewrite app_nil_r in Ex.
      destruct y as [|c y]; [congruence|].
      now apply (Hy [] (c :: y)).
    + subst s. rewrite <- app_assoc.
      apply (Hx p (c :: l) Ex). discriminate.
  - apply (Hy l s Ey Hs).
Qed.

Lemma HideReferers_match_starts (bef aft : str) (m : Match) :
  match_at HideReferers_regexp bef aft = Some m ->
  starts_with href_http aft = true.
Proof.
  intros H. apply HideReferers_match in H.
  destruct H as [u [rest [_ [_ [E _]]]]]. rewrite E.
  replace (lit "href=" ++ quoted (lit "http" ++ u) ++ rest)
    with (href_http ++ u ++ [dq] ++ rest)
    by (unfold href_http, quoted; now rewrite <- !app_assoc).
  apply starts_with_app.
Qed.









(** C5, as the code has it.  The original URL is carried URL-encoded in
    the query parameter named [q], after [sa=D], of the address
    [http://www.google.com/url]: for every content, the replacement of
    every match is the attribute with the value
    [http://www.google.com/url?sa=D&amp;q=] followed by the encoded
    URL of group 1. *)
Theorem HideReferers_carries_url_in_q (content : str) :
  Forall (fun m =>
            exists url,
              group m 1 = Some url /\
              HideReferers_replace m
              = lit "href="
                ++ quoted (lit "http://www.google.com/url?sa=D&amp;q="
                           ++ quote url))
         (finditer HideReferers_regexp content).
Proof.
  apply finditer_Forall. intros pre aft m _ Hm.
  destruct (HideReferers_replace_match _ _ Hm) as [url [_ [Hg [_ Hr]]]].
  now exists url.
Qed.

(** The claim C5 as stated fails: the rewritten attribute has no
    parameter named [target]. *)
Lemma HideReferers_has_no_target_parameter :
  fst (run HideReferers
           (lit "<a href=" ++ quoted (lit "http://external.site/x")
            ++ lit ">x</a>") world_FooBar)
  = lit "<a href="
    ++ quoted (lit "http://www.google.com/url?sa=D&amp;q=http%3A//external.site/x")
    ++ lit ">x</a>" /\
  occurs (lit "target=")
         (fst (run HideReferers
                   (lit "<a href=" ++ quoted (lit "http://external.site/x")
                    ++ lit ">x</a>") world_FooBar))
  = false.
Proof. split; vm_compute; reflexivity. Qed.

(** ** AutoLink *)

(** C6.  On [See http://example.com/page for info.] the output of
    AutoLink has the anchor of class [autourl] around the URL, the
    space before the URL is kept, and the text behind the URL, full
    stop included, is outside the anchor.  A full stop right behind a
    URL stays outside the anchor too.  For every content, the
    replacement of a match is the character before the URL followed by
    the anchor around the URL, and the URL does not end in a full
    stop. *)
Theorem AutoLink_links_url_keeping_neighbours :
  (forall w,
     fst (run AutoLink (lit "See http://example.com/page for info.") w)
     = lit "See <a class=" ++ quoted (lit "autourl") ++ lit " href="
       ++ quoted (lit "http://example.com/page")
       ++ lit ">http://example.com/page</a> for info.") /\
  (forall w,
     fst (run AutoLink (lit "Visit http://example.com/page.") w)
     = lit "Visit <a class=" ++ quoted (lit "autourl") ++ lit " href="
       ++ quoted (lit "http://example.com/page")
       ++ lit ">http://example.com/page</a>.") /\
  (forall content,
     Forall (fun m =>
               exists c body lastc,
                 m_text m = c :: body ++ [lastc] /\
                 lastc <> "."%char /\
                 AutoLink_replace m
                 = c :: lit "<a class=" ++ quoted (lit "autourl")
                     ++ lit " href=" ++ quoted (body ++ [lastc]) ++ lit ">"
                     ++ (body ++ [lastc]) ++ lit "</a>")
            (finditer AutoLink_regexp content)).
Proof.
  split; [intros w; vm_compute; reflexivity|].
  split; [intros w; vm_compute; reflexivity|].
  intros content. apply finditer_Forall. intros pre aft m _ Hm.
  apply AutoLink_match in Hm.
  destruct Hm as [c [scheme [body [lastc
                  [rest [_ [_ [_ [_ [_ [Hlast [_ [Ht [Hg1 Hg2]]]]]]]]]]]]]].
  exists c, (scheme ++ lit "://" ++ body), lastc.
  assert (E : (scheme ++ lit "://" ++ body) ++ [lastc]
              = scheme ++ lit "://" ++ body ++ [lastc])
    by now rewrite <- !app_assoc.
  rewrite E. split; [exact Ht|]. split.
  - intros ->. vm_compute in Hlast. discriminate.
  - unfold AutoLink_replace. now rewrite Hg1, Hg2.
Qed.

(** A match of the AutoLink pattern in a content that begins with a
    scheme cannot begin before the last character of the scheme: the
    character before a linked URL is followed by [http]. *)
Lemma AutoLink_not_in_scheme (scheme rest pre aft : str) (m : Match) :
  scheme = lit "http://" \/ scheme = lit "https://" ->
  scheme ++ rest = pre ++ aft ->
  match_at AutoLink_regexp (rev pre) aft = Some m ->
  length scheme <= S (length pre).
Proof.
  intros Hs E Hm. apply AutoLink_match in Hm.
  destruct Hm as [c [sch [body [lastc [rest' [_ [_ [Hsch [_ [_ [_ [Ea _]]]]]]]]]]]].
  subst aft.
  destruct Hs as [-> | ->];
    destruct pre as [|p1 [|p2 [|p3 [|p4 [|p5 [|p6 [|p7 pre]]]]]]];
    try (simpl; lia);
    destruct Hsch as [-> | ->]; simpl in E; discriminate E.
Qed.

Lemma prefix_of_both (scheme rest a x : str) :
  scheme ++ rest = a ++ x -> length scheme <= length a ->
  exists d, a = scheme ++ d.
Proof.
  intros E Hlen. apply app_eq_app in E.
  destruct E as [l [[Es _] | [Ea _]]]; [|now exists l].
  assert (l = []).
  { apply (f_equal (@length ascii)) in Es. rewrite length_app in Es.
    destruct l; [reflexivity | simpl in Es; lia]. }
  subst l. rewrite app_nil_r in Es. exists []. now rewrite app_nil_r.
Qed.

(** C10.  The pattern of AutoLink takes one character, which is no
    double quote, before the URL: in every match group 1 is that
    character and group 2, the URL, begins one character behind the
    begin of the match.  So in a content that begins with [http://] or
    [https://] no match has its URL at position 0: every linked URL
    begins behind the leading scheme, and the output begins with the
    scheme as it was, not with an anchor.  A content that is just a URL
    is returned unchanged. *)
Theorem AutoLink_skips_leading_url :
  (forall content,
     Forall (fun m =>
               exists c url,
                 Ascii.eqb dq c = false /\
                 m_text m = c :: url /\
                 group m 1 = Some [c] /\
                 group m 2 = Some url)
            (finditer AutoLink_regexp content)) /\
  (forall scheme rest w,
     scheme = lit "http://" \/ scheme = lit "https://" ->
     Forall (fun m => length scheme <= S (m_start m))
            (finditer AutoLink_regexp (scheme ++ rest)) /\
     exists out, fst (run AutoLink (scheme ++ rest) w) = scheme ++ out) /\
  (forall w,
     run AutoLink (lit "http://example.com/page") w
     = (lit "http://example.com/page", w)).
Proof.
  split; [|split].
  - intros content. apply finditer_Forall. intros pre aft m _ Hm.
    apply AutoLink_match in Hm.
    destruct Hm as [c [scheme [body [lastc
                    [rest [Hc [_ [_ [_ [_ [_ [_ [Ht [Hg1 Hg2]]]]]]]]]]]]]].
    now exists c, (scheme ++ lit "://" ++ body ++ [lastc]).
  - intros scheme rest w Hs. split.
    + apply finditer_Forall. intros pre aft m E Hm.
      destruct (match_at_Some _ _ _ Hm) as [-> _]. rewrite length_rev.
      exact (AutoLink_not_in_scheme _ _ _ Hs E Hm).
    + pose proof (run_is_rewriting AutoLink (scheme ++ rest) w) as Hrw.
      remember (scheme ++ rest) as content eqn:Ec.
      remember (@nil ascii) as bef eqn:Eb.
      destruct Hrw as [bef aft w Hnone
                      | bef gap m rest0 w rep w1 out w2 Hno Hm Hne Hrep Hrw
                      | bef gap m w rep w1 Hno Hm Hrep
                      | bef gap m c rest0 w rep w1 out w2 Hno Hm Het Hrep Hrw];
        subst bef; rewrite ?app_nil_r in *.
      * now exists rest.
      * pose proof (AutoLink_not_in_scheme _ _ _ Hs (eq_sym Ec) Hm) as Hlen.
        apply AutoLink_match in Hm.
        destruct Hm as [c [sch [body [lastc
                        [r [_ [_ [_ [_ [_ [_ [_ [Ht [Hg1 Hg2]]]]]]]]]]]]]].
        cbn [replace AutoLink] in Hrep. injection Hrep as <- <-.
        unfold AutoLink_replace. rewrite Hg1, Hg2.
        rewrite Ht in Ec.
        destruct (@prefix_of_both scheme rest (gap ++ [c])
                    ((sch ++ lit "://" ++ body ++ [lastc]) ++ rest0))
          as [d Ed].
        { rewrite <- Ec, <- !app_assoc. f_equal. cbn [app]. f_equal.
          now rewrite <- !app_assoc. }
        { rewrite length_app. simpl. lia. }
        eexists.
        rewrite <- (app_assoc [c]), (app_assoc gap [c]), Ed, <- app_assoc.
        reflexivity.
      * apply AutoLink_match in Hm.
        destruct Hm as [c [sch [body [lastc [r [_ [_ [_ [_ [_ [_ [Ea _]]]]]]]]]]]].
        discriminate Ea.
      * apply AutoLink_match in Hm.
        destruct Hm as [c' [sch [body [lastc
                        [r [_ [_ [_ [_ [_ [_ [_ [Ht _]]]]]]]]]]]]].
        congruence.
  - intros w. vm_compute. reflexivity.
Qed.

Lemma AutoLink_skips_leading_url_witness :
  Forall (fun m => length (lit "http://") <= S (m_start m))
         (finditer AutoLink_regexp (lit "http://" ++ lit "http://b.com/x")) /\
  exists out,
    fst (run AutoLink (lit "http://" ++ lit "http://b.com/x") world_FooBar)
    = lit "http://" ++ out.
Proof.
  apply (proj1 (proj2 AutoLink_skips_leading_url)). left. reflexivity.
Defined.

Lemma Transform_run_rewrites_witness :
  run AutoLink (lit "ab") world_FooBar = (lit "ab", world_FooBar).
Proof.
  apply (proj2 (proj2 (Transform_run_rewrites AutoLink (lit "ab")
                                              world_FooBar))).
  intros p s E.
  destruct p as [|a [|b [|c p]]]; simpl in E.
  - subst s. reflexivity.
  - injection E as <- <-. reflexivity.
  - injection E as <- <- <-. reflexivity.
  - discriminate E.
Defined.

(** ** History and diff *)

Section HistoryProperties.

Variable Key_decode : str -> option nat.
Variable strftime : nat -> str.
Variable make_table : list str -> list str -> str -> str -> str.

Lemma load_from_history_absent (nm key : str) (k : nat) (w : World) :
  Key_decode key = Some k -> stored nm k w = [] ->
  load_from_history Key_decode nm key w = Ok None w.
Proof.
  intros Hk Hq. unfold load_from_history. rewrite Hk.
  unfold stored in Hq. now rewrite Hq.
Qed.

Lemma load_from_history_present (nm key : str) (k : nat) (w : World)
    (e : Entity) (l : list Entity) :
  Key_decode key = Some k -> stored nm k w = e :: l ->
  load_from_history Key_decode nm key w
  = Ok (Some (fst (Page_init nm (Some e) w))) w.
Proof.
  intros Hk Hq. unfold load_from_history. rewrite Hk.
  unfold stored in Hq. now rewrite Hq.
Qed.

Lemma load_from_history_malformed (nm key : str) (w : World) :
  Key_decode key = None ->
  load_from_history Key_decode nm key w = Raise BadKeyError w.
Proof. intros Hk. unfold load_from_history. now rewrite Hk. Qed.

(** Well-formed identifiers resolve or not, and do not touch the
    world. *)
Lemma load_from_history_well_formed (nm key : str) (k : nat) (w : World) :
  Key_decode key = Some k ->
  exists r, load_from_history Key_decode nm key w = Ok r w /\
            (r = None <-> stored nm k w = []).
Proof.
  intros Hk. destruct (stored nm k w) as [|e l] eqn:Hq.
  - exists None. split; [exact (@load_from_history_absent nm key k w Hk Hq)|tauto].
  - eexists. split; [exact (@load_from_history_present nm key k w e l Hk Hq)|].
    split; discriminate.
Qed.

(** When both entries resolve and have an author, the diff is the table
    of the two contents, split in lines, under the two captions. *)
Lemma diff_history_captions (self : Page) (v1 v2 : str) (k1 k2 : nat)
    (w : World) (e1 e2 : Entity) (l1 l2 : list Entity) (u1 u2 : User) :
  Key_decode v1 = Some k1 -> Key_decode v2 = Some k2 ->
  stored (name self) k1 w = e1 :: l1 ->
  stored (name self) k2 w = e2 :: l2 ->
  e_user e1 = Some u1 -> e_user e2 = Some u2 ->
  diff_history Key_decode strftime make_table self v1 v2 w
  = Ok (Some (make_table
                (splitlines (e_content e1)) (splitlines (e_content e2))
                (lit "Edited on " ++ strftime (e_created e1) ++ lit " by "
                 ++ nickname u1)
                (lit "Edited on " ++ strftime (e_created e2) ++ lit " by "
                 ++ nickname u2))) w.
Proof.
  intros H1 H2 Q1 Q2 U1 U2. unfold diff_history, bind.
  rewrite (@load_from_history_present (name self) v1 k1 w e1 l1 H1 Q1).
  rewrite (@load_from_history_present (name self) v2 k2 w e2 l2 H2 Q2).
  unfold describe, user_nickname, bind, ret. simpl. now rewrite U1, U2.
Qed.

(** When both entries resolve and one has no author, the diff raises
    instead of giving a caption. *)
Lemma diff_history_anonymous_raises (self : Page) (v1 v2 : str) (k1 k2 : nat)
    (w : World) (e1 e2 : Entity) (l1 l2 : list Entity) :
  Key_decode v1 = Some k1 -> Key_decode v2 = Some k2 ->
  stored (name self) k1 w = e1 :: l1 ->
  stored (name self) k2 w = e2 :: l2 ->
  e_user e1 = None \/ e_user e2 = None ->
  diff_history Key_decode strftime make_table self v1 v2 w
  = Raise (AttributeError "nickname") w.
Proof.
  intros H1 H2 Q1 Q2 HU. unfold diff_history, bind.
  rewrite (@load_from_history_present (name self) v1 k1 w e1 l1 H1 Q1).
  rewrite (@load_from_history_present (name self) v2 k2 w e2 l2 H2 Q2).
  unfold describe, user_nickname, bind, ret, raise. simpl.
  destruct (e_user e1); [|reflexivity].
  destruct HU as [HU | HU]; [discriminate | now rewrite HU].
Qed.

(** C8, as the code has it.  For every page and every pair of
    well-formed version identifiers, if either of them resolves to no
    stored history entry of that page name, [diff_history] returns
    [None], raises nothing and leaves the world as it was.  Both
    identifiers are decoded before the check, so a malformed identifier
    raises [BadKeyError] whatever the other one is. *)
Theorem diff_history_not_found (self : Page) (v1 v2 : str) (w : World) :
  (forall k1 k2,
     Key_decode v1 = Some k1 -> Key_decode v2 = Some k2 ->
     stored (name self) k1 w = [] \/ stored (name self) k2 w = [] ->
     diff_history Key_decode strftime make_table self v1 v2 w = Ok None w) /\
  (Key_decode v1 = None \/
   (exists k1, Key_decode v1 = Some k1) /\ Key_decode v2 = None ->
   diff_history Key_decode strftime make_table self v1 v2 w
   = Raise BadKeyError w).
Proof.
  split.
  - intros k1 k2 H1 H2 Habs. unfold diff_history, bind.
    destruct (@load_from_history_well_formed (name self) v1 k1 w H1)
      as [r1 [E1 N1]].
    destruct (@load_from_history_well_formed (name self) v2 k2 w H2)
      as [r2 [E2 N2]].
    rewrite E1, E2.
    destruct Habs as [Habs | Habs].
    + apply N1 in Habs. now subst r1.
    + apply N2 in Habs. subst r2. now destruct r1.
  - intros [H1 | [[k1 H1] H2]]; unfold diff_history, bind.
    + now rewrite (@load_from_history_malformed (name self) v1 w H1).
    + destruct (@load_from_history_well_formed (name self) v1 k1 w H1)
        as [r1 [E1 _]].
      now rewrite E1, (@load_from_history_malformed (name self) v2 w H2).
Qed.

End HistoryProperties.

Lemma diff_history_not_found_witness :
  diff_history decimal_key tally captions page_FooBar (lit "2") (lit "9")
               world_anonymous
  = Ok None world_anonymous.
Proof.
  apply (proj1 (diff_history_not_found decimal_key tally captions
                  page_FooBar (lit "2") (lit "9") world_anonymous) 2 9);
    [reflexivity | reflexivity | right; reflexivity].
Defined.

(** The claim C8 as stated fails: the identifier [9] is well-formed
    and resolves to nothing, yet with a malformed second identifier the
    call raises instead of returning [None]. *)
Lemma diff_history_raises_on_malformed_other :
  decimal_key (lit "9") = Some 9 /\
  stored (name page_FooBar) 9 world_anonymous = [] /\
  decimal_key (lit "zz") = None /\
  diff_history decimal_key tally captions page_FooBar (lit "9") (lit "zz")
               world_anonymous
  = Raise BadKeyError world_anonymous.
Proof. repeat split; vm_compute; reflexivity. Qed.


(** ** Saving *)

Lemma In_overwrite (k : nat) (e : Entity) (l : list Entity) :
  In e (overwrite k e l).
Proof.
  induction l as [|x l IH]; simpl; [now left|].
  destruct (has_key k x); [now left | now right].
Qed.

Lemma limits_Put (e : Entity) (w : World) :
  limits (snd (Put e w)) = limits w.
Proof. unfold Put. now destruct (e_key e). Qed.

(** [save_to_history] returns when the three plain strings are within
    the limit, and only then; it puts the history entry. *)
Lemma save_to_history_Ok (self : Page) (w w' : World) (x : unit) :
  save_to_history self w = Ok x w' ->
  exists addr cmt,
    remote_addr self = Some addr /\ comment self = Some cmt /\
    too_long (name self) w = false /\ too_long addr w = false /\
    too_long cmt w = false /\
    w' = snd (Put (MkEntity KPageHistory None (name self) (modified self)
                            (content self) None (current_user w)
                            (Some addr) (Some cmt)) w).
Proof.
  unfold save_to_history.
  destruct (too_long (name self) w) eqn:Hn; [discriminate|].
  destruct (remote_addr self) as [addr|]; [|discriminate].
  destruct (too_long addr w) eqn:Hla; [discriminate|].
  destruct (comment self) as [cmt|]; [|discriminate].
  destruct (too_long cmt w) eqn:Hlc; [discriminate|].
  intros H. injection H as _ <-. exists addr, cmt. now repeat split.
Qed.

Lemma In_Put (e : Entity) (w : World) :
  In (fst (Put e w)) (datastore (snd (Put e w))).
Proof.
  unfold Put. destruct (e_key e) as [k|]; cbn [fst snd datastore].
  - apply In_overwrite.
  - apply in_or_app. right. now left.
Qed.

Lemma Put_new (e : Entity) (w : World) :
  e_key e = None ->
  datastore (snd (Put e w)) = datastore w ++ [with_key (next_id w) e].
Proof. intros H. unfold Put. now rewrite H. Qed.

(** Every save writes the same content to the page entity it puts and
    to the history entry it appends; the history entry carries the name
    of the page object, the page entity the name it was stored under. *)
Lemma save_same_content (self self' : Page) (w w' : World) :
  save self w = Ok self' w' ->
  exists page_e hist_e,
    In page_e (datastore w') /\ In hist_e (datastore w') /\
    e_content page_e = content self /\
    e_content hist_e = content self /\
    e_kind hist_e = KPageHistory /\
    e_name hist_e = name self /\
    e_name page_e = match entity self with
                    | Some e => e_name e
                    | None => name self
                    end.
Proof.
  unfold save. cbn [now].
  set (w1 := MkWorld _ _ _ _ _ (S (clock w)) _).
  assert (Hgo : forall base : Entity,
             e_name base = match entity self with
                           | Some e => e_name e
                           | None => name self
                           end ->
             (let e := MkEntity (e_kind base) (e_key base) (e_name base)
                                (e_created base) (content self)
                                (Some (clock w)) (current_user w1)
                                (e_remote_addr base) (e_comment base) in
              let (e', w2) := Put e w1 in
              let w3 := memcache_delete (lit "page_" ++ name self)
                                        (lit "content_" ++ name self) w2 in
              let self'0 :=
                match entity self with
                | Some _ => MkPage (name self) (Some e') (content self)
                                   (user self) (created self) (modified self)
                                   (remote_addr self) (comment self)
                | None => self
                end in
              match save_to_history self w3 with
              | Ok _ w4 => Ok self'0 w4
              | Raise x w4 => Raise x w4
              end) = Ok self' w' ->
             exists page_e hist_e,
               In page_e (datastore w') /\ In hist_e (datastore w') /\
               e_content page_e = content self /\
               e_content hist_e = content self /\
               e_kind hist_e = KPageHistory /\
               e_name hist_e = name self /\
               e_name page_e = match entity self with
                               | Some e => e_name e
                               | None => name self
                               end).
  { intros base Hbase. cbv zeta.
    pose proof (In_Put (MkEntity (e_kind base) (e_key base) (e_name base)
                                 (e_created base) (content self)
                                 (Some (clock w)) (current_user w1)
                                 (e_remote_addr base) (e_comment base)) w1)
      as Hin.
    assert (Hfst : forall e0 w0, fst (Put e0 w0) = match e_key e0 with
                                                   | Some _ => e0
                                                   | None => with_key (next_id w0) e0
                                                   end)
      by (intros e0 w0; unfold Put; now destruct (e_key e0)).
    rewrite Hfst in Hin. cbn [e_key] in Hin.
    destruct (Put _ w1) as [e' w2]. cbn [snd] in Hin.
    destruct (save_to_history self _) as [x w4|x w4] eqn:Eh; [|discriminate].
    intros H. injection H as _ <-.
    apply save_to_history_Ok in Eh.
    destruct Eh as [addr [cmt [_ [_ [_ [_ [_ ->]]]]]]].
    rewrite Put_new by reflexivity. cbn [memcache_delete datastore].
    eexists. eexists.
    split; [apply in_or_app; left; exact Hin|].
    split; [apply in_or_app; right; now left|].
    destruct (e_key base); cbn; repeat split; exact Hbase. }
  destruct (entity self) as [e|].
  - apply Hgo. reflexivity.
  - destruct (too_long (name self) w1); [discriminate|].
    apply Hgo. reflexivity.
Qed.

(** A page loaded from the datastore under a name without underscores
    has an entity of that very name. *)
Lemma Page_load_miss (nm : str) (w : World) :
  cache_get (lit "page_" ++ nm) (page_cache w) = None ->
  name (fst (Page_load nm w)) = nm /\
  match entity (fst (Page_load nm w)) with
  | Some e => e_kind e = KPage /\ e_name e = strip_underscores nm
  | None => True
  end.
Proof.
  intros Hc. unfold Page_load. rewrite Hc.
  destruct (Query KPage
              (fun e => str_eqb (e_name e) (strip_underscores nm)) w)
    as [|e l] eqn:Q; [now split|].
  split; [reflexivity|]. cbn [Page_init fst entity].
  assert (Hin : In e (Query KPage
                        (fun e => str_eqb (e_name e) (strip_underscores nm)) w))
    by (rewrite Q; now left).
  unfold Query in Hin. apply filter_In in Hin. destruct Hin as [_ Hin].
  apply andb_true_iff in Hin. destruct Hin as [Hk Hn].
  apply str_eqb_eq in Hn. split; [|exact Hn].
  now destruct (e_kind e).
Qed.

(** Where [Page.load] returns, it returns what [Page_load] gives; where
    it raises, nothing has changed. *)
Lemma Page_load_or_raise_Ok (nm : str) (w w1 : World) (p : Page) :
  Page_load_or_raise nm w = Ok p w1 -> Page_load nm w = (p, w1).
Proof.
  unfold Page_load_or_raise, Page_load.
  destruct (cache_get (lit "page_" ++ nm) (page_cache w)) as [d|].
  - destruct (Page_init nm (Some d) w). now intros [= -> ->].
  - destruct (Query KPage _ w) as [|e l].
    + destruct (Page_init nm None w). now intros [= -> ->].
    + destruct (MAX_VALUE_SIZE <? pickled_size (limits w) e)%N;
        [discriminate|].
      destruct (Page_init nm (Some e) _). now intros [= -> ->].
Qed.

Lemma Page_load_or_raise_Raise (nm : str) (w w1 : World) (x : Exn) :
  Page_load_or_raise nm w = Raise x w1 -> w1 = w.
Proof.
  unfold Page_load_or_raise.
  destruct (cache_get (lit "page_" ++ nm) (page_cache w)) as [d|].
  - destruct (Page_init nm (Some d) w). discriminate.
  - destruct (Query KPage _ w) as [|e l].
    + destruct (Page_init nm None w). discriminate.
    + destruct (MAX_VALUE_SIZE <? pickled_size (limits w) e)%N.
      * now intros [= _ ->].
      * destruct (Page_init nm (Some e) _). discriminate.
Qed.

(** An edit posted under a name without underscores keeps the page and
    its history in step: the page entity and the appended history entry
    carry the posted content under that one name. *)
Lemma post_canonical_in_step (nm : str) (rq : Request) (w : World)
    (u : User) (r : list Redirect) (w' : World) :
  strip_underscores nm = nm ->
  cache_get (lit "page_" ++ nm) (page_cache w) = None ->
  current_user w = Some u ->
  post nm rq w = Ok r w' ->
  exists page_e hist_e,
    In page_e (datastore w') /\ In hist_e (datastore w') /\
    e_name page_e = nm /\ e_name hist_e = nm /\
    e_content page_e = req_content rq /\
    e_content hist_e = req_content rq /\
    e_kind hist_e = KPageHistory.
Proof.
  intros Hnm Hc Hu Hpost. unfold post in Hpost. rewrite Hu in Hpost.
  destruct (Page_load_or_raise nm w) as [page w1|x w1] eqn:Hload;
    [|discriminate].
  apply Page_load_or_raise_Ok in Hload.
  destruct (Page_load_miss nm w Hc) as [Hname Hent].
  rewrite Hload in Hname, Hent. cbn [fst] in Hname, Hent.
  destruct (save (with_request page rq) w1) as [page' w2|x w2] eqn:Hsave;
    [|discriminate].
  injection Hpost as _ <-.
  destruct (save_same_content _ _ Hsave)
    as [pe [he [H1 [H2 [H3 [H4 [H5 [H6 H7]]]]]]]].
  cbn [with_request content name entity] in H3, H4, H6, H7.
  exists pe, he. repeat split; try assumption; try congruence.
  rewrite H7. destruct (entity page) as [e|]; [|exact Hname].
  destruct Hent as [_ Hn]. congruence.
Qed.

(** C9, at the failing input.  The page FooBar exists and its newest
    history entry has its content.  An edit posted to the address
    Foo_Bar loads the entity of FooBar, because [Page.load] strips the
    underscores from the name it queries, and saves: the entity of
    FooBar gets the new content, and the history entry is appended
    under the name Foo_Bar.  Afterwards the current content of FooBar
    is the new text while the newest entry of the history of FooBar
    still has the old one. *)
Theorem post_under_alias_breaks_history_invariant :
  exists w',
    post (lit "Foo_Bar") edit_request world_FooBar
    = Ok [ToUrl (lit "/Foo_Bar")] w' /\
    content (fst (Page_load (lit "FooBar") world_FooBar)) = lit "first text" /\
    map e_content
        (fetch_history (fst (Page_load (lit "FooBar") world_FooBar))
                       world_FooBar)
    = [lit "first text"] /\
    content (fst (Page_load (lit "FooBar") w')) = lit "second text" /\
    map e_content (fetch_history (fst (Page_load (lit "FooBar") w')) w')
    = [lit "first text"] /\
    map (fun e => (e_name e, e_content e))
        (Query KPageHistory (fun _ => true) w')
    = [(lit "FooBar", lit "first text"); (lit "Foo_Bar", lit "second text")].
Proof.
  eexists. split; [vm_compute; reflexivity|].
  repeat split; vm_compute; reflexivity.
Qed.

(** * Further properties of the code *)

(** ** Transform.run in general *)

(** Whatever [replace] keeps true of the state of the world is true
    after [run]. *)
Lemma run_invariant (W : Type) (t : Transform W) (I : W -> Prop)
    (content : str) (w : W) :
  (forall m w0, I w0 -> I (snd (replace t m w0))) ->
  I w -> I (snd (run t content w)).
Proof.
  intros Hrep Hw. unfold run.
  assert (H : forall ms parts offset w0,
             I w0 ->
             I (snd (fold_left (run_step t content) ms (parts, offset, w0)))).
  { induction ms as [|m ms IH]; intros parts offset w0 H0; [exact H0|].
    simpl. specialize (Hrep m w0 H0).
    destruct (replace t m w0) as [rep w1]. now apply IH. }
  specialize (H (finditer (regexp t) content) [] 0 w Hw).
  now destruct (fold_left _ _ _) as [[parts offset] w'].
Qed.

Lemma rewrites_echo (W : Type) (t : Transform W) :
  (forall m w, replace t m w = (m_text m, w)) ->
  forall bef aft w out w',
    rewrites t bef aft w out w' -> out = aft /\ w' = w.
Proof.
  intros Hecho bef aft w out w' H.
  induction H as [bef aft w Hnone
                 | bef gap m rest w rep wa out wb Hno Hm Hne Hrep Hrw IH
                 | bef gap m w rep wa Hno Hm Hrep
                 | bef gap m c rest w rep wa out wb Hno Hm Het Hrep Hrw IH].
  - now split.
  - rewrite Hecho in Hrep. injection Hrep as <- <-.
    destruct IH as [-> ->]. now split.
  - rewrite Hecho in Hrep. injection Hrep as <- <-.
    destruct (match_at_Some _ _ _ Hm) as [_ [_ [rest Er]]].
    destruct (m_text m); [|discriminate Er].
    now rewrite app_nil_r.
  - rewrite Hecho in Hrep. injection Hrep as <- <-.
    destruct IH as [-> ->]. now rewrite Het.
Qed.

(** X1.  A transform whose [replace] returns the matched text and
    leaves the state alone is the identity: [run] returns the content
    as it was, whatever the pattern matches, and the state unchanged.
    So [run] itself loses or adds nothing. *)
Theorem run_of_echo_is_identity (W : Type) (t : Transform W) (content : str)
    (w : W) :
  (forall m w0, replace t m w0 = (m_text m, w0)) ->
  run t content w = (content, w).
Proof.
  intros Hecho.
  destruct (@rewrites_echo W t Hecho [] content w _ _
              (run_is_rewriting t content w)) as [E1 E2].
  destruct (run t content w) as [out w']. simpl in E1, E2. congruence.
Qed.

Lemma run_of_echo_is_identity_witness :
  run (echo World AutoLink_regexp)
      (lit "See http://example.com/page for info.") world_FooBar
  = (lit "See http://example.com/page for info.", world_FooBar).
Proof.
  apply (@run_of_echo_is_identity World (echo World AutoLink_regexp)).
  intros m w0. reflexivity.
Defined.

(** ** Rendering *)

Lemma Page_load_same_store (nm : str) (w : World) :
  same_store w (snd (Page_load nm w)).
Proof.
  unfold Page_load, same_store.
  destruct (cache_get (lit "page_" ++ nm) (page_cache w)); [now simpl|].
  destruct (Query _ _ w); simpl; auto.
Qed.

Lemma Page_exists_snd (nm : str) (w : World) :
  snd (Page_exists nm w) = snd (Page_load nm w).
Proof. unfold Page_exists. now destruct (Page_load nm w). Qed.

Lemma WikiWords_replace_snd (m : Match) (w : World) :
  snd (WikiWords_replace m w) = snd (Page_exists (m_text m) w).
Proof.
  unfold WikiWords_replace.
  destruct (Page_exists (m_text m) w) as [[|] w']; reflexivity.
Qed.

Lemma same_store_trans (w1 w2 w3 : World) :
  same_store w1 w2 -> same_store w2 w3 -> same_store w1 w3.
Proof. unfold same_store. intuition congruence. Qed.

(** What the lookups of a rendering find is what they would find in the
    world the rendering began in. *)
Lemma WikiWords_fold_at (w0 : World) (content : str) (ms : list Match) :
  forall parts offset w wp,
    (forall n, fst (Page_exists n w) = fst (Page_exists n w0)) ->
    fst (fold_left (run_step WikiWords content) ms (parts, offset, w))
    = fst (fold_left (run_step (WikiWords_at w0) content) ms
                     (parts, offset, wp)).
Proof.
  induction ms as [|m ms IH]; intros parts offset w wp Hag; [reflexivity|].
  cbn [fold_left]. unfold run_step at 2 4.
  cbn [replace WikiWords WikiWords_at].
  assert (E : fst (WikiWords_replace m w) = fst (WikiWords_replace m w0)).
  { unfold WikiWords_replace. pose proof (Hag (m_text m)) as H.
    destruct (Page_exists (m_text m) w) as [f1 w1].
    destruct (Page_exists (m_text m) w0) as [f0 w0'].
    cbn [fst] in H. subst f1. now destruct f0. }
  assert (Hag' : forall n,
             fst (Page_exists n (snd (WikiWords_replace m w)))
             = fst (Page_exists n w0)).
  { intros n. rewrite WikiWords_replace_snd, Page_exists_stable. apply Hag. }
  destruct (WikiWords_replace m w) as [rep w1].
  cbn [fst snd] in E, Hag'. rewrite <- E. now apply IH.
Qed.

(** X2.  The output of the WikiWords transform depends only on which
    pages exist when the rendering begins: the lookups write the cache
    while the text is rewritten, but the output is the one obtained by
    answering every lookup from the initial world. *)
Theorem WikiWords_output_by_initial_world (content : str) (w : World) :
  fst (run WikiWords content w) = fst (run (WikiWords_at w) content w).
Proof.
  unfold run. cbn [regexp WikiWords WikiWords_at].
  pose proof (@WikiWords_fold_at w content (finditer _VALID_WIKINAME content)
                [] 0 w w (fun n => eq_refl)) as H.
  destruct (fold_left (run_step WikiWords content) _ _) as [[p1 o1] w1].
  destruct (fold_left (run_step (WikiWords_at w) content) _ _)
    as [[p2 o2] w2].
  cbn [fst] in H |- *. now injection H as -> ->.
Qed.

(** X3.  Rendering a page reads: [wikified_content] leaves the stored
    entities, the next key, the cache of rendered text and the current
    user as they were (the lookups of the WikiWords change the cache of
    pages and the clock only). *)
Theorem wikified_content_reads_only (self : Page) (w : World) :
  same_store w (snd (wikified_content self w)).
Proof.
  assert (Hrefl : forall w0, same_store w0 w0) by (unfold same_store; auto).
  unfold wikified_content.
  destruct (cache_get _ (content_cache w)); [apply Hrefl|].
  cbn [fold_left].
  assert (Hpure : forall (r : regex) (f : Match -> str) c (w0 : World),
             snd (run (MkTransform r (fun m (w1 : World) => (f m, w1))) c w0)
             = w0).
  { intros r f c w0.
    apply (@run_invariant World _ (fun w1 => w1 = w0)); [|reflexivity].
    now intros m w1 ->. }
  destruct (run AutoLink (content self) w) as [c1 w1] eqn:E1.
  assert (w1 = w) by (rewrite <- (Hpure AutoLink_regexp AutoLink_replace
                                     (content self) w);
                      unfold AutoLink in E1; now rewrite E1).
  subst w1.
  destruct (run WikiWords c1 w) as [c2 w2] eqn:E2.
  assert (H2 : same_store w w2).
  { replace w2 with (snd (run WikiWords c1 w)) by now rewrite E2.
    apply (@run_invariant World WikiWords (same_store w)); [|apply Hrefl].
    intros m w0 H0. cbn [replace WikiWords].
    rewrite WikiWords_replace_snd, Page_exists_snd.
    exact (same_store_trans H0 (Page_load_same_store _ w0)). }
  destruct (run HideReferers c2 w2) as [c3 w3] eqn:E3.
  assert (w3 = w2) by (rewrite <- (Hpure HideReferers_regexp
                                      HideReferers_replace c2 w2);
                       unfold HideReferers in E3; now rewrite E3).
  subst w3. exact H2.
Qed.

Lemma AutoLink_needs_http (content : str) (w : World) :
  occurs (lit "http") content = false ->
  run AutoLink content w = (content, w).
Proof.
  intros Hocc. apply run_no_match. intros p s E.
  destruct (match_at (regexp AutoLink) (rev p) s) as [m|] eqn:Em;
    [|reflexivity].
  apply AutoLink_match in Em.
  destruct Em as [c [sch [body [lastc [rest [_ [_ [Hs [_ [_ [_ [Es _]]]]]]]]]]]].
  exfalso. rewrite E, Es in Hocc.
  assert (Ex : exists tl, p ++ c :: (sch ++ lit "://" ++ body ++ [lastc]) ++ rest
                          = (p ++ [c]) ++ lit "http" ++ tl).
  { destruct Hs as [-> | ->]; eexists; rewrite <- !app_assoc; simpl;
      reflexivity. }
  destruct Ex as [tl Ex]. rewrite Ex, occurs_app in Hocc. discriminate.
Qed.

Lemma HideReferers_needs_http (content : str) (w : World) :
  occurs (lit "http") content = false ->
  run HideReferers content w = (content, w).
Proof.
  intros Hocc. apply run_no_match. intros p s E.
  destruct (match_at (regexp HideReferers) (rev p) s) as [m|] eqn:Em;
    [|reflexivity].
  apply HideReferers_match in Em.
  destruct Em as [u [rest [_ [_ [Es _]]]]].
  exfalso. rewrite E, Es in Hocc.
  replace (p ++ lit "href=" ++ quoted (lit "http" ++ u) ++ rest)
    with ((p ++ lit "href=" ++ [dq]) ++ lit "http" ++ u ++ [dq] ++ rest)
    in Hocc by (unfold quoted; now rewrite <- !app_assoc).
  rewrite occurs_app in Hocc. discriminate.
Qed.

Lemma WikiWords_needs_capital (content : str) (w : World) :
  existsb upper_or_digit_char content = false ->
  run WikiWords content w = (content, w).
Proof.
  intros Hex. apply run_no_match. intros p s E.
  destruct (match_at (regexp WikiWords) (rev p) s) as [m|] eqn:Em;
    [|reflexivity].
  destruct (match_at_Some _ _ _ Em) as [_ [_ [rest Es]]].
  apply match_at_derives, derives_VALID_WIKINAME_head in Em.
  destruct Em as [c [tl [Et Hc]]].
  exfalso. rewrite E, Es, Et, existsb_app in Hex. simpl in Hex.
  unfold cset_has in Hc. cbn [existsb citem_has xorb] in Hc.
  rewrite orb_false_r in Hc. unfold upper_or_digit_char in Hex.
  rewrite Hc in Hex. simpl in Hex. rewrite orb_true_r in Hex. discriminate.
Qed.

(** X4.  A text that has no [http] in it and no upper-case letter or
    digit goes through the three transforms of [wikified_content]
    unchanged, and the world stays as it was (when no rendered text is
    cached for the page). *)
Theorem wikified_content_plain_text (self : Page) (w : World) :
  cache_get (lit "content_" ++ name self) (content_cache w) = None ->
  occurs (lit "http") (content self) = false ->
  existsb upper_or_digit_char (content self) = false ->
  wikified_content self w = (content self, w).
Proof.
  intros Hc Hh Hu. unfold wikified_content. rewrite Hc. cbn [fold_left].
  rewrite (AutoLink_needs_http _ w Hh), (WikiWords_needs_capital _ w Hu).
  apply (HideReferers_needs_http _ w Hh).
Qed.

Lemma wikified_content_plain_text_witness :
  wikified_content
    (MkPage (lit "FooBar") None (lit "plain words, <b>no</b> links.") None
            0 0 None None)
    world_FooBar
  = (lit "plain words, <b>no</b> links.", world_FooBar).
Proof.
  apply wikified_content_plain_text; reflexivity.
Defined.

(** ** How the transforms meet *)

Lemma run_unique (W : Type) (t : Transform W) (content : str) (w : W)
    (out : str) (w' : W) :
  rewrites t [] content w out w' -> run t content w = (out, w').
Proof.
  intros H.
  destruct (rewrites_deterministic (run_is_rewriting t content w) H)
    as [<- <-].
  now destruct (run t content w).
Qed.

(** A text in which [href=DQ http] begins nowhere is left as it is. *)
Lemma HideReferers_starts_nowhere (content : str) (w : World) :
  starts_nowhere href_http content [] ->
  run HideReferers content w = (content, w).
Proof.
  intros Hn. apply run_no_match. intros p s E.
  destruct (match_at (regexp HideReferers) (rev p) s) as [m|] eqn:Em;
    [|reflexivity].
  apply HideReferers_match_starts in Em.
  destruct s as [|c s]; [discriminate Em|].
  pose proof (Hn p (c :: s) E ltac:(discriminate)) as Hc.
  rewrite app_nil_r in Hc. congruence.
Qed.

(** A text with one attribute [href=DQ url DQ], before which
    [href=DQ http] begins nowhere and behind which there is no double
    quote, comes back with just that attribute rewritten. *)
Lemma HideReferers_one_attribute (gap u rest : str) (w : World) :
  starts_nowhere href_http gap
                 (lit "href=" ++ quoted (lit "http" ++ u) ++ rest) ->
  u <> [] ->
  forallb (fun c => negb (Ascii.eqb dq c)) u = true ->
  forallb (fun c => negb (Ascii.eqb dq c)) rest = true ->
  run HideReferers (gap ++ lit "href=" ++ quoted (lit "http" ++ u) ++ rest) w
  = (gap ++ lit "href=" ++ quoted (indirection ++ quote (lit "http" ++ u))
         ++ rest, w).
Proof.
  intros Hgap Hu Hcls Hrest.
  destruct (@HideReferers_match_attr (rev gap ++ []) u rest Hu Hcls)
    as [m [Hm [Ht Hg]]].
  apply run_unique.
  replace (gap ++ lit "href=" ++ quoted (lit "http" ++ u) ++ rest)
    with (gap ++ m_text m ++ rest) by (rewrite Ht; now rewrite <- !app_assoc).
  replace (lit "href=" ++ quoted (indirection ++ quote (lit "http" ++ u))
               ++ rest)
    with (HideReferers_replace m ++ rest)
    by (unfold HideReferers_replace; rewrite Hg; now rewrite <- !app_assoc).
  apply rw_match with (w1 := w).
  - intros p s Ep Hs.
    destruct (match_at (regexp HideReferers) (rev p ++ [])
                       (s ++ m_text m ++ rest)) as [m2|] eqn:E2;
      [|reflexivity].
    apply HideReferers_match_starts in E2.
    rewrite Ht, <- app_assoc in E2.
    rewrite (Hgap p s Ep Hs) in E2. discriminate.
  - rewrite Ht, <- app_assoc. exact Hm.
  - rewrite Ht. discriminate.
  - reflexivity.
  - apply rw_tail. intros p s E.
    destruct (match_at (regexp HideReferers)
                (rev p ++ rev (m_text m) ++ rev gap ++ []) s) as [m2|] eqn:E2;
      [|reflexivity].
    apply HideReferers_match in E2.
    destruct E2 as [u2 [rest2 [_ [_ [E2 _]]]]].
    exfalso. rewrite E, E2 in Hrest.
    rewrite forallb_app in Hrest. apply andb_true_iff in Hrest.
    destruct Hrest as [_ Hrest]. vm_compute in Hrest. discriminate.
Qed.

Lemma url_stop_no_dq (c : ascii) :
  cset_has true url_stop c = true -> negb (Ascii.eqb dq c) = true.
Proof.
  unfold cset_has, url_stop. cbn [existsb citem_has xorb].
  destruct (Ascii.eqb dq c); [|reflexivity].
  rewrite !orb_true_r. discriminate.
Qed.

(** X5.  The anchor AutoLink writes for a URL is an absolute link for
    HideReferers: run over the replacement of any AutoLink match of
    ASCII characters (on which [urllib.quote] returns), HideReferers
    sends the [href] of the anchor through the indirection address and
    leaves the character before the anchor, the class and the text of
    the anchor as they are. *)
Theorem HideReferers_indirects_AutoLink_anchor (bef aft : str) (m : Match)
    (w : World) :
  match_at AutoLink_regexp bef aft = Some m ->
  forallb is_ascii (m_text m) = true ->
  exists c url,
    m_text m = c :: url /\
    run HideReferers (AutoLink_replace m) w
    = (c :: lit "<a class=" ++ quoted (lit "autourl") ++ lit " href="
         ++ quoted (indirection ++ quote url) ++ lit ">" ++ url
         ++ lit "</a>", w).
Proof.
  intros Hm _. apply AutoLink_match in Hm.
  destruct Hm as [c [sch [body [lastc
                  [rest [_ [_ [Hs [Hb [Hcls [Hlast [_ [Ht [Hg1 Hg2]]]]]]]]]]]]]].
  exists c, (sch ++ lit "://" ++ body ++ [lastc]). split; [exact Ht|].
  unfold AutoLink_replace. rewrite Hg1, Hg2.
  assert (Hu : exists u,
             sch ++ lit "://" ++ body ++ [lastc] = lit "http" ++ u /\
             u <> [] /\
             forallb (fun c => negb (Ascii.eqb dq c)) u = true).
  { assert (Hbody : forallb (fun c => negb (Ascii.eqb dq c))
                            (body ++ [lastc]) = true).
    { rewrite forallb_app. apply andb_true_iff. split.
      - rewrite forallb_forall in Hcls |- *. intros x Hx.
        apply url_stop_no_dq. now apply Hcls.
      - simpl. rewrite andb_true_r. apply url_stop_no_dq.
        unfold cset_has in Hlast |- *. rewrite existsb_app in Hlast.
        destruct (existsb (citem_has lastc) url_stop); [|reflexivity].
        simpl in Hlast. discriminate. }
    destruct Hs as [-> | ->].
    - exists (lit "://" ++ body ++ [lastc]).
      repeat split; [discriminate|]. rewrite forallb_app, Hbody. reflexivity.
    - exists (lit "s://" ++ body ++ [lastc]).
      repeat split; [discriminate|]. rewrite forallb_app, Hbody. reflexivity. }
  destruct Hu as [u [Eu [Hne Hnodq]]]. rewrite Eu.
  set (gap := [c] ++ lit "<a class=" ++ quoted (lit "autourl") ++ lit " ").
  set (tl := lit ">" ++ (lit "http" ++ u) ++ lit "</a>").
  assert (E1 : [c] ++ lit "<a class=" ++ quoted (lit "autourl")
                   ++ lit " href=" ++ quoted (lit "http" ++ u) ++ tl
               = gap ++ lit "href=" ++ quoted (lit "http" ++ u) ++ tl).
  { unfold gap, quoted. rewrite <- !app_assoc. reflexivity. }
  assert (E2 : c :: lit "<a class=" ++ quoted (lit "autourl") ++ lit " href="
                   ++ quoted (indirection ++ quote (lit "http" ++ u)) ++ tl
               = gap ++ lit "href="
                     ++ quoted (indirection ++ quote (lit "http" ++ u)) ++ tl).
  { unfold gap, quoted. rewrite <- !app_assoc. reflexivity. }
  rewrite E1, E2. apply HideReferers_one_attribute.
  - unfold gap. apply starts_nowhere_app.
    + intros p s E Hs0.
      destruct p as [|x p]; simpl in E.
      * subst s. cbn. now rewrite andb_false_r.
      * destruct p; discriminate E || (injection E as _ E; congruence).
    + apply starts_nowhere_b_ok. reflexivity.
  - exact Hne.
  - exact Hnodq.
  - unfold tl. rewrite !forallb_app, Hnodq. reflexivity.
Qed.

Lemma HideReferers_indirects_AutoLink_anchor_witness :
  exists c url,
    m_text (MkMatch 3 27 (lit " http://example.com/page")
                    [(2, lit "http://example.com/page"); (3, lit "http");
                     (1, lit " ")])
    = c :: url /\
    run HideReferers
        (AutoLink_replace
           (MkMatch 3 27 (lit " http://example.com/page")
                    [(2, lit "http://example.com/page"); (3, lit "http");
                     (1, lit " ")]))
        world_FooBar
    = (c :: lit "<a class=" ++ quoted (lit "autourl") ++ lit " href="
         ++ quoted (indirection ++ quote url) ++ lit ">" ++ url
         ++ lit "</a>", world_FooBar).
Proof.
  apply (@HideReferers_indirects_AutoLink_anchor
           (rev (lit "See")) (lit " http://example.com/page for info.")).
  - vm_compute. reflexivity.
  - reflexivity.
Defined.

(** In a run of word characters followed by a text that does not go on
    like [href=DQ http], the begin of an attribute is nowhere. *)
Lemma starts_nowhere_word_run (tok rest : str) :
  forallb is_word tok = true ->
  starts_with (lit "ref=" ++ [dq] ++ lit "http") rest = false ->
  starts_with (lit "ef=" ++ [dq] ++ lit "http") rest = false ->
  starts_with (lit "f=" ++ [dq] ++ lit "http") rest = false ->
  starts_with (lit "=" ++ [dq] ++ lit "http") rest = false ->
  starts_nowhere href_http tok rest.
Proof.
  intros Hw H1 H2 H3 H4 p s E Hs.
  assert (Hsw : forallb is_word s = true)
    by (rewrite E in Hw; exact (forallb_suffix _ _ _ Hw)).
  assert (Heq : forall c, is_word c = true -> Ascii.eqb "=" c = false).
  { intros c Hc. destruct (Ascii.eqb_spec "=" c) as [<-|]; [|reflexivity].
    vm_compute in Hc. discriminate. }
  unfold href_http.
  assert (Hcons : forall a b p0 s0,
             starts_with (a :: p0) (b :: s0)
             = Ascii.eqb a b && starts_with p0 s0) by reflexivity.
  cbn [app lit list_ascii_of_string] in H1, H2, H3, H4.
  destruct s as [|t1 [|t2 [|t3 [|t4 [|t5 s]]]]]; [congruence | ..];
    cbn [app lit list_ascii_of_string]; rewrite !Hcons.
  - rewrite H1. apply andb_false_r.
  - rewrite H2. now rewrite !andb_false_r.
  - rewrite H3. now rewrite !andb_false_r.
  - rewrite H4. now rewrite !andb_false_r.
  - cbn [forallb] in Hsw.
    do 4 (apply andb_true_iff in Hsw; destruct Hsw as [_ Hsw]).
    apply andb_true_iff in Hsw. destruct Hsw as [Hsw _].
    rewrite (Heq t5 Hsw). cbn [andb]. now rewrite !andb_false_r.
Qed.

Ltac nowhere_segment Hw :=
  first [ apply starts_nowhere_b_ok; reflexivity
        | apply starts_nowhere_word_run; [exact Hw | reflexivity ..] ].

Ltac nowhere Hw :=
  repeat (apply starts_nowhere_app; [nowhere_segment Hw|]);
  nowhere_segment Hw.

(** X6.  The anchors WikiWords writes are relative links: run over the
    replacement of any WikiWords match, found or not, HideReferers
    changes nothing. *)
Theorem HideReferers_keeps_WikiWords_anchor (bef aft : str) (m : Match)
    (w w' : World) :
  match_at _VALID_WIKINAME bef aft = Some m ->
  run HideReferers (fst (WikiWords_replace m w)) w'
  = (fst (WikiWords_replace m w), w').
Proof.
  intros Hm. apply match_at_derives in Hm.
  pose proof (@derives_within is_word _ _ Hm within_word_VALID_WIKINAME)
    as Hw.
  apply HideReferers_starts_nowhere.
  unfold WikiWords_replace. set (tok := m_text m) in *.
  destruct (Page_exists tok w) as [[|] w1]; cbn [fst]; unfold quoted;
    rewrite <- ?app_assoc; nowhere Hw.
Qed.

Lemma HideReferers_keeps_WikiWords_anchor_witness :
  run HideReferers
      (fst (WikiWords_replace
              (MkMatch 0 6 (lit "FooBar")
                       [(2, lit "Bar"); (3, lit "B"); (1, lit "F")])
              world_FooBar))
      world_FooBar
  = (fst (WikiWords_replace
            (MkMatch 0 6 (lit "FooBar")
                     [(2, lit "Bar"); (3, lit "B"); (1, lit "F")])
            world_FooBar),
     world_FooBar).
Proof.
  apply (@HideReferers_keeps_WikiWords_anchor [] (lit "FooBar and BazQux")).
  vm_compute. reflexivity.
Defined.

(** ** The datastore under edits *)

Lemma Kind_eqb_eq (a b : Kind) : Kind_eqb a b = true <-> a = b.
Proof. destruct a, b; simpl; split; congruence. Qed.

Lemma cache_get_In (V : Type) (k : str) (c : list (str * V)) (v : V) :
  cache_get k c = Some v -> exists k', In (k', v) c.
Proof.
  induction c as [|[k0 v0] c IH]; simpl; [discriminate|].
  destruct (str_eqb k0 k).
  - intros H. injection H as ->. exists k0. now left.
  - intros H. destruct (IH H) as [k' Hin]. exists k'. now right.
Qed.

Lemma cache_delete_In (V : Type) (k : str) (c : list (str * V))
    (kv : str * V) :
  In kv (cache_delete k c) -> In kv c.
Proof. unfold cache_delete. intros H. now apply filter_In in H. Qed.

Lemma cache_get_delete_same (V : Type) (k : str) (c : list (str * V)) :
  cache_get k (cache_delete k c) = None.
Proof.
  induction c as [|[k0 v0] c IH]; simpl; [reflexivity|].
  destruct (str_eqb k0 k) eqn:E; simpl; [exact IH|].
  now rewrite E.
Qed.

(** The entity with the key [k] of a store without double keys. *)
Lemma key_unique (l : list Entity) (k : nat) (x y : Entity) :
  NoDup (map e_key l) -> In x l -> In y l ->
  e_key x = Some k -> e_key y = Some k -> x = y.
Proof.
  induction l as [|z l IH]; intros Hnd Hx Hy Kx Ky; [contradiction|].
  simpl in Hnd. inversion Hnd as [|? ? Hnotin Hnd']; subst.
  destruct Hx as [-> | Hx], Hy as [-> | Hy]; auto.
  - exfalso. apply Hnotin. rewrite Kx, <- Ky. now apply in_map.
  - exfalso. apply Hnotin. rewrite Ky, <- Kx. now apply in_map.
Qed.

Lemma has_key_eq (k : nat) (e : Entity) :
  has_key k e = true <-> e_key e = Some k.
Proof.
  unfold has_key. destruct (e_key e) as [k'|]; [|split; discriminate].
  rewrite Nat.eqb_eq. split; congruence.
Qed.

(** Putting an entity under the key of a stored one changes that entity
    and nothing else. *)
Lemma overwrite_spec (k : nat) (e' e0 : Entity) (l : list Entity) :
  NoDup (map e_key l) -> In e0 l -> e_key e0 = Some k ->
  exists l1 l2, l = l1 ++ e0 :: l2 /\ overwrite k e' l = l1 ++ e' :: l2.
Proof.
  induction l as [|x l IH]; intros Hnd Hin Hk; [contradiction|].
  simpl. destruct (has_key k x) eqn:Hx.
  - apply has_key_eq in Hx.
    assert (x = e0)
      by (apply (@key_unique (x :: l) k); auto; now left).
    subst x. now exists [], l.
  - destruct Hin as [-> | Hin].
    + apply has_key_eq in Hk. congruence.
    + inversion Hnd as [|? ? _ Hnd']; subst.
      destruct (IH Hnd' Hin Hk) as [l1 [l2 [E1 E2]]].
      exists (x :: l1), l2. simpl. split; f_equal; assumption.
Qed.

Lemma Page_load_entity (nm : str) (w : World) :
  wf_world w ->
  match entity (fst (Page_load nm w)) with
  | None => True
  | Some e =>
      e_kind e = KPage /\
      exists k e0, e_key e = Some k /\ In e0 (datastore w) /\
                   e_key e0 = Some k /\ e_kind e0 = KPage
  end.
Proof.
  intros [Hkeys [Hnd Hcache]]. unfold Page_load.
  destruct (cache_get (lit "page_" ++ nm) (page_cache w)) as [d|] eqn:Hc.
  - cbn [Page_init fst entity].
    destruct (cache_get_In _ _ Hc) as [ck Hin]. exact (Hcache ck d Hin).
  - destruct (Query KPage _ w) as [|e l] eqn:Q; [exact I|].
    cbn [Page_init fst entity].
    assert (Hin : In e (Query KPage
                          (fun e0 => str_eqb (e_name e0) (strip_underscores nm))
                          w)) by (rewrite Q; now left).
    unfold Query in Hin. apply filter_In in Hin. destruct Hin as [Hin Hf].
    apply andb_true_iff in Hf. destruct Hf as [Hk _].
    apply Kind_eqb_eq in Hk.
    destruct (Hkeys e Hin) as [k [Ek _]].
    split; [exact Hk|]. now exists k, e.
Qed.

Lemma Page_load_wf (nm : str) (w : World) :
  wf_world w -> wf_world (snd (Page_load nm w)).
Proof.
  intros Hwf. pose proof (Page_load_entity nm Hwf) as He.
  destruct Hwf as [Hkeys [Hnd Hcache]]. unfold Page_load in *.
  destruct (cache_get (lit "page_" ++ nm) (page_cache w)) as [d|];
    [exact (conj Hkeys (conj Hnd Hcache))|].
  destruct (Query KPage _ w) as [|e l];
    [exact (conj Hkeys (conj Hnd Hcache))|].
  cbn [Page_init fst snd entity] in He |- *.
  split; [exact Hkeys|]. split; [exact Hnd|].
  intros ck e1. cbn [memcache_set_page page_cache datastore cache_set].
  intros [Hin | Hin].
  - injection Hin as _ <-. exact He.
  - apply cache_delete_In in Hin. exact (Hcache ck e1 Hin).
Qed.

Lemma keys_ok_snoc (ds : list Entity) (n : nat) (e : Entity) :
  keys_ok ds n -> e_key e = Some n -> keys_ok (ds ++ [e]) (S n).
Proof.
  intros [Hk Hnd] He. split.
  - intros x Hx. apply in_app_or in Hx. destruct Hx as [Hx | [<- | []]].
    + destruct (Hk x Hx) as [k [E Hlt]]. exists k. split; [exact E | lia].
    + exists n. split; [exact He | lia].
  - rewrite map_app. simpl. apply NoDup_app; [exact Hnd | | ].
    + constructor; [intros [] | constructor].
    + intros k Hin [<- | []]. apply in_map_iff in Hin.
      destruct Hin as [x [Ex Hx]]. destruct (Hk x Hx) as [k [E Hlt]].
      rewrite He in Ex. rewrite E in Ex. injection Ex as ->. lia.
Qed.

Lemma keys_ok_replace (l1 l2 : list Entity) (e0 pe : Entity) (n : nat) :
  keys_ok (l1 ++ e0 :: l2) n -> e_key pe = e_key e0 ->
  keys_ok (l1 ++ pe :: l2) n.
Proof.
  intros [Hk Hnd] He. split.
  - intros x Hx. apply in_app_or in Hx. destruct Hx as [Hx | [<- | Hx]].
    + apply Hk. apply in_or_app. now left.
    + rewrite He. apply Hk. apply in_or_app. right. now left.
    + apply Hk. apply in_or_app. right. now right.
  - rewrite map_app in Hnd |- *. simpl in Hnd |- *. now rewrite He.
Qed.

(** What [save] does to a well-formed world, for a page as [Page.load]
    gives it with the fields of the request set: it returns, the page
    entity is added or replaced in place, one history entry is added
    behind everything, the two caches lose the keys of the page name,
    and the world is well formed again. *)
Lemma save_spec (self : Page) (w : World) (addr cmt : str) :
  remote_addr self = Some addr -> comment self = Some cmt ->
  too_long (name self) w = false -> too_long addr w = false ->
  too_long cmt w = false ->
  wf_world w ->
  match entity self with
  | None => True
  | Some e =>
      e_kind e = KPage /\
      exists k e0, e_key e = Some k /\ In e0 (datastore w) /\
                   e_key e0 = Some k /\ e_kind e0 = KPage
  end ->
  exists self' w' pe l1 l2,
    save self w = Ok self' w' /\
    match entity self with
    | None => pe = new_page_entity self w /\ l1 = datastore w /\ l2 = [] /\
              next_id w' = S (S (next_id w))
    | Some e => pe = edited_entity self e w /\
                (exists e0, datastore w = l1 ++ e0 :: l2 /\
                            e_key e0 = e_key e /\ e_kind e0 = KPage) /\
                next_id w' = S (next_id w)
    end /\
    datastore w'
    = l1 ++ pe :: l2 ++ [history_entry self (next_id w' - 1) w] /\
    e_kind pe = KPage /\
    page_cache w' = cache_delete (lit "page_" ++ name self) (page_cache w) /\
    content_cache w'
    = cache_delete (lit "content_" ++ name self) (content_cache w) /\
    current_user w' = current_user w /\
    clock w' = S (clock w) /\
    wf_world w'.
Proof.
  intros Ha Hc Hn Hla Hlc [Hkeys [Hnd Hcache]] Hent.
  unfold too_long in Hn, Hla, Hlc.
  unfold save, save_to_history. rewrite Ha, Hc.
  destruct (entity self) as [e|] eqn:Ee.
  - destruct Hent as [Hkind [k [e0 [Ek [Hin [Ek0 Hk0]]]]]].
    destruct (@overwrite_spec k (edited_entity self e w) e0 (datastore w)
                Hnd Hin Ek0) as [l1 [l2 [E1 E2]]].
    unfold Put. cbn [now fst snd e_key current_user]. rewrite Ek.
    cbn [e_key memcache_delete datastore next_id page_cache content_cache
         current_user clock].
    unfold too_long. cbn [limits memcache_delete]. rewrite Hn, Hla, Hlc.
    cbn [e_key snd datastore next_id page_cache content_cache current_user
         clock].
    eexists. eexists. exists (edited_entity self e w), l1, l2.
    split; [reflexivity|]. cbn [datastore next_id page_cache content_cache
                                current_user clock].
    assert (Epe : MkEntity (e_kind e) (Some k) (e_name e) (e_created e)
                           (content self) (Some (clock w)) (current_user w)
                           (e_remote_addr e) (e_comment e)
                  = edited_entity self e w)
      by (unfold edited_entity; now rewrite Ek).
    rewrite Epe, E2.
    assert (Hko : keys_ok (l1 ++ edited_entity self e w :: l2) (next_id w)).
    { apply keys_ok_replace with e0.
      - rewrite <- E1. now split.
      - cbn. congruence. }
    split; [|split; [|split; [|split; [|split; [|split; [|split]]]]]];
      try reflexivity.
    + split; [reflexivity|]. split; [|reflexivity].
      exists e0. repeat split; [exact E1 | congruence | exact Hk0].
    + rewrite <- app_assoc. cbn [app]. unfold history_entry, with_key.
      rewrite Ha, Hc. cbn. repeat f_equal; lia.
    + exact Hkind.
    + destruct (@keys_ok_snoc _ (next_id w)
                  (MkEntity KPageHistory (Some (next_id w)) (name self)
                            (modified self) (content self) None
                            (current_user w) (Some addr) (Some cmt))
                  Hko eq_refl) as [Hk' Hnd'].
      split; [exact Hk'|]. split; [exact Hnd'|].
      intros ck e1 Hc1. apply cache_delete_In in Hc1.
      destruct (Hcache ck e1 Hc1) as [Hk1 [k1 [e2 [Ek1 [Hin2 [Ek2 Hk2]]]]]].
      split; [exact Hk1|].
      rewrite E1 in Hin2. apply in_app_or in Hin2.
      destruct Hin2 as [Hin2 | [<- | Hin2]].
      * exists k1, e2. repeat split; auto.
        apply in_or_app. left. apply in_or_app. now left.
      * exists k1, (edited_entity self e w). repeat split; auto.
        -- apply in_or_app. left. apply in_or_app. right. now left.
        -- cbn. congruence.
      * exists k1, e2. repeat split; auto.
        apply in_or_app. left. apply in_or_app. right. now right.
  - unfold Put, too_long.
    cbn [now fst snd e_key current_user next_id datastore limits
         memcache_delete page_cache content_cache clock].
    rewrite Hn.
    cbn [now fst snd e_key current_user next_id datastore limits
         memcache_delete page_cache content_cache clock].
    rewrite Hn, Hla, Hlc.
    cbn [now fst snd e_key current_user next_id datastore limits
         memcache_delete page_cache content_cache clock].
    eexists. eexists. exists (new_page_entity self w), (datastore w), [].
    split; [reflexivity|]. cbn [datastore next_id page_cache content_cache
                                current_user clock].
    assert (Hko : keys_ok (datastore w ++ [new_page_entity self w])
                          (S (next_id w)))
      by (apply keys_ok_snoc; [now split | reflexivity]).
    split; [|split; [|split; [|split; [|split; [|split; [|split]]]]]];
      try reflexivity.
    + repeat split.
    + rewrite <- app_assoc. cbn [app].
      unfold history_entry, new_page_entity, with_key.
      rewrite Ha, Hc. cbn. repeat f_equal; lia.
    + destruct (@keys_ok_snoc _ (S (next_id w))
                  (MkEntity KPageHistory (Some (S (next_id w))) (name self)
                            (modified self) (content self) None
                            (current_user w) (Some addr) (Some cmt))
                  Hko eq_refl) as [Hk' Hnd'].
      split; [exact Hk'|]. split; [exact Hnd'|].
      intros ck e1 Hc1. apply cache_delete_In in Hc1.
      destruct (Hcache ck e1 Hc1) as [Hk1 [k1 [e2 [Ek1 [Hin2 [Ek2 Hk2]]]]]].
      split; [exact Hk1|].
      exists k1, e2. repeat split; auto.
      apply in_or_app. left. apply in_or_app. now left.
Qed.

Lemma save_name (self self' : Page) (w w' : World) :
  save self w = Ok self' w' -> name self' = name self.
Proof.
  unfold save. destruct (now w) as [t w1].
  destruct (entity self) as [e|];
    [|destruct (too_long (name self) w1); [discriminate|]];
    cbv zeta; destruct (Put _ w1) as [e' w2];
    (destruct (save_to_history self _) as [x w4|x w4]; [|discriminate]);
    intros H; now injection H as <- _.
Qed.

Lemma too_long_limits (s : str) (w w' : World) :
  limits w' = limits w -> too_long s w' = too_long s w.
Proof. unfold too_long. now intros ->. Qed.

(** [save] in two steps: the page entity is put, unless the page is new
    and its name too long, and then the history entry. *)
Lemma save_unfold (self : Page) (w : World) :
  save self w
  = if match entity self with
       | Some _ => false
       | None => too_long (name self) w
       end
    then Raise BadValueError (snd (now w))
    else
      match save_to_history self (page_put self w) with
      | Ok _ w4 =>
          Ok match entity self with
             | Some _ =>
                 MkPage (name self)
                        (Some (fst (Put (put_entity self w) (snd (now w)))))
                        (content self) (user self) (created self)
                        (modified self) (remote_addr self) (comment self)
             | None => self
             end w4
      | Raise x w4 => Raise x w4
      end.
Proof.
  unfold save, page_put, put_entity. cbn [now fst snd current_user].
  destruct (entity self) as [e|].
  - cbn [e_kind e_key e_name e_created e_remote_addr e_comment].
    now destruct (Put _ _).
  - unfold too_long at 1. cbn [limits]. fold (too_long (name self) w).
    destruct (too_long (name self) w); [reflexivity|].
    cbn [e_kind e_key e_name e_created e_remote_addr e_comment].
    now destruct (Put _ _).
Qed.

Lemma limits_page_put (self : Page) (w : World) :
  limits (page_put self w) = limits w.
Proof.
  unfold page_put. cbn [memcache_delete limits]. now rewrite limits_Put.
Qed.

(** [save] returns only for a page with an address and a comment, and
    only when the name, the address and the comment are within the
    limit of plain strings. *)
Lemma save_Ok_short (self self' : Page) (w w' : World) :
  save self w = Ok self' w' ->
  exists addr cmt,
    remote_addr self = Some addr /\ comment self = Some cmt /\
    too_long (name self) w = false /\ too_long addr w = false /\
    too_long cmt w = false.
Proof.
  rewrite save_unfold.
  destruct (match entity self with
            | Some _ => false
            | None => too_long (name self) w
            end); [discriminate|].
  destruct (save_to_history self (page_put self w)) as [x w4|x w4] eqn:Eh;
    [|discriminate].
  intros _. apply save_to_history_Ok in Eh.
  destruct Eh as [addr [cmt [Ha [Hc [Hn [Hla [Hlc _]]]]]]].
  rewrite (@too_long_limits (name self) w _ (limits_page_put self w)) in Hn.
  rewrite (@too_long_limits addr w _ (limits_page_put self w)) in Hla.
  rewrite (@too_long_limits cmt w _ (limits_page_put self w)) in Hlc.
  now exists addr, cmt.
Qed.

(** An edit that returns has loaded the page and saved it. *)
Lemma post_Ok (nm : str) (rq : Request) (w : World) (u : User)
    (r : list Redirect) (w' : World) :
  current_user w = Some u -> post nm rq w = Ok r w' ->
  exists page',
    Page_load_or_raise nm w
    = Ok (fst (Page_load nm w)) (snd (Page_load nm w)) /\
    save (with_request (fst (Page_load nm w)) rq) (snd (Page_load nm w))
    = Ok page' w' /\
    r = match match_at _VALID_WIKINAME [] nm with
        | Some _ => []
        | None => [ToUrl (lit "/")]
        end ++ [ToUrl (view_url page')].
Proof.
  intros Hu. unfold post. rewrite Hu.
  destruct (Page_load_or_raise nm w) as [page w1|x w1] eqn:Hload;
    [|discriminate].
  rewrite (@Page_load_or_raise_Ok nm w w1 page Hload). cbn [fst snd].
  destruct (save (with_request page rq) w1) as [page' w2|x w2];
    [|discriminate].
  intros H. injection H as <- <-. now exists page'.
Qed.

Lemma Page_load_name (nm : str) (w : World) :
  name (fst (Page_load nm w)) = nm.
Proof.
  unfold Page_load.
  destruct (cache_get _ (page_cache w)); [reflexivity|].
  now destruct (Query _ _ w).
Qed.

(** X7.  The check of the page name does not stop an edit: whenever
    [post] returns for a logged-in user it has saved, whatever the
    name.  Its answer is the redirect to the page, after a redirect to
    [/] when the name is not valid, and in both cases the datastore has
    a history entry with the posted content under the posted name
    afterwards. *)
Theorem post_saves_whatever_the_name (nm : str) (rq : Request) (w : World)
    (u : User) (r : list Redirect) (w' : World) :
  current_user w = Some u ->
  post nm rq w = Ok r w' ->
  r = match match_at _VALID_WIKINAME [] nm with
      | Some _ => []
      | None => [ToUrl (lit "/")]
      end ++ [ToUrl (lit "/" ++ nm)] /\
  exists h,
    In h (datastore w') /\ e_kind h = KPageHistory /\
    e_name h = nm /\ e_content h = req_content rq.
Proof.
  intros Hu Hpost.
  destruct (@post_Ok nm rq w u r w' Hu Hpost) as [page' [_ [Hsave ->]]].
  destruct (save_same_content _ _ Hsave)
    as [pe [h [_ [Hh [_ [Hc [Hk [Hn _]]]]]]]].
  cbn [with_request content name] in Hc, Hn.
  rewrite Page_load_name in Hn.
  split; [|exists h; auto].
  unfold view_url. rewrite (save_name _ _ Hsave).
  cbn [with_request name]. now rewrite Page_load_name.
Qed.

Lemma post_saves_whatever_the_name_witness :
  [ToUrl (lit "/"); ToUrl (lit "/not a name")]
  = [ToUrl (lit "/")] ++ [ToUrl (lit "/" ++ lit "not a name")] /\
  exists h,
    In h (datastore (world_of (post (lit "not a name") edit_request
                                    world_FooBar))) /\
    e_kind h = KPageHistory /\
    e_name h = lit "not a name" /\ e_content h = req_content edit_request.
Proof.
  apply (@post_saves_whatever_the_name (lit "not a name") edit_request
           world_FooBar alice).
  - reflexivity.
  - vm_compute. reflexivity.
Defined.

(** What an edit that returns has done to a well-formed world. *)
Lemma post_spec (nm : str) (rq : Request) (w : World) (u : User)
    (r : list Redirect) (w' : World) :
  wf_world w -> current_user w = Some u ->
  post nm rq w = Ok r w' ->
  exists pe l1 l2,
    match entity (fst (Page_load nm w)) with
    | None => l1 = datastore w /\ l2 = [] /\
              e_name pe = nm /\ e_key pe = Some (next_id w) /\
              next_id w' = S (S (next_id w))
    | Some e => (exists e0, datastore w = l1 ++ e0 :: l2 /\
                            e_key e0 = e_key e /\ e_kind e0 = KPage) /\
                e_name pe = e_name e /\ e_key pe = e_key e /\
                next_id w' = S (next_id w)
    end /\
    datastore w'
    = l1 ++ pe :: l2
         ++ [MkEntity KPageHistory (Some (next_id w' - 1)) nm
                      (modified (fst (Page_load nm w))) (req_content rq) None
                      (Some u) (Some (req_remote_addr rq))
                      (Some (req_comment rq))] /\
    e_kind pe = KPage /\ e_content pe = req_content rq /\
    e_user pe = Some u /\
    cache_get (lit "page_" ++ nm) (page_cache w') = None /\
    wf_world w'.
Proof.
  intros Hwf Hu Hpost.
  destruct (@post_Ok nm rq w u r w' Hu Hpost) as [page0 [_ [Hsave0 _]]].
  pose proof (Page_load_wf nm Hwf) as Hwf1.
  pose proof (Page_load_entity nm Hwf) as Hent.
  destruct (Page_load_same_store nm w) as [Hds [Hid [_ Hcu]]].
  pose proof (Page_load_name nm w) as Hname.
  set (page := fst (Page_load nm w)) in *.
  set (w1 := snd (Page_load nm w)) in *.
  assert (Hent1 : match entity (with_request page rq) with
                  | None => True
                  | Some e =>
                      e_kind e = KPage /\
                      exists k e0, e_key e = Some k /\ In e0 (datastore w1) /\
                                   e_key e0 = Some k /\ e_kind e0 = KPage
                  end)
    by (cbn [with_request entity]; now rewrite Hds).
  destruct (@save_Ok_short _ _ _ _ Hsave0)
    as [addr [cmt [Ha [Hc [Hn [Hla Hlc]]]]]].
  cbn [with_request remote_addr comment] in Ha, Hc.
  injection Ha as <-. injection Hc as <-.
  destruct (@save_spec (with_request page rq) w1 (req_remote_addr rq)
              (req_comment rq) eq_refl eq_refl Hn Hla Hlc Hwf1 Hent1)
    as [self' [w0 [pe [l1 [l2 [Hsave [Hcase [Hd [Hk [Hpc [_ [_ [_ Hwf']]]]]]]]]]]]].
  rewrite Hsave0 in Hsave. injection Hsave as _ <-.
  exists pe, l1, l2.
  cbn [with_request entity name content modified remote_addr comment]
    in Hcase, Hd, Hpc.
  unfold history_entry in Hd.
  cbn [with_request entity name content modified remote_addr comment] in Hd.
  rewrite Hname, Hcu, Hu in Hd. rewrite Hname in Hpc.
  assert (Hpe : e_content pe = req_content rq /\ e_user pe = Some u).
  { destruct (entity page) as [e|]; destruct Hcase as [-> _]; cbn;
      rewrite Hcu, Hu; now split. }
  split; [|split; [exact Hd|split; [exact Hk|split; [apply Hpe|
           split; [apply Hpe|split; [|exact Hwf']]]]]].
  - destruct (entity page) as [e|].
    + destruct Hcase as [-> [[e0 [E0 [K0 Kd0]]] Hn']].
      rewrite Hds in E0. rewrite Hid in Hn'.
      split; [now exists e0|]. now cbn.
    + destruct Hcase as [-> [-> [-> Hn']]]. rewrite Hid in Hn'. cbn.
      now rewrite Hds, Hid, Hname.
  - rewrite Hpc. apply cache_get_delete_same.
Qed.

Lemma filter_kind_replace (l1 l2 : list Entity) (e0 pe : Entity) :
  e_kind e0 = KPage -> e_kind pe = KPage ->
  filter (fun e => Kind_eqb (e_kind e) KPageHistory && true)
         (l1 ++ pe :: l2)
  = filter (fun e => Kind_eqb (e_kind e) KPageHistory && true)
           (l1 ++ e0 :: l2).
Proof.
  intros H0 Hp. rewrite !filter_app. simpl. now rewrite H0, Hp.
Qed.

(** An edit by a logged-in user in a well-formed world, when it returns:
    the history entries stay and one is added behind them. *)
Lemma post_history (nm : str) (rq : Request) (w : World) (u : User)
    (r : list Redirect) (w' : World) :
  wf_world w -> current_user w = Some u ->
  post nm rq w = Ok r w' ->
  exists k,
    of_kind KPageHistory w'
    = of_kind KPageHistory w ++ [posted_entry nm rq w u k] /\
    next_id w <= k < next_id w' /\
    In (posted_entry nm rq w u k) (datastore w') /\
    wf_world w'.
Proof.
  intros Hwf Hu Hpost.
  destruct (@post_spec nm rq w u r w' Hwf Hu Hpost)
    as [pe [l1 [l2 [Hcase [Hd [Hk [_ [_ [_ Hwf']]]]]]]]].
  exists (next_id w' - 1).
  split; [|split; [|split; [|exact Hwf']]].
  - unfold of_kind, Query. rewrite Hd.
    rewrite app_comm_cons, app_assoc, filter_app.
    cbn [filter e_kind Kind_eqb andb]. f_equal.
    destruct (entity (fst (Page_load nm w))) as [e|].
    + destruct Hcase as [[e0 [E0 [_ K0]]] _]. rewrite E0.
      now apply filter_kind_replace.
    + destruct Hcase as [-> [-> _]]. rewrite filter_app. simpl.
      rewrite Hk. simpl. now rewrite app_nil_r.
  - destruct (entity (fst (Page_load nm w))) as [e|].
    + destruct Hcase as [_ [_ [_ ->]]]. lia.
    + destruct Hcase as [_ [_ [_ [_ ->]]]]. lia.
  - rewrite Hd. apply in_or_app. right. right.
    apply in_or_app. right. now left.
Qed.

(** X8.  History is append-only under edits: in a well-formed world an
    edit by a logged-in user that returns has left every stored history
    entry as it was and in its place, and has added exactly one entry
    behind them, with the posted name, content, address and comment,
    the user as author and a fresh key.  The world is well formed
    again. *)
Theorem post_appends_one_history_entry (nm : str) (rq : Request) (w : World)
    (u : User) (r : list Redirect) (w' : World) :
  wf_world w -> current_user w = Some u ->
  post nm rq w = Ok r w' ->
  exists h,
    of_kind KPageHistory w' = of_kind KPageHistory w ++ [h] /\
    e_name h = nm /\ e_content h = req_content rq /\ e_user h = Some u /\
    e_remote_addr h = Some (req_remote_addr rq) /\
    e_comment h = Some (req_comment rq) /\
    (exists k, e_key h = Some k /\ next_id w <= k < next_id w') /\
    wf_world w'.
Proof.
  intros Hwf Hu Hpost.
  destruct (@post_history nm rq w u r w' Hwf Hu Hpost) as [k [Hh [Hk [_ Hwf']]]].
  exists (posted_entry nm rq w u k).
  split; [exact Hh|].
  do 5 (split; [reflexivity|]). split; [|exact Hwf'].
  exists k. split; [reflexivity | exact Hk].
Qed.

Lemma world_FooBar_wf : wf_world world_FooBar.
Proof.
  split; [|split].
  - intros e [<- | [<- | []]]; eexists; (split; [reflexivity | simpl; lia]).
  - simpl. repeat constructor; simpl; intuition discriminate.
  - intros ck e [].
Qed.

Lemma post_appends_one_history_entry_witness :
  exists h,
    of_kind KPageHistory world_edited
    = of_kind KPageHistory world_FooBar ++ [h] /\
    e_name h = lit "FooBar" /\ e_content h = req_content edit_request /\
    e_user h = Some alice /\
    e_remote_addr h = Some (req_remote_addr edit_request) /\
    e_comment h = Some (req_comment edit_request) /\
    (exists k, e_key h = Some k /\
               next_id world_FooBar <= k < next_id world_edited) /\
    wf_world world_edited.
Proof.
  apply (@post_appends_one_history_entry (lit "FooBar") edit_request
           world_FooBar alice [ToUrl (lit "/FooBar")] world_edited).
  - exact world_FooBar_wf.
  - reflexivity.
  - vm_compute. reflexivity.
Defined.

(** The entity of a loaded page is the first stored Page entity of the
    stripped name, when the cache is current. *)
Lemma Page_load_first (nm : str) (w : World) :
  cache_current nm w ->
  entity (fst (Page_load nm w))
  = hd_error (Query KPage
                (fun e => str_eqb (e_name e) (strip_underscores nm)) w).
Proof.
  unfold cache_current, Page_load.
  destruct (cache_get (lit "page_" ++ nm) (page_cache w)) as [d|].
  - intros [l ->]. reflexivity.
  - intros _. now destruct (Query _ _ w).
Qed.

Lemma filter_first_split (P : Entity -> bool) (l1 l2 l : list Entity)
    (e : Entity) :
  NoDup (map e_key (l1 ++ e :: l2)) ->
  filter P (l1 ++ e :: l2) = e :: l ->
  filter P l1 = [] /\ P e = true.
Proof.
  intros Hnd Hf. rewrite filter_app in Hf.
  assert (HP : P e = true).
  { assert (Hin : In e (filter P l1 ++ filter P (e :: l2)))
      by (rewrite Hf; now left).
    apply in_app_or in Hin.
    destruct Hin as [Hin | Hin]; apply filter_In in Hin; tauto. }
  split; [|exact HP].
  destruct (filter P l1) as [|x t] eqn:E1; [reflexivity|].
  exfalso. simpl in Hf. injection Hf as -> _.
  assert (Hin : In e l1)
    by (apply (proj1 (filter_In P e l1)); rewrite E1; now left).
  rewrite map_app in Hnd. simpl in Hnd.
  apply NoDup_remove_2 in Hnd. apply Hnd.
  apply in_or_app. left. now apply in_map.
Qed.

(** An edit followed by a load of the same name. *)
Lemma post_load (nm : str) (rq : Request) (w : World) (u : User)
    (r : list Redirect) (w' : World) :
  wf_world w -> current_user w = Some u ->
  strip_underscores nm = nm ->
  cache_current nm w ->
  post nm rq w = Ok r w' ->
  (exists e, entity (fst (Page_load nm w')) = Some e /\ e_name e = nm) /\
  content (fst (Page_load nm w')) = req_content rq /\
  user (fst (Page_load nm w')) = Some u.
Proof.
  intros Hwf Hu Hnm Hcc Hpost.
  destruct (@post_spec nm rq w u r w' Hwf Hu Hpost)
    as [pe [l1 [l2 [Hcase [Hd [Hk [Hc [Hus [Hmiss _]]]]]]]]].
  pose proof (@Page_load_first nm w Hcc) as Hfirst. rewrite Hnm in Hfirst.
  set (P := fun e : Entity =>
              Kind_eqb (e_kind e) KPage && str_eqb (e_name e) nm) in *.
  assert (Hq : exists t, filter P (datastore w') = pe :: t).
  { unfold Query in Hfirst. fold P in Hfirst. rewrite Hd.
    destruct (entity (fst (Page_load nm w))) as [e|].
    - destruct Hcase as [[e0 [E0 [K0 Kd0]]] [Hn [Hkey _]]].
      destruct (filter P (datastore w)) as [|x t] eqn:Ef;
        [discriminate Hfirst|].
      injection Hfirst as ->.
      assert (e0 = x).
      { destruct Hwf as [Hkeys [Hnd _]].
        assert (Hx : In x (datastore w))
          by (apply (proj1 (filter_In P x (datastore w))); rewrite Ef;
              now left).
        destruct (Hkeys x Hx) as [k [Ek _]].
        apply (@key_unique (datastore w) k e0 x); auto.
        - rewrite E0. apply in_or_app. right. now left.
        - congruence. }
      subst e0. rewrite E0 in Ef.
      destruct Hwf as [_ [Hnd _]]. rewrite E0 in Hnd.
      destruct (@filter_first_split P _ _ _ _ Hnd Ef) as [Hl1 HPx].
      rewrite filter_app, Hl1. cbn [app filter].
      assert (HPpe : P pe = true).
      { unfold P in HPx |- *. rewrite Hk, Hn.
        apply andb_true_iff in HPx. now destruct HPx as [_ ->]. }
      rewrite HPpe. eexists. reflexivity.
    - destruct Hcase as [-> [-> [Hn _]]].
      destruct (filter P (datastore w)) as [|x t] eqn:Ef;
        [|discriminate Hfirst].
      rewrite filter_app, Ef. cbn [app filter].
      assert (HPpe : P pe = true)
        by (unfold P; rewrite Hk, Hn; simpl; apply str_eqb_refl).
      rewrite HPpe. eexists. reflexivity. }
  destruct Hq as [t Hq].
  assert (Hload : fst (Page_load nm w') = fst (Page_init nm (Some pe) w')).
  { unfold Page_load. rewrite Hmiss, Hnm. unfold Query. fold P.
    rewrite Hq. reflexivity. }
  rewrite Hload. cbn [Page_init fst entity content user].
  split; [|split; assumption].
  exists pe. split; [reflexivity|].
  assert (Hin : In pe (filter P (datastore w'))) by (rewrite Hq; now left).
  apply filter_In in Hin. destruct Hin as [_ Hin]. unfold P in Hin.
  apply andb_true_iff in Hin. destruct Hin as [_ Hin].
  now apply str_eqb_eq in Hin.
Qed.

(** X9.  What is posted is what is loaded: in a well-formed world whose
    cache is current for the page, after an edit by a logged-in user
    under a name without underscores that returned, [Page.load] of that
    name, when it returns, gives a page that exists, has the posted
    content and the user as author. *)
Theorem post_then_load (nm : str) (rq : Request) (w : World) (u : User)
    (r : list Redirect) (w' : World) (p : Page) (w'' : World) :
  wf_world w -> current_user w = Some u ->
  strip_underscores nm = nm ->
  cache_current nm w ->
  post nm rq w = Ok r w' ->
  Page_load_or_raise nm w' = Ok p w'' ->
  (exists e, entity p = Some e /\ e_name e = nm) /\
  content p = req_content rq /\
  user p = Some u.
Proof.
  intros Hwf Hu Hnm Hcc Hpost Hload.
  pose proof (@post_load nm rq w u r w' Hwf Hu Hnm Hcc Hpost) as H.
  rewrite (@Page_load_or_raise_Ok nm w' w'' p Hload) in H. exact H.
Qed.

Lemma post_then_load_witness :
  (exists e,
     entity (fst (Page_load (lit "FooBar") world_edited)) = Some e /\
     e_name e = lit "FooBar") /\
  content (fst (Page_load (lit "FooBar") world_edited))
  = req_content edit_request /\
  user (fst (Page_load (lit "FooBar") world_edited)) = Some alice.
Proof.
  apply (@post_then_load (lit "FooBar") edit_request world_FooBar alice
           [ToUrl (lit "/FooBar")] world_edited
           (fst (Page_load (lit "FooBar") world_edited))
           (snd (Page_load (lit "FooBar") world_edited))).
  - exact world_FooBar_wf.
  - reflexivity.
  - reflexivity.
  - exact I.
  - vm_compute. reflexivity.
  - vm_compute. reflexivity.
Defined.

(** ** History after an edit *)

Lemma filter_unique_key (P : Entity -> bool) (l : list Entity) (h : Entity)
    (k : nat) :
  NoDup (map e_key l) -> In h l -> e_key h = Some k -> P h = true ->
  (forall x, P x = true -> e_key x = Some k) ->
  filter P l = [h].
Proof.
  intros Hnd Hin Hk HP Hall.
  assert (Hone : forall x, In x (filter P l) -> x = h).
  { intros x Hx. apply filter_In in Hx. destruct Hx as [Hx HPx].
    exact (@key_unique l k x h Hnd Hx Hin (Hall x HPx) Hk). }
  assert (Hnd' : NoDup (filter P l)).
  { apply NoDup_filter. exact (NoDup_map_inv e_key l Hnd). }
  assert (Hh : In h (filter P l)) by (apply filter_In; now split).
  destruct (filter P l) as [|a [|b t]].
  - contradiction.
  - f_equal. apply Hone. now left.
  - exfalso. inversion Hnd' as [|? ? Hnot _]; subst. apply Hnot.
    rewrite (Hone a (or_introl eq_refl)).
    rewrite (Hone b (or_intror (or_introl eq_refl))). now left.
Qed.

(** X10.  The entry of an edit can be read back by its key: after an
    edit by a logged-in user in a well-formed world that returned there
    is a fresh key such that [load_from_history] of the posted name and
    any identifier of that key gives a page with the posted content and
    the user as author, and does not touch the world. *)
Theorem post_then_load_from_history (Key_decode : str -> option nat)
    (nm : str) (rq : Request) (w : World) (u : User) (r : list Redirect)
    (w' : World) :
  wf_world w -> current_user w = Some u ->
  post nm rq w = Ok r w' ->
  exists k,
    next_id w <= k < next_id w' /\
    forall v, Key_decode v = Some k ->
      exists p, load_from_history Key_decode nm v w' = Ok (Some p) w' /\
                name p = nm /\ content p = req_content rq /\
                user p = Some u.
Proof.
  intros Hwf Hu Hpost.
  destruct (@post_history nm rq w u r w' Hwf Hu Hpost)
    as [k [_ [Hk [Hin Hwf']]]].
  exists k. split; [exact Hk|].
  intros v Hv. unfold load_from_history, Query. rewrite Hv.
  rewrite (@filter_unique_key _ (datastore w') (posted_entry nm rq w u k) k).
  - eexists. split; [reflexivity|]. cbn. repeat split.
  - exact (proj1 (proj2 Hwf')).
  - exact Hin.
  - reflexivity.
  - cbn. rewrite str_eqb_refl, Nat.eqb_refl. reflexivity.
  - intros x Hx. apply andb_true_iff in Hx. destruct Hx as [_ Hx].
    apply andb_true_iff in Hx. destruct Hx as [_ Hx].
    now apply has_key_eq.
Qed.

Lemma post_then_load_from_history_witness :
  exists k,
    next_id world_FooBar <= k < next_id world_edited /\
    forall v, decimal_key v = Some k ->
      exists p, load_from_history decimal_key (lit "FooBar") v world_edited
                = Ok (Some p) world_edited /\
                name p = lit "FooBar" /\
                content p = req_content edit_request /\
                user p = Some alice.
Proof.
  apply (@post_then_load_from_history decimal_key (lit "FooBar") edit_request
           world_FooBar alice [ToUrl (lit "/FooBar")] world_edited).
  - exact world_FooBar_wf.
  - reflexivity.
  - vm_compute. reflexivity.
Defined.

(** X11.  The entry of an edit is dated by the edit before it: when the
    page has an entity, the history entry that an edit adds carries the
    posted content under the time the entity was last modified (its
    creation time when it has none), not the time of the edit. *)
Theorem post_dates_entry_by_previous_edit (nm : str) (rq : Request)
    (w : World) (u : User) (e : Entity) (r : list Redirect) (w' : World) :
  wf_world w -> current_user w = Some u ->
  entity (fst (Page_load nm w)) = Some e ->
  post nm rq w = Ok r w' ->
  exists h,
    of_kind KPageHistory w' = of_kind KPageHistory w ++ [h] /\
    e_content h = req_content rq /\
    e_created h = match e_modified e with
                  | Some t => t
                  | None => e_created e
                  end.
Proof.
  intros Hwf Hu He Hpost.
  destruct (@post_history nm rq w u r w' Hwf Hu Hpost) as [k [Hh _]].
  exists (posted_entry nm rq w u k).
  split; [exact Hh|]. split; [reflexivity|].
  cbn [posted_entry e_created].
  revert He. unfold Page_load.
  destruct (cache_get (lit "page_" ++ nm) (page_cache w)) as [d|].
  - cbn. now intros [= ->].
  - destruct (Query KPage _ w) as [|x t].
    + cbn. discriminate.
    + cbn. now intros [= ->].
Qed.

Lemma post_dates_entry_by_previous_edit_witness :
  exists h,
    of_kind KPageHistory world_edited
    = of_kind KPageHistory world_FooBar ++ [h] /\
    e_content h = lit "second text" /\
    e_created h = 10.
Proof.
  apply (@post_dates_entry_by_previous_edit (lit "FooBar") edit_request
           world_FooBar alice
           (MkEntity KPage (Some 1) (lit "FooBar") 10 (lit "first text")
                     (Some 10) (Some alice) None None)
           [ToUrl (lit "/FooBar")] world_edited).
  - exact world_FooBar_wf.
  - reflexivity.
  - reflexivity.
  - vm_compute. reflexivity.
Defined.

(** ** The listing of the history *)

Lemma insert_desc_perm (e : Entity) (l : list Entity) :
  Permutation (insert_desc e l) (e :: l).
Proof.
  induction l as [|x l IH]; simpl; [reflexivity|].
  destruct (e_created x <=? e_created e); [reflexivity|].
  rewrite IH. apply perm_swap.
Qed.

Lemma order_desc_perm (l : list Entity) : Permutation (order_desc l) l.
Proof.
  induction l as [|x l IH]; simpl; [reflexivity|].
  rewrite insert_desc_perm. now constructor.
Qed.

Lemma insert_desc_sorted (e : Entity) (l : list Entity) :
  StronglySorted newer_first l -> StronglySorted newer_first (insert_desc e l).
Proof.
  induction 1 as [|x l Hs IH Hx]; simpl.
  - repeat constructor.
  - destruct (e_created x <=? e_created e) eqn:E.
    + apply Nat.leb_le in E. constructor.
      * now constructor.
      * constructor; [exact E|].
        rewrite Forall_forall in Hx |- *. intros y Hy.
        specialize (Hx y Hy). unfold newer_first in *. lia.
    + apply Nat.leb_gt in E. constructor; [exact IH|].
      rewrite Forall_forall in Hx |- *. intros y Hy.
      apply (Permutation_in _ (insert_desc_perm e l)) in Hy.
      destruct Hy as [<- | Hy]; [unfold newer_first; lia | now apply Hx].
Qed.

Lemma order_desc_sorted (l : list Entity) :
  StronglySorted newer_first (order_desc l).
Proof.
  induction l as [|x l IH]; simpl; [constructor|].
  now apply insert_desc_sorted.
Qed.

Lemma StronglySorted_app_inv (R : Entity -> Entity -> Prop)
    (l1 l2 : list Entity) :
  StronglySorted R (l1 ++ l2) ->
  StronglySorted R l1 /\ forall a b, In a l1 -> In b l2 -> R a b.
Proof.
  induction l1 as [|x l1 IH]; simpl; intros Hs.
  - split; [constructor | intros a b []].
  - inversion Hs as [|? ? Hs' Hx]; subst.
    destruct (IH Hs') as [H1 H2]. split.
    + constructor; [exact H1|].
      rewrite Forall_forall in Hx |- *. intros y Hy. apply Hx.
      apply in_or_app. now left.
    + intros a b [<- | Ha] Hb.
      * rewrite Forall_forall in Hx. apply Hx. apply in_or_app. now right.
      * now apply H2.
Qed.

(** X12.  [fetch_history] lists stored history entries of the page's
    name and nothing else, newest first, and never more than 1000. *)
Theorem fetch_history_newest_first (self : Page) (w : World) :
  StronglySorted newer_first (fetch_history self w) /\
  length (fetch_history self w) <= 1000 /\
  forall e, In e (fetch_history self w) ->
            In e (datastore w) /\ e_kind e = KPageHistory /\
            e_name e = name self.
Proof.
  unfold fetch_history.
  set (q := Query KPageHistory _ w).
  split; [|split].
  - pose proof (order_desc_sorted q) as Hs.
    rewrite <- (firstn_skipn 1000 (order_desc q)) in Hs.
    exact (proj1 (StronglySorted_app_inv _ _ Hs)).
  - apply firstn_le_length.
  - intros e He.
    assert (Hq : In e q).
    { apply (Permutation_in _ (order_desc_perm q)).
      rewrite <- (firstn_skipn 1000 (order_desc q)).
      apply in_or_app. now left. }
    unfold q, Query in Hq. apply filter_In in Hq.
    destruct Hq as [Hin Hq]. apply andb_true_iff in Hq.
    destruct Hq as [Hkind Hname].
    split; [exact Hin|]. split.
    + now apply Kind_eqb_eq.
    + now apply str_eqb_eq in Hname.
Qed.

(** A stored entry of the name is listed, or 1000 newer ones are. *)
Lemma fetch_history_listed_or_full (self : Page) (w : World) (b : Entity) :
  In b (datastore w) -> e_kind b = KPageHistory -> e_name b = name self ->
  In b (fetch_history self w) \/
  (length (fetch_history self w) = 1000 /\
   forall a, In a (fetch_history self w) -> e_created b <= e_created a).
Proof.
  intros Hin Hkind Hname. unfold fetch_history.
  set (q := Query KPageHistory _ w).
  assert (Hq : In b q).
  { unfold q, Query. apply filter_In. split; [exact Hin|].
    rewrite Hkind, Hname. simpl. apply str_eqb_refl. }
  apply (Permutation_in _ (Permutation_sym (order_desc_perm q))) in Hq.
  pose proof (order_desc_sorted q) as Hs.
  rewrite <- (firstn_skipn 1000 (order_desc q)) in Hq, Hs.
  apply in_app_or in Hq. destruct Hq as [Hq | Hq]; [now left|].
  right. split.
  - apply firstn_length_le.
    destruct (Nat.le_gt_cases 1000 (length (order_desc q))) as [H|H];
      [exact H|].
    rewrite skipn_all2 in Hq by lia. contradiction.
  - intros a Ha.
    exact (proj2 (StronglySorted_app_inv _ _ Hs) a b Ha Hq).
Qed.

(** X13.  What [fetch_history] leaves out is old: a stored history
    entry of the page's name is listed unless 1000 entries are listed
    that are all at least as new. *)
Theorem fetch_history_drops_oldest (self : Page) (w : World) (b : Entity) :
  In b (datastore w) -> e_kind b = KPageHistory -> e_name b = name self ->
  In b (fetch_history self w) \/
  (length (fetch_history self w) = 1000 /\
   forall a, In a (fetch_history self w) -> e_created b <= e_created a).
Proof.
  intros Hin Hkind Hname.
  exact (@fetch_history_listed_or_full self w b Hin Hkind Hname).
Qed.

Lemma fetch_history_drops_oldest_witness :
  In (MkEntity KPageHistory (Some 2) (lit "FooBar") 9 (lit "first text")
               None (Some alice) (Some (lit "10.0.0.1"))
               (Some (lit "created")))
     (fetch_history (fst (Page_load (lit "FooBar") world_FooBar))
                    world_FooBar) \/
  (length (fetch_history (fst (Page_load (lit "FooBar") world_FooBar))
                         world_FooBar) = 1000 /\
   forall a,
     In a (fetch_history (fst (Page_load (lit "FooBar") world_FooBar))
                         world_FooBar) ->
     9 <= e_created a).
Proof.
  exact (@fetch_history_drops_oldest
           (fst (Page_load (lit "FooBar") world_FooBar)) world_FooBar
           (MkEntity KPageHistory (Some 2) (lit "FooBar") 9
                     (lit "first text") None (Some alice)
                     (Some (lit "10.0.0.1")) (Some (lit "created")))
           (or_intror (or_introl eq_refl)) eq_refl eq_refl).
Defined.

(** ** The request handler for reads *)

Lemma same_store_refl (w : World) : same_store w w.
Proof. unfold same_store. tauto. Qed.

Lemma strip_underscores_fixed (nm : str) :
  strip_underscores nm = nm <-> existsb (Ascii.eqb "_") nm = false.
Proof.
  unfold strip_underscores. induction nm as [|c nm IH]; [cbn; tauto|].
  cbn [filter existsb].
  rewrite (Ascii.eqb_sym "_" c).
  destruct (Ascii.eqb c "_") eqn:E; cbn [negb orb].
  - split; [|discriminate]. intros H. exfalso.
    assert (Hl : length (filter (fun c0 => negb (Ascii.eqb c0 "_")) nm)
                 = S (length nm)) by now rewrite H.
    pose proof (filter_length_le (fun c0 => negb (Ascii.eqb c0 "_")) nm).
    lia.
  - rewrite <- IH. split; [now intros [= ->] | now intros ->].
Qed.

Lemma match_at_min_len (r : regex) (s : str) :
  match_at r [] s <> None -> min_len r <= length s.
Proof.
  destruct (match_at r [] s) as [m|] eqn:E; [intros _ | congruence].
  pose proof (@derives_min_len _ _ (@match_at_derives r [] s m E)) as Hlen.
  destruct (@match_at_Some r [] s m E) as [_ [_ [rest Hrest]]].
  rewrite Hrest, length_app. lia.
Qed.

Lemma replace_from_skip (old new a s : str) :
  replace_from old new (length a) (a ++ s) = replace_from old new 0 s.
Proof.
  induction a as [|c a IH]; [reflexivity|]. cbn [length app replace_from].
  exact IH.
Qed.

Lemma replace_from_gap (old new gap rest : str) :
  starts_nowhere old gap rest ->
  replace_from old new 0 (gap ++ rest)
  = gap ++ replace_from old new 0 rest.
Proof.
  induction gap as [|c gap IH]; intros Hn; [reflexivity|].
  cbn [app replace_from].
  assert (H0 : starts_with old (c :: gap ++ rest) = false).
  { apply (Hn [] (c :: gap)); [reflexivity | discriminate]. }
  rewrite H0. f_equal. apply IH.
  intros p s Hp Hs. apply (Hn (c :: p) s); [now rewrite Hp | exact Hs].
Qed.

(** [s.replace(old, new)] at the first occurrence of [old]. *)
Lemma str_replace_first (old new pre post : str) :
  old <> [] -> starts_nowhere old pre (old ++ post) ->
  str_replace old new (pre ++ old ++ post)
  = pre ++ new ++ str_replace old new post.
Proof.
  intros Hold Hn. unfold str_replace.
  destruct old as [|c old']; [congruence|].
  rewrite (@replace_from_gap _ new _ _ Hn). f_equal.
  change ((c :: old') ++ post) with (c :: (old' ++ post)).
  cbn [replace_from].
  change (c :: old' ++ post) with ((c :: old') ++ post).
  rewrite starts_with_app. f_equal.
  replace (length (c :: old') - 1) with (length old')
    by (cbn [length]; lia).
  apply replace_from_skip.
Qed.

Section HandlerProperties.

Variable Key_decode : str -> option nat.
Variable strftime : nat -> str.
Variable make_table : list str -> list str -> str -> str -> str.

Lemma load_from_history_world (nm key : str) (w : World) :
  (exists x, load_from_history Key_decode nm key w = Raise x w) \/
  (exists r, load_from_history Key_decode nm key w = Ok r w).
Proof.
  unfold load_from_history. destruct (Key_decode key) as [k|].
  - right. destruct (Query KPageHistory _ w) as [|e l]; eexists; reflexivity.
  - left. eexists. reflexivity.
Qed.

Lemma describe_world (p : Page) (w : World) :
  (exists x, describe strftime p w = Raise x w) \/
  (exists s, describe strftime p w = Ok s w).
Proof.
  unfold describe, user_nickname, bind, ret, raise.
  destruct (user p); [right | left]; eexists; reflexivity.
Qed.

(** [diff_history] leaves the world as it is, also when it raises. *)
Lemma diff_history_world (self : Page) (v1 v2 : str) (w : World) :
  world_of (diff_history Key_decode strftime make_table self v1 v2 w) = w.
Proof.
  unfold diff_history, bind.
  destruct (load_from_history_world (name self) v1 w) as [[x ->] | [r1 ->]];
    [reflexivity|].
  destruct (load_from_history_world (name self) v2 w) as [[x ->] | [r2 ->]];
    [reflexivity|].
  destruct r1 as [p1|], r2 as [p2|]; try reflexivity.
  destruct (describe_world p1 w) as [[x ->] | [s1 ->]]; [reflexivity|].
  destruct (describe_world p2 w) as [[x ->] | [s2 ->]]; reflexivity.
Qed.

(** The handler after the checks of the name, as a function of the page
    that was loaded; when [Page.load] raises, so does the handler. *)
Lemma get_unfold (nm : str) (rq : GetRequest) (w : World) (page : Page)
    (w1 : World) :
  nm <> [] -> match_at _VALID_WIKINAME [] nm <> None ->
  Page_load_or_raise nm w = Ok page w1 ->
  let r1 :=
    if existsb (Ascii.eqb "_") nm
    then [SendRedirect
            (ToUrl (str_replace nm (strip_underscores nm) (get_url rq)))
            true]
    else [] in
  let mode :=
    match entity page with
    | None => lit "edit"
    | Some _ =>
        if existsb (str_eqb (get_mode rq)) modes then get_mode rq
        else lit "view"
    end in
  get Key_decode strftime make_table nm rq w
  = if str_eqb mode (lit "edit") && anonymous w1
    then Ok (r1 ++ [SendRedirect ToLogin false]) w1
    else if str_eqb mode (lit "history")
    then Ok (r1 ++ [Generate (mode ++ lit ".html")
                      (HistoryValues page (fetch_history page w1))]) w1
    else if str_eqb mode (lit "diff")
    then
      match diff_history Key_decode strftime make_table page
                         (get_v1 rq) (get_v2 rq) w1 with
      | Ok d w' =>
          Ok (r1 ++ [Generate (mode ++ lit ".html") (DiffValues page d)]) w'
      | Raise x w' => Raise x w'
      end
    else Ok (r1 ++ [Generate (mode ++ lit ".html") (PageValues page)]) w1.
Proof.
  intros Hne Hm Hload. unfold get.
  destruct nm as [|c nm']; [congruence|].
  destruct (match_at _VALID_WIKINAME [] (c :: nm')) as [m|]; [|congruence].
  unfold bind. rewrite Hload. reflexivity.
Qed.

Lemma get_load_raises (nm : str) (rq : GetRequest) (w : World) (x : Exn)
    (w1 : World) :
  nm <> [] -> match_at _VALID_WIKINAME [] nm <> None ->
  Page_load_or_raise nm w = Raise x w1 ->
  get Key_decode strftime make_table nm rq w = Raise x w1.
Proof.
  intros Hne Hm Hload. unfold get.
  destruct nm as [|c nm']; [congruence|].
  destruct (match_at _VALID_WIKINAME [] (c :: nm')) as [m|]; [|congruence].
  unfold bind. now rewrite Hload.
Qed.

(** [Page.load] returns for a name without a stored page. *)
Lemma Page_load_or_raise_absent (nm : str) (w : World) :
  entity (fst (Page_load nm w)) = None ->
  Page_load_or_raise nm w
  = Ok (fst (Page_load nm w)) (snd (Page_load nm w)).
Proof.
  unfold Page_load_or_raise, Page_load.
  destruct (cache_get (lit "page_" ++ nm) (page_cache w)) as [d|];
    [discriminate|].
  destruct (Query KPage _ w) as [|e l]; [reflexivity | discriminate].
Qed.

Lemma templates_app (a b : list Event) :
  templates (a ++ b) = templates a ++ templates b.
Proof. unfold templates. apply flat_map_app. Qed.

Lemma Page_load_user (nm : str) (w : World) :
  current_user (snd (Page_load nm w)) = current_user w.
Proof. exact (proj2 (proj2 (proj2 (Page_load_same_store nm w)))). Qed.

(** X14.  A read changes nothing that is stored: whatever the name and
    the parameters, and whether the handler returns or raises, [get]
    leaves the datastore, the key counter, the cache of rendered
    contents and the user as they were. *)
Theorem get_reads_only (nm : str) (rq : GetRequest) (w : World) :
  same_store w (world_of (get Key_decode strftime make_table nm rq w)).
Proof.
  unfold get.
  set (nm' := match nm with [] => lit "MainPage" | _ :: _ => nm end).
  destruct (match_at _VALID_WIKINAME [] nm') as [m|];
    [|apply same_store_refl].
  unfold bind.
  destruct (Page_load_or_raise nm' w) as [page w1|x w1] eqn:Hload.
  - pose proof (Page_load_same_store nm' w) as Hs.
    rewrite (@Page_load_or_raise_Ok nm' w w1 page Hload) in Hs.
    cbn [snd] in Hs.
    destruct (_ && anonymous w1); [exact Hs|].
    destruct (str_eqb _ (lit "history")); [exact Hs|].
    destruct (str_eqb _ (lit "diff")); [|exact Hs].
    pose proof (diff_history_world page (get_v1 rq) (get_v2 rq) w1) as Hd.
    destruct (diff_history Key_decode strftime make_table page
                           (get_v1 rq) (get_v2 rq) w1);
      cbn [world_of] in Hd |- *; now subst.
  - cbn [world_of]. rewrite (@Page_load_or_raise_Raise nm' w w1 x Hload).
    apply same_store_refl.
Qed.

(** X15.  Nobody edits without logging in: when no user is logged in,
    [get] never renders the edit form, whatever the name and the
    parameters of the request. *)
Theorem get_shows_no_edit_form_to_anonymous (nm : str) (rq : GetRequest)
    (w w' : World) (evs : list Event) :
  current_user w = None ->
  get Key_decode strftime make_table nm rq w = Ok evs w' ->
  ~ In (lit "edit.html") (templates evs).
Proof.
  intros Hu.
  assert (Hget : get Key_decode strftime make_table nm rq w
                 = get Key_decode strftime make_table
                       (match nm with [] => lit "MainPage" | _ :: _ => nm end)
                       rq w)
    by now destruct nm.
  rewrite Hget. clear Hget.
  set (nm' := match nm with [] => lit "MainPage" | _ :: _ => nm end).
  assert (Hne : nm' <> []) by (unfold nm'; now destruct nm).
  destruct (match_at _VALID_WIKINAME [] nm') as [m|] eqn:Hm.
  - assert (Hm' : match_at _VALID_WIKINAME [] nm' <> None) by congruence.
    destruct (Page_load_or_raise nm' w) as [page w1|x w1] eqn:Hload;
      [|rewrite (@get_load_raises nm' rq w x w1 Hne Hm' Hload); discriminate].
    rewrite (@get_unfold nm' rq w page w1 Hne Hm' Hload).
    cbv zeta.
    set (r1 := if existsb (Ascii.eqb "_") nm' then _ else _).
    assert (Hr1 : templates r1 = [])
      by (unfold r1; now destruct (existsb (Ascii.eqb "_") nm')).
    set (mode := match entity page with
                 | Some _ => _
                 | None => _
                 end).
    assert (Han : anonymous w1 = true).
    { pose proof (Page_load_user nm' w) as H.
      rewrite (@Page_load_or_raise_Ok nm' w w1 page Hload) in H.
      cbn [snd] in H. unfold anonymous. now rewrite H, Hu. }
    rewrite Han, andb_true_r.
    destruct (str_eqb mode (lit "edit")) eqn:E.
    + intros [= <- _]. rewrite templates_app, Hr1. intros [].
    + assert (Hmode : ~ In (lit "edit.html")
                          (templates r1 ++ [mode ++ lit ".html"])).
      { rewrite Hr1. intros [H | []].
        change (lit "edit.html") with (lit "edit" ++ lit ".html") in H.
        apply app_inv_tail in H. subst mode.
        rewrite H, str_eqb_refl in E. discriminate. }
      destruct (str_eqb mode (lit "history")).
      * intros [= <- _]. now rewrite templates_app.
      * destruct (str_eqb mode (lit "diff")).
        -- destruct (diff_history _ _ _ _ _ _ _); [|discriminate].
           intros [= <- _]. now rewrite templates_app.
        -- intros [= <- _]. now rewrite templates_app.
  - unfold get. fold nm'. destruct nm' as [|c t]; [congruence|].
    rewrite Hm. intros [= <- _]. cbn. intros [H | []]. discriminate H.
Qed.

(** X16.  Names of fewer than four characters are not found: for such a
    name, the empty one apart, [get] answers 404 with the page of that
    error and touches nothing. *)
Theorem get_short_name_not_found (nm : str) (rq : GetRequest) (w : World) :
  nm <> [] -> length nm < 4 ->
  get Key_decode strftime make_table nm rq w
  = Ok [SetError 404; Generate (lit "404.html") NoValues] w.
Proof.
  intros Hne Hlen. unfold get.
  destruct nm as [|c t]; [congruence|].
  destruct (match_at _VALID_WIKINAME [] (c :: t)) as [m|] eqn:E;
    [|reflexivity].
  exfalso.
  assert (Hmin : min_len _VALID_WIKINAME <= length (c :: t))
    by (apply match_at_min_len; congruence).
  change (min_len _VALID_WIKINAME) with 4 in Hmin. lia.
Qed.

(** X17.  The redirect for a name with underscores does not end the
    request: for a valid name with an underscore whose first occurrence
    in the URL is marked by [pre] and [post], whenever [get] returns it
    has issued the permanent redirect to the URL with that occurrence
    stripped of its underscores, and after it the login redirect or a
    template as for any other name. *)
Theorem get_underscore_redirect_goes_on (nm pre post : str)
    (rq : GetRequest) (w w' : World) (evs : list Event) :
  match_at _VALID_WIKINAME [] nm <> None ->
  In "_"%char nm ->
  get_url rq = pre ++ nm ++ post ->
  starts_nowhere nm pre (nm ++ post) ->
  get Key_decode strftime make_table nm rq w = Ok evs w' ->
  exists ev,
    evs = [SendRedirect
             (ToUrl (pre ++ strip_underscores nm
                         ++ str_replace nm (strip_underscores nm) post))
             true;
           ev] /\
    (ev = SendRedirect ToLogin false \/ exists t v, ev = Generate t v).
Proof.
  intros Hm Hin Hurl Hn.
  assert (Hne : nm <> []) by (intros ->; contradiction).
  destruct (Page_load_or_raise nm w) as [page w1|x w1] eqn:Hload;
    [|rewrite (@get_load_raises nm rq w x w1 Hne Hm Hload); discriminate].
  rewrite (@get_unfold nm rq w page w1 Hne Hm Hload). cbv zeta.
  assert (Hex : existsb (Ascii.eqb "_") nm = true).
  { apply existsb_exists. exists "_"%char. split; [exact Hin|].
    apply Ascii.eqb_refl. }
  rewrite Hex, Hurl, (@str_replace_first nm _ pre post Hne Hn).
  set (mode := match entity page with
               | Some _ => _
               | None => _
               end).
  destruct (str_eqb mode (lit "edit") && _).
  { intros [= <- _]. eexists. split; [reflexivity|]. now left. }
  destruct (str_eqb mode (lit "history")).
  { intros [= <- _]. eexists. split; [reflexivity|]. right. eauto. }
  destruct (str_eqb mode (lit "diff")).
  - destruct (diff_history _ _ _ _ _ _ _) as [d w2 | x w2]; [|discriminate].
    intros [= <- _]. eexists. split; [reflexivity|]. right. eauto.
  - intros [= <- _]. eexists. split; [reflexivity|]. right. eauto.
Qed.

(** X18.  A page that does not exist yet is offered for editing: for a
    valid name without a stored page and a logged-in user, [get]
    renders the edit form whatever mode the request asks for, with a
    page that has no entity and the escaped name as heading for its
    content. *)
Theorem get_absent_page_offers_edit (nm : str) (rq : GetRequest) (w : World)
    (u : User) :
  nm <> [] -> match_at _VALID_WIKINAME [] nm <> None ->
  entity (fst (Page_load nm w)) = None ->
  current_user w = Some u ->
  exists r1 p w',
    get Key_decode strftime make_table nm rq w
    = Ok (r1 ++ [Generate (lit "edit.html") (PageValues p)]) w' /\
    templates r1 = [] /\
    name p = nm /\ entity p = None /\
    content p = lit "<h1>" ++ cgi_escape nm ++ lit "</h1>".
Proof.
  intros Hne Hm He Hu.
  rewrite (@get_unfold nm rq w (fst (Page_load nm w)) (snd (Page_load nm w))
             Hne Hm (Page_load_or_raise_absent nm w He)).
  cbv zeta. rewrite He.
  assert (Han : anonymous (snd (Page_load nm w)) = false)
    by (unfold anonymous; now rewrite Page_load_user, Hu).
  rewrite Han, andb_false_r.
  change (str_eqb (lit "edit") (lit "history")) with false.
  change (str_eqb (lit "edit") (lit "diff")) with false.
  cbv iota.
  eexists _, _, _. split; [reflexivity|].
  split; [now destruct (existsb (Ascii.eqb "_") nm)|].
  split; [apply Page_load_name|]. split; [exact He|].
  revert He. unfold Page_load.
  destruct (cache_get (lit "page_" ++ nm) (page_cache w)) as [d|];
    [discriminate|].
  destruct (Query KPage _ w) as [|x t]; [reflexivity | discriminate].
Qed.

End HandlerProperties.

Lemma get_shows_no_edit_form_to_anonymous_witness :
  ~ In (lit "edit.html") (templates [SendRedirect ToLogin false]).
Proof.
  apply (@get_shows_no_edit_form_to_anonymous decimal_key tally captions
           (lit "FooBar")
           (MkGetRequest (lit "http://localhost/FooBar?mode=edit")
                         (lit "edit") [] [])
           world_anonymous
           (snd (Page_load (lit "FooBar") world_anonymous))
           [SendRedirect ToLogin false]).
  - reflexivity.
  - vm_compute. reflexivity.
Defined.

Lemma get_short_name_not_found_witness :
  get decimal_key tally captions (lit "Foo")
      (MkGetRequest (lit "http://localhost/Foo") [] [] []) world_FooBar
  = Ok [SetError 404; Generate (lit "404.html") NoValues] world_FooBar.
Proof.
  apply (@get_short_name_not_found decimal_key tally captions (lit "Foo")).
  - discriminate.
  - simpl. lia.
Defined.

Lemma get_underscore_redirect_goes_on_witness :
  exists ev,
    [SendRedirect (ToUrl (lit "http://localhost/FooBar?mode=view")) true;
     Generate (lit "view.html")
              (PageValues (fst (Page_load (lit "Foo_Bar") world_FooBar)))]
    = [SendRedirect
         (ToUrl (lit "http://localhost/"
                 ++ strip_underscores (lit "Foo_Bar")
                 ++ str_replace (lit "Foo_Bar")
                                (strip_underscores (lit "Foo_Bar"))
                                (lit "?mode=view")))
         true;
       ev] /\
    (ev = SendRedirect ToLogin false \/ exists t v, ev = Generate t v).
Proof.
  apply (@get_underscore_redirect_goes_on decimal_key tally captions
           (lit "Foo_Bar") (lit "http://localhost/") (lit "?mode=view")
           (MkGetRequest (lit "http://localhost/Foo_Bar?mode=view")
                         (lit "view") [] [])
           world_FooBar
           (snd (Page_load (lit "Foo_Bar") world_FooBar))).
  - vm_compute. discriminate.
  - simpl. tauto.
  - reflexivity.
  - apply starts_nowhere_b_ok. vm_compute. reflexivity.
  - vm_compute. reflexivity.
Defined.

Lemma get_absent_page_offers_edit_witness :
  exists r1 p w',
    get decimal_key tally captions (lit "NewPage")
        (MkGetRequest (lit "http://localhost/NewPage?mode=history")
                      (lit "history") [] [])
        world_FooBar
    = Ok (r1 ++ [Generate (lit "edit.html") (PageValues p)]) w' /\
    templates r1 = [] /\
    name p = lit "NewPage" /\ entity p = None /\
    content p = lit "<h1>" ++ cgi_escape (lit "NewPage") ++ lit "</h1>".
Proof.
  apply (@get_absent_page_offers_edit decimal_key tally captions
           (lit "NewPage") _ world_FooBar alice).
  - discriminate.
  - vm_compute. discriminate.
  - reflexivity.
  - reflexivity.
Defined.

(** ** An edit and the reads after it *)

Section EditThenRead.

Variable Key_decode : str -> option nat.
Variable strftime : nat -> str.
Variable make_table : list str -> list str -> str -> str -> str.

(** X19.  An edit shows in the view: in a well-formed world whose cache
    is current for the page, after an edit by a logged-in user under a
    valid name without underscores that returned, [get] of that name in
    any mode but edit, history and diff, when it returns, has rendered
    the view with a page of the posted content and that user as author,
    and nothing else. *)
Theorem post_then_get_shows_posted (nm : str) (rq : Request)
    (grq : GetRequest) (w : World) (u : User) (r : list Redirect)
    (w' : World) (evs : list Event) (w'' : World) :
  wf_world w -> current_user w = Some u ->
  match_at _VALID_WIKINAME [] nm <> None ->
  strip_underscores nm = nm -> cache_current nm w ->
  ~ In (get_mode grq) [lit "edit"; lit "history"; lit "diff"] ->
  post nm rq w = Ok r w' ->
  get Key_decode strftime make_table nm grq w' = Ok evs w'' ->
  exists p,
    evs = [Generate (lit "view.html") (PageValues p)] /\
    name p = nm /\ content p = req_content rq /\ user p = Some u.
Proof.
  intros Hwf Hu Hm Hnm Hcc Hmode Hpost.
  destruct (@post_load nm rq w u r w' Hwf Hu Hnm Hcc Hpost)
    as [[e [He _]] [Hc Hus]].
  assert (Hne : nm <> []).
  { pose proof (@match_at_min_len _ _ Hm) as Hlen.
    change (min_len _VALID_WIKINAME) with 4 in Hlen.
    intros ->. simpl in Hlen. lia. }
  destruct (Page_load_or_raise nm w') as [page w1|x w1] eqn:Hload;
    [|rewrite (@get_load_raises Key_decode strftime make_table nm grq w' x w1
                 Hne Hm Hload); discriminate].
  rewrite (@get_unfold Key_decode strftime make_table nm grq w' page w1
             Hne Hm Hload).
  cbv zeta.
  pose proof (@Page_load_or_raise_Ok nm w' w1 page Hload) as Hp.
  rewrite Hp in He, Hc, Hus. cbn [fst] in He, Hc, Hus.
  rewrite (proj1 (strip_underscores_fixed nm) Hnm), He.
  assert (Hview : (if existsb (str_eqb (get_mode grq)) modes
                   then get_mode grq else lit "view") = lit "view").
  { destruct (existsb (str_eqb (get_mode grq)) modes) eqn:E; [|reflexivity].
    apply existsb_exists in E. destruct E as [x [Hx E]].
    apply str_eqb_eq in E. subst x. unfold modes in Hx.
    destruct Hx as [H | Hx]; [now symmetry|].
    exfalso. apply Hmode. simpl in Hx |- *. tauto. }
  rewrite Hview.
  change (str_eqb (lit "view") (lit "edit")) with false.
  change (str_eqb (lit "view") (lit "history")) with false.
  change (str_eqb (lit "view") (lit "diff")) with false.
  cbn [andb app]. intros [= <- _].
  exists page. split; [reflexivity|]. split; [|split; assumption].
  pose proof (Page_load_name nm w') as Hn. now rewrite Hp in Hn.
Qed.

(** X20.  An edit shows in the history: in a well-formed world whose
    cache is current for the page, after an edit by a logged-in user
    under a valid name without underscores that returned, [get] of that
    name in the mode history, when it returns, has rendered the history
    of the page, and the list has an entry with the posted content, the
    comment and the user as author, unless it is full with 1000
    entries. *)
Theorem post_then_get_lists_edit (nm : str) (rq : Request)
    (grq : GetRequest) (w : World) (u : User) (r : list Redirect)
    (w' : World) (evs : list Event) (w'' : World) :
  wf_world w -> current_user w = Some u ->
  match_at _VALID_WIKINAME [] nm <> None ->
  strip_underscores nm = nm -> cache_current nm w ->
  get_mode grq = lit "history" ->
  post nm rq w = Ok r w' ->
  get Key_decode strftime make_table nm grq w' = Ok evs w'' ->
  exists p hist,
    evs = [Generate (lit "history.html") (HistoryValues p hist)] /\
    ((exists h, In h hist /\ e_content h = req_content rq /\
                e_comment h = Some (req_comment rq) /\ e_user h = Some u) \/
     length hist = 1000).
Proof.
  intros Hwf Hu Hm Hnm Hcc Hmode Hpost.
  destruct (@post_load nm rq w u r w' Hwf Hu Hnm Hcc Hpost)
    as [[e [He _]] _].
  destruct (@post_history nm rq w u r w' Hwf Hu Hpost)
    as [k [_ [_ [Hin _]]]].
  assert (Hne : nm <> []).
  { pose proof (@match_at_min_len _ _ Hm) as Hlen.
    change (min_len _VALID_WIKINAME) with 4 in Hlen.
    intros ->. simpl in Hlen. lia. }
  destruct (Page_load_or_raise nm w') as [page w1|x w1] eqn:Hload;
    [|rewrite (@get_load_raises Key_decode strftime make_table nm grq w' x w1
                 Hne Hm Hload); discriminate].
  rewrite (@get_unfold Key_decode strftime make_table nm grq w' page w1
             Hne Hm Hload).
  cbv zeta.
  pose proof (@Page_load_or_raise_Ok nm w' w1 page Hload) as Hp.
  rewrite Hp in He. cbn [fst] in He.
  rewrite (proj1 (strip_underscores_fixed nm) Hnm), He, Hmode.
  change (existsb (str_eqb (lit "history")) modes) with true.
  change (str_eqb (lit "history") (lit "edit")) with false.
  change (str_eqb (lit "history") (lit "history")) with true.
  cbn [andb app]. intros [= <- _].
  exists page, (fetch_history page w1). split; [reflexivity|].
  assert (Hds : datastore w1 = datastore w').
  { pose proof (proj1 (Page_load_same_store nm w')) as H.
    now rewrite Hp in H. }
  assert (Hn : name page = nm).
  { pose proof (Page_load_name nm w') as H. now rewrite Hp in H. }
  destruct (@fetch_history_listed_or_full page w1
              (posted_entry nm rq w u k)) as [H | [H _]].
  - rewrite Hds. exact Hin.
  - reflexivity.
  - cbn [posted_entry e_name]. now rewrite Hn.
  - left. exists (posted_entry nm rq w u k). now repeat split.
  - now right.
Qed.

End EditThenRead.

Lemma post_then_get_shows_posted_witness :
  exists p,
    [Generate (lit "view.html")
              (PageValues (fst (Page_load (lit "FooBar") world_edited)))]
    = [Generate (lit "view.html") (PageValues p)] /\
    name p = lit "FooBar" /\ content p = req_content edit_request /\
    user p = Some alice.
Proof.
  apply (@post_then_get_shows_posted decimal_key tally captions
           (lit "FooBar") edit_request
           (MkGetRequest (lit "http://localhost/FooBar") [] [] [])
           world_FooBar alice [ToUrl (lit "/FooBar")] world_edited
           [Generate (lit "view.html")
              (PageValues (fst (Page_load (lit "FooBar") world_edited)))]
           (snd (Page_load (lit "FooBar") world_edited))).
  - exact world_FooBar_wf.
  - reflexivity.
  - vm_compute. discriminate.
  - reflexivity.
  - exact I.
  - simpl. intros [H | [H | [H | []]]]; discriminate H.
  - vm_compute. reflexivity.
  - vm_compute. reflexivity.
Defined.

Lemma post_then_get_lists_edit_witness :
  exists p hist,
    [Generate (lit "history.html")
       (HistoryValues
          (fst (Page_load (lit "FooBar") world_edited))
          (fetch_history (fst (Page_load (lit "FooBar") world_edited))
                         (snd (Page_load (lit "FooBar") world_edited))))]
    = [Generate (lit "history.html") (HistoryValues p hist)] /\
    ((exists h, In h hist /\ e_content h = req_content edit_request /\
                e_comment h = Some (req_comment edit_request) /\
                e_user h = Some alice) \/
     length hist = 1000).
Proof.
  apply (@post_then_get_lists_edit decimal_key tally captions
           (lit "FooBar") edit_request
           (MkGetRequest (lit "http://localhost/FooBar?mode=history")
                         (lit "history") [] [])
           world_FooBar alice [ToUrl (lit "/FooBar")] world_edited
           _ (snd (Page_load (lit "FooBar") world_edited))).
  - exact world_FooBar_wf.
  - reflexivity.
  - vm_compute. discriminate.
  - reflexivity.
  - exact I.
  - reflexivity.
  - vm_compute. reflexivity.
  - vm_compute. reflexivity.
Defined.

(** ** The check of a page name *)

Lemma strip_prefix_app (p s rest x : str) :
  strip_prefix p s = Some rest -> strip_prefix p (s ++ x) = Some (rest ++ x).
Proof.
  revert s. induction p as [|a p IH]; intros s; simpl.
  - now intros [= ->].
  - destruct s as [|b s]; [discriminate|]. simpl.
    destruct (Ascii.eqb a b); [apply IH | discriminate].
Qed.

Lemma plus_loop_extended (x : str) (body : mstate -> list mstate) :
  (forall st st', In st' (body st) ->
                  In (extended x st') (body (extended x st))) ->
  forall n m st st', n <= m ->
    In st' (plus_loop body n st) ->
    In (extended x st') (plus_loop body m (extended x st)).
Proof.
  intros Hbody. induction n as [|n IH]; intros m st st' Hnm Hin;
    [contradiction|].
  destruct m as [|m]; [lia|]. cbn [plus_loop] in Hin |- *.
  apply in_flat_map in Hin. destruct Hin as [st1 [H1 Hin]].
  apply in_flat_map. exists (extended x st1). split; [now apply Hbody|].
  apply in_app_or in Hin. apply in_or_app.
  destruct Hin as [Hin | [<- | []]]; [left | right; now left].
  cbn [extended after]. rewrite !length_app.
  destruct (length (after st1) <? length (after st)) eqn:E;
    [|contradiction].
  apply Nat.ltb_lt in E.
  assert (E' : ((length (after st1) + length x)
                <? (length (after st) + length x)) = true)
    by (apply Nat.ltb_lt; lia).
  rewrite E'. apply IH; [lia | exact Hin].
Qed.

(** A pattern without [\b] matches the same way when text is added at
    the end of the subject. *)
Lemma bt_extended (x : str) (r : regex) :
  no_WordB r = true ->
  forall st st', In st' (bt r st) -> In (extended x st') (bt r (extended x st)).
Proof.
  induction r as [s | neg items | | r1 IH1 r2 IH2 | r1 IH1 r2 IH2 | r IH
                  | n r IH]; cbn [no_WordB]; intros Hr st st' Hin.
  - cbn [bt] in Hin |- *. cbn [extended after].
    destruct (strip_prefix s (after st)) as [rest|] eqn:E; [|contradiction].
    rewrite (strip_prefix_app _ _ x E).
    destruct Hin as [<- | []]. now left.
  - cbn [bt] in Hin |- *. cbn [extended after].
    destruct (after st) as [|c rest]; [contradiction|]. cbn [app].
    destruct (cset_has neg items c); [|contradiction].
    destruct Hin as [<- | []]. now left.
  - discriminate.
  - apply andb_true_iff in Hr. destruct Hr as [Hr1 Hr2].
    cbn [bt] in Hin |- *. apply in_flat_map in Hin.
    destruct Hin as [st1 [H1 H2]]. apply in_flat_map.
    exists (extended x st1). split; [now apply IH1 | now apply IH2].
  - apply andb_true_iff in Hr. destruct Hr as [Hr1 Hr2].
    cbn [bt] in Hin |- *. apply in_app_or in Hin. apply in_or_app.
    destruct Hin as [Hin | Hin]; [left; now apply IH1 | right; now apply IH2].
  - cbn [bt] in Hin |- *.
    apply (@plus_loop_extended x (bt r) (IH Hr)
             (S (length (after st)))); [|exact Hin].
    cbn [extended after]. rewrite length_app. lia.
  - cbn [bt] in Hin |- *. apply in_map_iff in Hin.
    destruct Hin as [st0 [<- Hin]]. apply in_map_iff.
    exists (extended x st0). split; [|now apply IH].
    destruct (bt_moved r st st0 Hin) as [w [Ha Hb]].
    unfold set_cap, extended, consumed. cbn [before after caps].
    f_equal. f_equal. f_equal. rewrite !length_app.
    replace (length (after st) + length x - (length (after st0) + length x))
      with (length (after st) - length (after st0)) by lia.
    rewrite firstn_app.
    replace (length (after st) - length (after st0) - length (after st))
      with 0 by lia.
    cbn [firstn]. apply app_nil_r.
Qed.

(** X21.  The check of a page name reads only its begin: a name that
    passes [_VALID_WIKINAME.match] passes with any characters added
    behind it. *)
Theorem VALID_WIKINAME_checks_a_prefix (nm junk : str) :
  match_at _VALID_WIKINAME [] nm <> None ->
  match_at _VALID_WIKINAME [] (nm ++ junk) <> None.
Proof.
  unfold match_at.
  destruct (bt _VALID_WIKINAME (MState [] nm [])) as [|st' l] eqn:E;
    [congruence|].
  intros _.
  assert (Hin : In (extended junk st')
                   (bt _VALID_WIKINAME (extended junk (MState [] nm [])))).
  { apply bt_extended; [reflexivity|]. rewrite E. now left. }
  unfold extended in Hin at 2. cbn [before after caps] in Hin.
  destruct (bt _VALID_WIKINAME (MState [] (nm ++ junk) []));
    [contradiction | discriminate].
Qed.

Lemma VALID_WIKINAME_checks_a_prefix_witness :
  match_at _VALID_WIKINAME [] (lit "FooBar" ++ lit "<b>") <> None.
Proof.
  apply (@VALID_WIKINAME_checks_a_prefix (lit "FooBar") (lit "<b>")).
  vm_compute. discriminate.
Defined.

(** ** Two edits and their diff *)

Lemma Put_frame (e : Entity) (w : World) :
  current_user (snd (Put e w)) = current_user w /\
  content_cache (snd (Put e w)) = content_cache w /\
  page_cache (snd (Put e w)) = page_cache w.
Proof. unfold Put. destruct (e_key e); cbn; auto. Qed.

(** [save_to_history] leaves the world as it is or puts one history
    entry. *)
Lemma save_to_history_world (self : Page) (w : World) :
  world_of (save_to_history self w) = w \/
  exists e, e_kind e = KPageHistory /\ e_key e = None /\
            world_of (save_to_history self w) = snd (Put e w).
Proof.
  unfold save_to_history.
  destruct (too_long (name self) w); [now left|].
  destruct (remote_addr self) as [addr|]; [|now left].
  destruct (too_long addr w); [now left|].
  destruct (comment self) as [cmt|]; [|now left].
  destruct (too_long cmt w); [now left|].
  right. eexists. split; [|split]; [| |reflexivity]; reflexivity.
Qed.

(** The world [save] leaves behind, whether it returns or raises: the
    one it found with the clock moved, or the one with the page put, or
    that one with a history entry put. *)
Lemma save_world (self : Page) (w : World) :
  world_of (save self w) = snd (now w) \/
  world_of (save self w) = page_put self w \/
  exists e, e_kind e = KPageHistory /\ e_key e = None /\
            world_of (save self w) = snd (Put e (page_put self w)).
Proof.
  rewrite save_unfold.
  destruct (match entity self with
            | Some _ => false
            | None => too_long (name self) w
            end); [now left|].
  right.
  destruct (save_to_history_world self (page_put self w))
    as [H | [e [Hk [Hkey H]]]];
    destruct (save_to_history self (page_put self w)) as [x w4|x w4];
    cbn [world_of] in H |- *; subst w4; [now left | now left | |];
    right; now exists e.
Qed.

(** An edit leaves the user as it is and adds nothing to the cache of
    rendered contents. *)
Lemma save_keeps (self : Page) (w : World) :
  current_user (world_of (save self w)) = current_user w /\
  forall kv, In kv (content_cache (world_of (save self w))) ->
             In kv (content_cache w).
Proof.
  assert (Hpp : current_user (page_put self w) = current_user w /\
                forall kv, In kv (content_cache (page_put self w)) ->
                           In kv (content_cache w)).
  { unfold page_put. cbn [memcache_delete current_user content_cache].
    destruct (Put_frame (put_entity self w) (snd (now w))) as [-> [-> _]].
    split; [reflexivity|]. intros kv H. exact (cache_delete_In _ _ _ H). }
  destruct (save_world self w) as [-> | [-> | [e [_ [_ ->]]]]].
  - split; [reflexivity | trivial].
  - exact Hpp.
  - destruct (Put_frame e (page_put self w)) as [-> [-> _]]. exact Hpp.
Qed.

Lemma post_keeps (nm : str) (rq : Request) (w : World) :
  current_user (world_of (post nm rq w)) = current_user w /\
  forall kv, In kv (content_cache (world_of (post nm rq w))) ->
             In kv (content_cache w).
Proof.
  unfold post. destruct (current_user w) as [u|] eqn:Hu;
    [|cbn [world_of]; now rewrite Hu].
  destruct (Page_load_or_raise nm w) as [page w1|x w1] eqn:Hload.
  - pose proof (Page_load_same_store nm w) as [_ [_ [Hc Hu1]]].
    rewrite (@Page_load_or_raise_Ok nm w w1 page Hload) in Hc, Hu1.
    cbn [snd] in Hc, Hu1.
    destruct (save_keeps (with_request page rq) w1) as [Hsu Hsc].
    destruct (save (with_request page rq) w1) as [page' w2|x w2];
      cbn [world_of] in Hsu, Hsc |- *;
      (split; [congruence | intros kv H; rewrite <- Hc; now apply Hsc]).
  - cbn [world_of]. rewrite (@Page_load_or_raise_Raise nm w w1 x Hload).
    split; [exact Hu | trivial].
Qed.

Lemma of_kind_In (k : Kind) (w : World) (e : Entity) :
  In e (of_kind k w) -> In e (datastore w).
Proof. unfold of_kind, Query. intros H. now apply filter_In in H. Qed.

Lemma stored_posted_entry (nm : str) (rq : Request) (w0 w : World) (u : User)
    (k : nat) :
  wf_world w -> In (posted_entry nm rq w0 u k) (datastore w) ->
  stored nm k w = [posted_entry nm rq w0 u k].
Proof.
  intros Hwf Hin. unfold stored, Query.
  apply (@filter_unique_key _ (datastore w) (posted_entry nm rq w0 u k) k).
  - exact (proj1 (proj2 Hwf)).
  - exact Hin.
  - reflexivity.
  - cbn. rewrite str_eqb_refl, Nat.eqb_refl. reflexivity.
  - intros x Hx. apply andb_true_iff in Hx. destruct Hx as [_ Hx].
    apply andb_true_iff in Hx. destruct Hx as [_ Hx].
    now apply has_key_eq.
Qed.

(** The world with the page entity put is well formed and has the
    history it had. *)
Lemma page_put_spec (self : Page) (w : World) :
  wf_world w ->
  match entity self with
  | None => True
  | Some e =>
      e_kind e = KPage /\
      exists k e0, e_key e = Some k /\ In e0 (datastore w) /\
                   e_key e0 = Some k /\ e_kind e0 = KPage
  end ->
  wf_world (page_put self w) /\
  of_kind KPageHistory (page_put self w) = of_kind KPageHistory w.
Proof.
  intros [Hkeys [Hnd Hcache]] Hent.
  unfold page_put, put_entity, of_kind, Query.
  destruct (entity self) as [e|].
  - destruct Hent as [Hkind [k [e0 [Ek [Hin [Ek0 Hk0]]]]]].
    unfold Put. cbn [e_key now snd]. rewrite Ek.
    cbn [snd memcache_delete datastore next_id page_cache].
    set (pe := MkEntity (e_kind e) (Some k) (e_name e) (e_created e)
                        (content self) (Some (clock w)) (current_user w)
                        (e_remote_addr e) (e_comment e)).
    destruct (@overwrite_spec k pe e0 (datastore w) Hnd Hin Ek0)
      as [l1 [l2 [E1 E2]]].
    rewrite E2.
    assert (Hko : keys_ok (l1 ++ pe :: l2) (next_id w)).
    { apply keys_ok_replace with e0.
      - rewrite <- E1. now split.
      - cbn. congruence. }
    split.
    + split; [exact (proj1 Hko)|]. split; [exact (proj2 Hko)|].
      intros ck e1 Hc1. apply cache_delete_In in Hc1.
      destruct (Hcache ck e1 Hc1) as [Hk1 [k1 [e2 [Ek1 [Hin2 [Ek2 Hk2]]]]]].
      split; [exact Hk1|].
      rewrite E1 in Hin2. apply in_app_or in Hin2.
      destruct Hin2 as [Hin2 | [<- | Hin2]].
      * exists k1, e2. repeat split; auto. apply in_or_app. now left.
      * exists k1, pe. repeat split; auto.
        -- apply in_or_app. right. now left.
        -- cbn. congruence.
      * exists k1, e2. repeat split; auto.
        apply in_or_app. right. now right.
    + rewrite E1. apply filter_kind_replace; [exact Hk0 | exact Hkind].
  - unfold Put. cbn [e_key now snd memcache_delete datastore next_id
                     page_cache].
    set (pe := with_key (next_id w)
                 (MkEntity KPage None (name self) (clock w) (content self)
                           (Some (clock w)) (current_user w) None None)).
    assert (Hko : keys_ok (datastore w ++ [pe]) (S (next_id w)))
      by (apply keys_ok_snoc; [now split | reflexivity]).
    split.
    + split; [exact (proj1 Hko)|]. split; [exact (proj2 Hko)|].
      intros ck e1 Hc1. apply cache_delete_In in Hc1.
      destruct (Hcache ck e1 Hc1) as [Hk1 [k1 [e2 [Ek1 [Hin2 [Ek2 Hk2]]]]]].
      split; [exact Hk1|].
      exists k1, e2. repeat split; auto. apply in_or_app. now left.
    + rewrite filter_app. cbn. now rewrite app_nil_r.
Qed.

(** Putting a new history entry into a well-formed world adds it behind
    the history. *)
Lemma put_history_spec (e : Entity) (w : World) :
  wf_world w -> e_kind e = KPageHistory -> e_key e = None ->
  wf_world (snd (Put e w)) /\
  of_kind KPageHistory (snd (Put e w))
  = of_kind KPageHistory w ++ [with_key (next_id w) e].
Proof.
  intros [Hkeys [Hnd Hcache]] Hk Hkey.
  unfold Put, of_kind, Query. rewrite Hkey.
  cbn [snd datastore next_id page_cache].
  assert (Hko : keys_ok (datastore w ++ [with_key (next_id w) e])
                        (S (next_id w)))
    by (apply keys_ok_snoc; [now split | reflexivity]).
  split.
  - split; [exact (proj1 Hko)|]. split; [exact (proj2 Hko)|].
    intros ck e1 Hc1.
    destruct (Hcache ck e1 Hc1) as [Hk1 [k1 [e2 [Ek1 [Hin2 [Ek2 Hk2]]]]]].
    split; [exact Hk1|].
    exists k1, e2. repeat split; auto. apply in_or_app. now left.
  - rewrite filter_app. cbn [filter with_key e_kind]. now rewrite Hk.
Qed.

(** Whether it returns or raises, an edit in a well-formed world keeps
    the history in place, adds at most one entry behind it and leaves
    the world well formed. *)
Lemma post_frame (nm : str) (rq : Request) (w : World) :
  wf_world w ->
  exists added,
    of_kind KPageHistory (world_of (post nm rq w))
    = of_kind KPageHistory w ++ added /\
    length added <= match current_user w with Some _ => 1 | None => 0 end /\
    wf_world (world_of (post nm rq w)).
Proof.
  intros Hwf. unfold post.
  destruct (current_user w) as [u|].
  2: { exists []. rewrite app_nil_r. cbn [world_of length].
       split; [reflexivity|]. split; [lia | exact Hwf]. }
  destruct (Page_load_or_raise nm w) as [page w1|x w1] eqn:Hload.
  2: { exists []. rewrite app_nil_r. cbn [world_of length].
       rewrite (@Page_load_or_raise_Raise nm w w1 x Hload).
       split; [reflexivity|]. split; [lia | exact Hwf]. }
  pose proof (Page_load_wf nm Hwf) as Hwf1.
  pose proof (Page_load_entity nm Hwf) as Hent.
  pose proof (proj1 (Page_load_same_store nm w)) as Hds.
  rewrite (@Page_load_or_raise_Ok nm w w1 page Hload) in Hwf1, Hent, Hds.
  cbn [fst snd] in Hwf1, Hent, Hds.
  assert (Hh1 : of_kind KPageHistory w1 = of_kind KPageHistory w)
    by (unfold of_kind, Query; now rewrite Hds).
  assert (Hent1 : match entity (with_request page rq) with
                  | None => True
                  | Some e =>
                      e_kind e = KPage /\
                      exists k e0, e_key e = Some k /\ In e0 (datastore w1) /\
                                   e_key e0 = Some k /\ e_kind e0 = KPage
                  end)
    by (cbn [with_request entity]; now rewrite Hds).
  destruct (page_put_spec (with_request page rq) Hwf1 Hent1) as [Hwf3 Hh3].
  assert (Hw : world_of
                 match save (with_request page rq) w1 with
                 | Ok page' w2 =>
                     Ok (match match_at _VALID_WIKINAME [] nm with
                         | Some _ => []
                         | None => [ToUrl (lit "/")]
                         end ++ [ToUrl (view_url page')]) w2
                 | Raise x w2 => Raise x w2
                 end
               = world_of (save (with_request page rq) w1))
    by now destruct (save (with_request page rq) w1).
  rewrite Hw.
  destruct (save_world (with_request page rq) w1)
    as [-> | [-> | [e [Hk [Hkey ->]]]]].
  - exists []. rewrite app_nil_r. split; [exact Hh1|].
    split; [cbn; lia | exact Hwf1].
  - exists []. rewrite app_nil_r. split; [congruence|].
    split; [cbn; lia | exact Hwf3].
  - destruct (put_history_spec e Hwf3 Hk Hkey) as [Hwf4 Hh4].
    eexists. split; [rewrite Hh4, Hh3, Hh1; reflexivity|].
    split; [cbn; lia | exact Hwf4].
Qed.

Section TwoEdits.

Variable Key_decode : str -> option nat.
Variable strftime : nat -> str.
Variable make_table : list str -> list str -> str -> str -> str.

(** X22.  Two edits can be compared: after two edits of a page by a
    logged-in user in a well-formed world that both returned there are
    two keys, the second above the first, such that [diff_history] of
    the page and any identifiers of these keys does not raise and
    returns the table of the lines of the first and the second posted
    content, each under the caption with its time and the nickname of
    the user.  The contents are texts without vertical tab and form
    feed, on which the versions of Python 2 do not agree. *)
Theorem two_edits_then_diff (nm : str) (rq1 rq2 : Request) (w : World)
    (u : User) (r1 r2 : list Redirect) (w1 w2 : World) :
  wf_world w -> current_user w = Some u ->
  no_vt_ff (req_content rq1) = true -> no_vt_ff (req_content rq2) = true ->
  post nm rq1 w = Ok r1 w1 -> post nm rq2 w1 = Ok r2 w2 ->
  exists k1 k2 t1 t2,
    k1 < k2 /\
    forall self v1 v2,
      name self = nm -> Key_decode v1 = Some k1 -> Key_decode v2 = Some k2 ->
      diff_history Key_decode strftime make_table self v1 v2 w2
      = Ok (Some (make_table
                    (splitlines (req_content rq1))
                    (splitlines (req_content rq2))
                    (lit "Edited on " ++ strftime t1 ++ lit " by "
                     ++ nickname u)
                    (lit "Edited on " ++ strftime t2 ++ lit " by "
                     ++ nickname u))) w2.
Proof.
  intros Hwf Hu _ _ Hpost1 Hpost2.
  destruct (@post_history nm rq1 w u r1 w1 Hwf Hu Hpost1)
    as [k1 [Hh1 [Hk1 [_ Hwf1]]]].
  assert (Hu1 : current_user w1 = Some u).
  { pose proof (proj1 (post_keeps nm rq1 w)) as H.
    rewrite Hpost1 in H. cbn [world_of] in H. congruence. }
  destruct (@post_history nm rq2 w1 u r2 w2 Hwf1 Hu1 Hpost2)
    as [k2 [Hh2 [Hk2 [Hin2 Hwf2]]]].
  exists k1, k2,
    (modified (fst (Page_load nm w))), (modified (fst (Page_load nm w1))).
  split; [lia|].
  intros self v1 v2 Hname Hv1 Hv2.
  assert (Hin1 : In (posted_entry nm rq1 w u k1) (datastore w2)).
  { apply (@of_kind_In KPageHistory). rewrite Hh2, Hh1.
    apply in_or_app. left. apply in_or_app. right. now left. }
  pose proof (@stored_posted_entry nm rq1 w w2 u k1 Hwf2 Hin1) as Q1.
  pose proof (@stored_posted_entry nm rq2 w1 w2 u k2 Hwf2 Hin2) as Q2.
  subst nm.
  exact (@diff_history_captions Key_decode strftime make_table self v1 v2
           k1 k2 w2 _ _ [] [] u u Hv1 Hv2 Q1 Q2 eq_refl eq_refl).
Qed.

(** The world [get] leaves is the one it found or the one [Page.load]
    of the name left. *)
Lemma get_world (nm : str) (rq : GetRequest) (w : World) :
  world_of (get Key_decode strftime make_table nm rq w) = w \/
  exists nm', world_of (get Key_decode strftime make_table nm rq w)
              = snd (Page_load nm' w).
Proof.
  unfold get.
  set (nm' := match nm with [] => lit "MainPage" | _ :: _ => nm end).
  destruct (match_at _VALID_WIKINAME [] nm') as [m|]; [|now left].
  unfold bind.
  destruct (Page_load_or_raise nm' w) as [page w1|x w1] eqn:Hload.
  - right. exists nm'.
    rewrite (@Page_load_or_raise_Ok nm' w w1 page Hload). cbn [snd].
    destruct (_ && anonymous w1); [reflexivity|].
    destruct (str_eqb _ (lit "history")); [reflexivity|].
    destruct (str_eqb _ (lit "diff")); [|reflexivity].
    pose proof (diff_history_world Key_decode strftime make_table page
                  (get_v1 rq) (get_v2 rq) w1) as Hd.
    destruct (diff_history Key_decode strftime make_table page
                           (get_v1 rq) (get_v2 rq) w1);
      cbn [world_of] in Hd |- *; exact Hd.
  - left. cbn [world_of]. exact (@Page_load_or_raise_Raise nm' w w1 x Hload).
Qed.

Lemma serve_step (r : HttpRequest) (w : World) :
  wf_world w ->
  exists added,
    of_kind KPageHistory (serve Key_decode strftime make_table r w)
    = of_kind KPageHistory w ++ added /\
    length added <= (if is_edit r then 1 else 0) /\
    wf_world (serve Key_decode strftime make_table r w).
Proof.
  intros Hwf. destruct r as [usr nm rq | usr nm rq]; cbn [serve is_edit].
  - exists []. rewrite app_nil_r.
    destruct (get_world nm rq (as_user usr w)) as [-> | [nm' ->]].
    + split; [reflexivity|]. split; [cbn; lia | exact Hwf].
    + split; [|split; [cbn; lia|]].
      * unfold of_kind, Query.
        now rewrite (proj1 (Page_load_same_store nm' (as_user usr w))).
      * apply Page_load_wf. exact Hwf.
  - destruct (@post_frame nm rq (as_user usr w) Hwf)
      as [added [Hh [Hlen Hwf']]].
    exists added. split; [exact Hh|]. split; [|exact Hwf'].
    cbn [as_user current_user] in Hlen. now destruct usr.
Qed.

(** X23.  No request rewrites history: from a well-formed world, after
    any requests in a row, whoever sends them and whether they return
    or raise, the stored history entries are those of before, in place,
    followed by new entries, at most one for every POST of a logged-in
    user; the world is well formed again. *)
Theorem history_only_grows (rs : list HttpRequest) (w : World) :
  wf_world w ->
  exists added,
    of_kind KPageHistory (serve_all Key_decode strftime make_table rs w)
    = of_kind KPageHistory w ++ added /\
    length added <= length (filter is_edit rs) /\
    wf_world (serve_all Key_decode strftime make_table rs w).
Proof.
  revert w. induction rs as [|r rs IH]; intros w Hwf.
  - exists []. rewrite app_nil_r.
    split; [reflexivity | split; [cbn; lia | exact Hwf]].
  - destruct (serve_step r Hwf) as [a1 [H1 [L1 Hwf1]]].
    destruct (IH _ Hwf1) as [a2 [H2 [L2 Hwf2]]].
    exists (a1 ++ a2). cbn [serve_all fold_left].
    change (fold_left _ rs ?x)
      with (serve_all Key_decode strftime make_table rs x).
    split; [|split; [|exact Hwf2]].
    + now rewrite H2, H1, app_assoc.
    + rewrite length_app. cbn [filter].
      destruct (is_edit r); cbn [length]; lia.
Qed.

Lemma serve_all_content_cache (rs : list HttpRequest) (w : World) :
  forall kv,
    In kv (content_cache (serve_all Key_decode strftime make_table rs w)) ->
    In kv (content_cache w).
Proof.
  revert w. induction rs as [|r rs IH]; intros w kv; [trivial|].
  cbn [serve_all fold_left].
  change (fold_left _ rs ?x)
    with (serve_all Key_decode strftime make_table rs x).
  intros H. apply IH in H. revert H.
  destruct r as [usr nm rq | usr nm rq]; cbn [serve].
  - destruct (get_world nm rq (as_user usr w)) as [-> | [nm' ->]].
    + trivial.
    + now rewrite (proj1 (proj2 (proj2
                     (Page_load_same_store nm' (as_user usr w))))).
  - intros H. exact (proj2 (post_keeps nm rq (as_user usr w)) kv H).
Qed.

(** X24.  Rendered contents are never cached: whatever requests are
    served, whoever sends them and whether they raise, every entry of
    the cache of rendered contents afterwards was there before, and an
    empty cache is empty afterwards. *)
Theorem content_cache_never_filled (rs : list HttpRequest) (w : World) :
  incl (content_cache (serve_all Key_decode strftime make_table rs w))
       (content_cache w) /\
  (content_cache w = [] ->
   content_cache (serve_all Key_decode strftime make_table rs w) = []).
Proof.
  split.
  - intros kv. apply serve_all_content_cache.
  - intros Hempty.
    destruct (content_cache (serve_all Key_decode strftime make_table rs w))
      as [|kv l] eqn:E; [reflexivity|].
    exfalso.
    assert (H : In kv (content_cache w)).
    { apply (@serve_all_content_cache rs w). rewrite E. now left. }
    rewrite Hempty in H. exact H.
Qed.

End TwoEdits.

Lemma two_edits_then_diff_witness :
  exists k1 k2 t1 t2,
    k1 < k2 /\
    forall self v1 v2,
      name self = lit "FooBar" ->
      decimal_key v1 = Some k1 -> decimal_key v2 = Some k2 ->
      diff_history decimal_key tally captions self v1 v2
        (world_of (post (lit "FooBar")
                        (MkRequest (lit "third text") (lit "10.0.0.3")
                                   (lit "again")) world_edited))
      = Ok (Some (captions
                    (splitlines (req_content edit_request))
                    (splitlines (lit "third text"))
                    (lit "Edited on " ++ tally t1 ++ lit " by "
                     ++ nickname alice)
                    (lit "Edited on " ++ tally t2 ++ lit " by "
                     ++ nickname alice)))
           (world_of (post (lit "FooBar")
                           (MkRequest (lit "third text") (lit "10.0.0.3")
                                      (lit "again")) world_edited)).
Proof.
  apply (@two_edits_then_diff decimal_key tally captions (lit "FooBar")
           edit_request
           (MkRequest (lit "third text") (lit "10.0.0.3") (lit "again"))
           world_FooBar alice [ToUrl (lit "/FooBar")] [ToUrl (lit "/FooBar")]
           world_edited).
  - exact world_FooBar_wf.
  - reflexivity.
  - reflexivity.
  - reflexivity.
  - vm_compute. reflexivity.
  - vm_compute. reflexivity.
Defined.

Lemma history_only_grows_witness :
  exists added,
    of_kind KPageHistory
      (serve_all decimal_key tally captions
         [GET None (lit "FooBar")
              (MkGetRequest (lit "http://localhost/FooBar") [] [] []);
          POST (Some alice) (lit "FooBar") edit_request;
          POST None (lit "FooBar") edit_request]
         world_FooBar)
    = of_kind KPageHistory world_FooBar ++ added /\
    length added <= 1 /\
    wf_world
      (serve_all decimal_key tally captions
         [GET None (lit "FooBar")
              (MkGetRequest (lit "http://localhost/FooBar") [] [] []);
          POST (Some alice) (lit "FooBar") edit_request;
          POST None (lit "FooBar") edit_request]
         world_FooBar).
Proof.
  exact (@history_only_grows decimal_key tally captions
           [GET None (lit "FooBar")
                (MkGetRequest (lit "http://localhost/FooBar") [] [] []);
            POST (Some alice) (lit "FooBar") edit_request;
            POST None (lit "FooBar") edit_request]
           world_FooBar world_FooBar_wf).
Defined.
